(** * NovaEdit: the terminal editing engine of [NovaEdit.py]

    A shallow embedding of the terminal-mode core of NovaEdit (rows, the
    tab-aware column mapping, the syntax highlighter, the edit commands,
    undo/redo, mark/copy/cut/paste, open and save, the key decoder and the
    key loop) and the properties of the specification that were checked
    against it, followed by further properties of the code.

    Conventions of the embedding.
    - Python [int] is [Z].  Lists and strings are Rocq lists; indexing and
      slicing follow Python (negative indices count from the end, slices
      clamp, an index out of range raises [IndexError]).
    - A Python [str] is a list of characters.  Characters are the 8-bit
      [ascii] of the Standard Library read as the code points U+0000 to
      U+00FF; [isspace], [isdigit] and [lower] are the tables of Python for
      that range.
    - The process-wide editor state [E] is threaded by a state-and-exception
      monad [M]: a computation returns its outcome (a value or a raised
      exception) together with the state as the exception left it, so that a
      mutation made before an exception is still visible.
    - [EditorRow] objects live in [E.rows] and are mutated in place; the
      embedding addresses a row by its position in [E.rows].  The one row
      that is not yet in the list, the row under construction in
      [insert_editor_row], is a value of its own.
    - The terminal, the file system and the clock are outside: prompts, file
      contents and I/O failures are inputs of [open_file_terminal] and
      [save_file_terminal]; the time stamp of the status message is not
      modelled; rendering ([refresh_screen]) reads the state only and is not
      modelled. *)

From Stdlib Require Import ZArith Ascii String List Bool Lia Arith DecimalString.
Import ListNotations.
Local Open Scope Z_scope.

(* ================================================================== *)
(** * Python values and built-ins *)
(* ================================================================== *)

Module Py.

Definition str := list ascii.

(** A string literal. *)
Definition lit (s : string) : str := list_ascii_of_string s.

Definition len {A : Type} (l : list A) : Z := Z.of_nat (length l).

(** The exceptions that occur.  [OtherError] stands for any exception of
    the file system that is not [FileNotFoundError], with its message. *)
Inductive exn : Type :=
| IndexError
| TypeError
| RecursionError
| FileNotFoundError
| OtherError (msg : str)
| Diverges.  (* a loop of the model ran out of fuel *)

Inductive result (A : Type) : Type :=
| Ok (a : A)
| Raise (e : exn).
Arguments Ok {A} a.
Arguments Raise {A} e.

Definition rbind {A B : Type} (r : result A) (k : A -> result B) : result B :=
  match r with
  | Ok a => k a
  | Raise e => Raise e
  end.

(** [bound n i]: the position a slice bound [i] denotes in a sequence of
    length [n]. *)
Definition bound (n i : Z) : nat :=
  Z.to_nat (if i <? 0 then Z.max 0 (n + i) else Z.min i n).

(** [l[:j]] *)
Definition slice_to {A : Type} (l : list A) (j : Z) : list A :=
  firstn (bound (len l) j) l.

(** [l[i:]] *)
Definition slice_from {A : Type} (l : list A) (i : Z) : list A :=
  skipn (bound (len l) i) l.

(** [l[i:j]] *)
Definition slice {A : Type} (l : list A) (i j : Z) : list A :=
  let a := bound (len l) i in
  let b := bound (len l) j in
  firstn (b - a) (skipn a l).

(** The position of [l[i]], or [IndexError]. *)
Definition locate {A : Type} (l : list A) (i : Z) : result nat :=
  let k := if i <? 0 then i + len l else i in
  if (0 <=? k) && (k <? len l) then Ok (Z.to_nat k) else Raise IndexError.

(** [l[i]] *)
Definition getitem {A : Type} (l : list A) (i : Z) : result A :=
  rbind (locate l i) (fun p =>
  match nth_error l p with
  | Some x => Ok x
  | None => Raise IndexError
  end).

(** Replace the element at position [p] (nothing happens out of range; the
    callers pass positions obtained from [locate]). *)
Fixpoint set_nth {A : Type} (l : list A) (p : nat) (x : A) : list A :=
  match l, p with
  | [], _ => []
  | _ :: t, O => x :: t
  | h :: t, S p' => h :: set_nth t p' x
  end.

(** [l.insert(i, x)] *)
Definition list_insert {A : Type} (l : list A) (i : Z) (x : A) : list A :=
  let a := bound (len l) i in
  firstn a l ++ x :: skipn a l.

(** [del l[i]] *)
Definition delitem {A : Type} (l : list A) (i : Z) : result (list A) :=
  rbind (locate l i) (fun p => Ok (firstn p l ++ skipn (S p) l)).

(** [range(a, b)] *)
Definition range (a b : Z) : list Z :=
  map (fun k => a + Z.of_nat k) (seq 0 (Z.to_nat (b - a))).

(** [range(a, b, -1)] *)
Definition range_down (a b : Z) : list Z :=
  map (fun k => a - Z.of_nat k) (seq 0 (Z.to_nat (a - b))).

Definition tab : ascii := "009"%char.
Definition newline : ascii := "010"%char.
Definition carriage_return : ascii := "013"%char.
Definition double_quote : ascii := "034"%char.
Definition single_quote : ascii := "039"%char.
Definition full_stop : ascii := "046"%char.
Definition backslash : ascii := "092"%char.
Definition vertical_bar : ascii := "124"%char.

Definition code (c : ascii) : Z := Z.of_nat (nat_of_ascii c).

(** [ch.isspace()] *)
Definition isspace (c : ascii) : bool :=
  let n := code c in
  ((9 <=? n) && (n <=? 13)) || ((28 <=? n) && (n <=? 32))
  || (n =? 133) || (n =? 160).

(** [ch.isdigit()] *)
Definition isdigit (c : ascii) : bool :=
  let n := code c in
  ((48 <=? n) && (n <=? 57)) || (n =? 178) || (n =? 179) || (n =? 185).

(** [ch.lower()] *)
Definition lower_char (c : ascii) : ascii :=
  let n := code c in
  if ((65 <=? n) && (n <=? 90))
     || ((192 <=? n) && (n <=? 222) && negb (n =? 215))
  then ascii_of_nat (nat_of_ascii c + 32) else c.

Definition lower (s : str) : str := map lower_char s.

Fixpoint str_eqb (a b : str) : bool :=
  match a, b with
  | [], [] => true
  | x :: a', y :: b' => Ascii.eqb x y && str_eqb a' b'
  | _, _ => false
  end.

(** [c in s] for a character [c] *)
Definition char_in (c : ascii) (s : str) : bool :=
  existsb (Ascii.eqb c) s.

Fixpoint is_prefix (p s : str) : bool :=
  match p, s with
  | [], _ => true
  | x :: p', y :: s' => Ascii.eqb x y && is_prefix p' s'
  | _ :: _, [] => false
  end.

(** [s.startswith(p, i)] for [0 <= i <= len(s)] *)
Definition startswith (s p : str) (i : nat) : bool :=
  is_prefix p (skipn i s).

(** [s.endswith(p)] *)
Definition endswith (s p : str) : bool :=
  is_prefix (rev p) (rev s).

(** [s.replace(c, r)] for a one-character pattern [c] *)
Definition replace_char (c : ascii) (r : str) (s : str) : str :=
  flat_map (fun x => if Ascii.eqb x c then r else [x]) s.

(** [s.rstrip(chars)] *)
Fixpoint rstrip (chars : str) (s : str) : str :=
  match s with
  | [] => []
  | c :: s' =>
      match rstrip chars s' with
      | [] => if char_in c chars then [] else [c]
      | r => c :: r
      end
  end.

(** [sep.join(parts)] for a one-character separator *)
Fixpoint join (sep : ascii) (parts : list str) : str :=
  match parts with
  | [] => []
  | [p] => p
  | p :: rest => p ++ sep :: join sep rest
  end.

(** [s.split(sep)] for a one-character separator *)
Fixpoint split (sep : ascii) (s : str) : list str :=
  match s with
  | [] => [[]]
  | c :: s' =>
      if Ascii.eqb c sep then [] :: split sep s'
      else match split sep s' with
           | h :: t => (c :: h) :: t
           | [] => [[c]]
           end
  end.

(** [str(n)] for an integer [n] *)
Definition str_of_int (n : Z) : str :=
  lit (DecimalString.NilZero.string_of_int (Z.to_int n)).

End Py.
Import Py.

Notation "x <-? r ;; k" := (rbind r (fun x => k))
  (at level 100, r at next level, right associativity).

(* ================================================================== *)
(** * Syntax table *)
(* ================================================================== *)

(** The highlight categories [HL_NORMAL = 0] to [HL_MATCH = 8]. *)
Inductive hl : Type :=
| HL_NORMAL
| HL_NONPRINT
| HL_COMMENT
| HL_MLCOMMENT
| HL_KEYWORD1
| HL_KEYWORD2
| HL_STRING
| HL_NUMBER
| HL_MATCH.

Definition hl_eqb (a b : hl) : bool :=
  match a, b with
  | HL_NORMAL, HL_NORMAL | HL_NONPRINT, HL_NONPRINT
  | HL_COMMENT, HL_COMMENT | HL_MLCOMMENT, HL_MLCOMMENT
  | HL_KEYWORD1, HL_KEYWORD1 | HL_KEYWORD2, HL_KEYWORD2
  | HL_STRING, HL_STRING | HL_NUMBER, HL_NUMBER
  | HL_MATCH, HL_MATCH => true
  | _, _ => false
  end.

Definition HL_HIGHLIGHT_STRINGS : Z := Z.shiftl 1 0.
Definition HL_HIGHLIGHT_NUMBERS : Z := Z.shiftl 1 1.

Record EditorSyntax : Type := mkEditorSyntax {
  file_extensions : list str;
  keywords : list str;
  singleline_comment_start : str;
  multiline_comment_start : str;
  multiline_comment_end : str;
  flags : Z
}.

Local Open Scope string_scope.

Definition C_EXTENSIONS : list str := map lit [".c"; ".h"; ".cpp"; ".hpp"; ".cc"].
Definition C_KEYWORDS : list str := map lit [
    "auto"; "break"; "case"; "continue"; "default"; "do"; "else"; "enum";
    "extern"; "for"; "goto"; "if"; "register"; "return"; "sizeof"; "static";
    "struct"; "switch"; "typedef"; "union"; "volatile"; "while"; "NULL";
    "alignas"; "alignof"; "and"; "and_eq"; "asm"; "bitand"; "bitor"; "class";
    "compl"; "constexpr"; "const_cast"; "deltype"; "delete"; "dynamic_cast";
    "explicit"; "export"; "false"; "friend"; "inline"; "mutable"; "namespace";
    "new"; "noexcept"; "not"; "not_eq"; "nullptr"; "operator"; "or"; "or_eq";
    "private"; "protected"; "public"; "reinterpret_cast"; "static_assert";
    "static_cast"; "template"; "this"; "thread_local"; "throw"; "true"; "try";
    "typeid"; "typename"; "virtual"; "xor"; "xor_eq";
    "int|"; "long|"; "double|"; "float|"; "char|"; "unsigned|"; "signed|";
    "void|"; "short|"; "auto|"; "const|"; "bool|" ].

Definition CLIKE_EXTENSIONS : list str := map lit [".clike"].
Definition CLIKE_KEYWORDS : list str := map lit [
    "if"; "else"; "while"; "for"; "return"; "print";
    "int|"; "float|"; "void|"; "char|"; "string|" ].

Definition JS_EXTENSIONS : list str := map lit [".js"].
Definition JS_KEYWORDS : list str := map lit [
    "function"; "var"; "let"; "const"; "if"; "else"; "switch"; "case"; "default";
    "for"; "while"; "do"; "break"; "continue"; "return"; "try"; "catch"; "throw";
    "new"; "this"; "typeof"; "instanceof"; "true"; "false"; "null"; "undefined";
    "Number|"; "String|"; "Boolean|"; "Object|"; "Array|"; "Function|" ].

Definition PY_EXTENSIONS : list str := map lit [".py"].
Definition PY_KEYWORDS : list str := map lit [
    "and"; "as"; "assert"; "break"; "class"; "continue"; "def"; "del"; "elif";
    "else"; "except"; "finally"; "for"; "from"; "global"; "if"; "import";
    "in"; "is"; "lambda"; "nonlocal"; "not"; "or"; "pass"; "raise"; "return";
    "try"; "while"; "with"; "yield";
    "True|"; "False|"; "None|" ].

Definition both_flags : Z := Z.lor HL_HIGHLIGHT_STRINGS HL_HIGHLIGHT_NUMBERS.

Definition C_SYNTAX : EditorSyntax :=
  mkEditorSyntax C_EXTENSIONS C_KEYWORDS (lit "//") (lit "/*") (lit "*/") both_flags.
Definition CLIKE_SYNTAX : EditorSyntax :=
  mkEditorSyntax CLIKE_EXTENSIONS CLIKE_KEYWORDS (lit "//") (lit "/*") (lit "*/") both_flags.
Definition JS_SYNTAX : EditorSyntax :=
  mkEditorSyntax JS_EXTENSIONS JS_KEYWORDS (lit "//") (lit "/*") (lit "*/") both_flags.
Definition PY_SYNTAX : EditorSyntax :=
  mkEditorSyntax PY_EXTENSIONS PY_KEYWORDS (lit "#") [] [] both_flags.

Definition SYNTAX_DB : list EditorSyntax :=
  [C_SYNTAX; CLIKE_SYNTAX; JS_SYNTAX; PY_SYNTAX].

(** [is_separator(ch)] *)
Definition is_separator (ch : ascii) : bool :=
  Ascii.eqb ch zero || isspace ch || char_in ch (lit ",.()+-/*=~%[];").

Local Close Scope string_scope.

(** The syntax [select_syntax_highlight(file_name)] returns: the first
    entry of [SYNTAX_DB] one of whose extensions ends the name. *)
Definition find_syntax (file_name : str) : option EditorSyntax :=
  find (fun syntax => existsb (fun ext => endswith file_name ext)
                              (file_extensions syntax)) SYNTAX_DB.

(* ================================================================== *)
(** * The highlighter: [get_syntax_highlighting] *)
(* ================================================================== *)

(** The variables of the scanning loop. *)
Record scan : Type := mkScan {
  sc_i : nat;
  sc_prev_sep : bool;
  sc_in_string : option ascii;   (* [''] is [None] *)
  sc_in_comment : bool;
  sc_highlight : list hl
}.

(** [for j in range(n): if i + j < len(h): h[i + j] = v].  The keyword
    branch writes without the guard; its match condition keeps [i + j]
    inside the line. *)
Fixpoint fill (h : list hl) (i n : nat) (v : hl) : list hl :=
  match n with
  | O => h
  | S n' => fill (set_nth h i v) (S i) n' v
  end.

Definition nonempty {A : Type} (l : list A) : bool :=
  match l with [] => false | _ => true end.

(** One keyword [kw] tried at position [i]: the length to consume and the
    class, when it matches. *)
Definition match_keyword (line : str) (i : nat) (kw : str) : option (nat * hl) :=
  let kw2 := endswith kw [vertical_bar] in
  let klen := if kw2 then (length kw - 1)%nat else length kw in
  if str_eqb (firstn klen (skipn i line)) (firstn klen kw)
     && ((length line <=? i + klen)%nat
         || is_separator (nth (i + klen) line zero))
  then Some (klen, if kw2 then HL_KEYWORD2 else HL_KEYWORD1)
  else None.

Fixpoint find_keyword (line : str) (i : nat) (kws : list str) : option (nat * hl) :=
  match kws with
  | [] => None
  | kw :: rest =>
      match match_keyword line i kw with
      | Some r => Some r
      | None => find_keyword line i rest
      end
  end.

Definition prev_is_number (h : list hl) (i : nat) : bool :=
  (0 <? i)%nat && hl_eqb (nth (i - 1) h HL_NORMAL) HL_NUMBER.

(** One iteration of the [while i < len(line)] loop: the next loop state,
    or the value of an early [return]. *)
Definition scan_step (line : str) (syntax : EditorSyntax) (s : scan)
  : scan + (list hl * bool) :=
  let i := sc_i s in
  let h := sc_highlight s in
  let ch := nth i line zero in
  let scs := singleline_comment_start syntax in
  let mcs := multiline_comment_start syntax in
  let mce := multiline_comment_end syntax in
  if nonempty scs && negb (match sc_in_string s with Some _ => true | None => false end)
     && negb (sc_in_comment s) && startswith line scs i
  then inr (fill h i (length line - i) HL_COMMENT, false)
  else if sc_in_comment s then
    let h1 := set_nth h i HL_MLCOMMENT in
    if nonempty mce && startswith line mce i && (0 <? length mce)%nat
    then inl (mkScan (i + length mce) true (sc_in_string s) false
                     (fill h1 i (length mce) HL_MLCOMMENT))
    else inl (mkScan (i + 1) false (sc_in_string s) true h1)
  else if nonempty mcs && startswith line mcs i && (0 <? length mcs)%nat
  then inl (mkScan (i + length mcs) false (sc_in_string s) true
                   (fill h i (length mcs) HL_MLCOMMENT))
  else
    match sc_in_string s with
    | Some q =>
        let h1 := set_nth h i HL_STRING in
        if Ascii.eqb ch backslash && (i + 1 <? length line)%nat
        then inl (mkScan (i + 2) false (Some q) false (set_nth h1 (i + 1) HL_STRING))
        else inl (mkScan (i + 1) (sc_prev_sep s)
                         (if Ascii.eqb ch q then None else Some q) false h1)
    | None =>
        if Ascii.eqb ch double_quote || Ascii.eqb ch single_quote
        then inl (mkScan (i + 1) false (Some ch) false (set_nth h i HL_STRING))
        else if (isdigit ch && (sc_prev_sep s || prev_is_number h i))
                || (Ascii.eqb ch full_stop && prev_is_number h i)
        then inl (mkScan (i + 1) false None false (set_nth h i HL_NUMBER))
        else
          match (if sc_prev_sep s then find_keyword line i (keywords syntax)
                 else None) with
          | Some (klen, hl_type) =>
              inl (mkScan (i + klen) false None false (fill h i klen hl_type))
          | None =>
              inl (mkScan (i + 1) (is_separator ch) None false h)
          end
    end.

Fixpoint scan_loop (fuel : nat) (line : str) (syntax : EditorSyntax) (s : scan)
  : option (list hl * bool) :=
  if (sc_i s <? length line)%nat then
    match fuel with
    | O => None
    | S fuel' =>
        match scan_step line syntax s with
        | inl s' => scan_loop fuel' line syntax s'
        | inr r => Some r
        end
    end
  else Some (sc_highlight s, sc_in_comment s).

(** The loop advances [i] in every iteration but one kind: a keyword of
    length 0 is consumed without moving, and clears [prev_sep], so that the
    next iteration moves.  Twice the length of the line (and two) is
    therefore enough fuel; [get_syntax_highlighting_total] proves it. *)
Definition scan_fuel (line : str) : nat := (2 * length line + 2)%nat.

Definition get_syntax_highlighting (line : str) (syntax : option EditorSyntax)
           (prev_open_comment : bool) : result (list hl * bool) :=
  let highlight := repeat HL_NORMAL (length line) in
  match syntax with
  | None => Ok (highlight, false)
  | Some syn =>
      match scan_loop (scan_fuel line) line syn
                      (mkScan 0 true None prev_open_comment highlight) with
      | Some r => Ok r
      | None => Raise Diverges
      end
  end.

(* ================================================================== *)
(** * Rows and the editor state *)
(* ================================================================== *)

Record EditorRow : Type := mkEditorRow {
  index : Z;
  content : str;
  content_size : Z;
  rendered_content : str;
  rendered_size : Z;
  highlight : list hl;
  open_comment : bool
}.

Definition set_index (v : Z) (r : EditorRow) : EditorRow :=
  mkEditorRow v (content r) (content_size r) (rendered_content r)
              (rendered_size r) (highlight r) (open_comment r).
Definition set_content (v : str) (r : EditorRow) : EditorRow :=
  mkEditorRow (index r) v (content_size r) (rendered_content r)
              (rendered_size r) (highlight r) (open_comment r).
Definition set_content_size (v : Z) (r : EditorRow) : EditorRow :=
  mkEditorRow (index r) (content r) v (rendered_content r)
              (rendered_size r) (highlight r) (open_comment r).
Definition set_rendered (v : str) (r : EditorRow) : EditorRow :=
  mkEditorRow (index r) (content r) (content_size r) v
              (len v) (highlight r) (open_comment r).
Definition set_highlight (v : list hl) (r : EditorRow) : EditorRow :=
  mkEditorRow (index r) (content r) (content_size r) (rendered_content r)
              (rendered_size r) v (open_comment r).
Definition set_open_comment (v : bool) (r : EditorRow) : EditorRow :=
  mkEditorRow (index r) (content r) (content_size r) (rendered_content r)
              (rendered_size r) (highlight r) v.

(** An undo or redo entry:
    [(rows_copy, cursor_x, cursor_y, col_offset, row_offset)]. *)
Definition snapshot : Type := (list str * Z * Z * Z * Z)%type.

(** The editor state [E].  [mark_x] and [mark_y] are assigned together
    everywhere ([set_mark] sets both, every edit clears both): [mark] is
    the pair [(mark_x, mark_y)], or [None]. *)
Record EditorState : Type := mkEditorState {
  cursor_x : Z;
  cursor_y : Z;
  row_offset : Z;
  col_offset : Z;
  screen_rows : Z;
  screen_cols : Z;
  total_rows : Z;
  rows : list EditorRow;
  modified : bool;
  file_name : option str;
  status_message : str;
  current_syntax : option EditorSyntax;
  undo_stack : list snapshot;
  redo_stack : list snapshot;
  mark : option (Z * Z);
  clipboard : str
}.

Definition set_cursor_x (v : Z) (E : EditorState) : EditorState :=
  mkEditorState v (cursor_y E) (row_offset E) (col_offset E) (screen_rows E)
    (screen_cols E) (total_rows E) (rows E) (modified E) (file_name E)
    (status_message E) (current_syntax E) (undo_stack E) (redo_stack E)
    (mark E) (clipboard E).
Definition set_cursor_y (v : Z) (E : EditorState) : EditorState :=
  mkEditorState (cursor_x E) v (row_offset E) (col_offset E) (screen_rows E)
    (screen_cols E) (total_rows E) (rows E) (modified E) (file_name E)
    (status_message E) (current_syntax E) (undo_stack E) (redo_stack E)
    (mark E) (clipboard E).
Definition set_row_offset (v : Z) (E : EditorState) : EditorState :=
  mkEditorState (cursor_x E) (cursor_y E) v (col_offset E) (screen_rows E)
    (screen_cols E) (total_rows E) (rows E) (modified E) (file_name E)
    (status_message E) (current_syntax E) (undo_stack E) (redo_stack E)
    (mark E) (clipboard E).
Definition set_col_offset (v : Z) (E : EditorState) : EditorState :=
  mkEditorState (cursor_x E) (cursor_y E) (row_offset E) v (screen_rows E)
    (screen_cols E) (total_rows E) (rows E) (modified E) (file_name E)
    (status_message E) (current_syntax E) (undo_stack E) (redo_stack E)
    (mark E) (clipboard E).
Definition set_total_rows (v : Z) (E : EditorState) : EditorState :=
  mkEditorState (cursor_x E) (cursor_y E) (row_offset E) (col_offset E)
    (screen_rows E) (screen_cols E) v (rows E) (modified E) (file_name E)
    (status_message E) (current_syntax E) (undo_stack E) (redo_stack E)
    (mark E) (clipboard E).
Definition set_rows (v : list EditorRow) (E : EditorState) : EditorState :=
  mkEditorState (cursor_x E) (cursor_y E) (row_offset E) (col_offset E)
    (screen_rows E) (screen_cols E) (total_rows E) v (modified E) (file_name E)
    (status_message E) (current_syntax E) (undo_stack E) (redo_stack E)
    (mark E) (clipboard E).
Definition set_modified (v : bool) (E : EditorState) : EditorState :=
  mkEditorState (cursor_x E) (cursor_y E) (row_offset E) (col_offset E)
    (screen_rows E) (screen_cols E) (total_rows E) (rows E) v (file_name E)
    (status_message E) (current_syntax E) (undo_stack E) (redo_stack E)
    (mark E) (clipboard E).
Definition set_file_name (v : option str) (E : EditorState) : EditorState :=
  mkEditorState (cursor_x E) (cursor_y E) (row_offset E) (col_offset E)
    (screen_rows E) (screen_cols E) (total_rows E) (rows E) (modified E) v
    (status_message E) (current_syntax E) (undo_stack E) (redo_stack E)
    (mark E) (clipboard E).
Definition set_status (v : str) (E : EditorState) : EditorState :=
  mkEditorState (cursor_x E) (cursor_y E) (row_offset E) (col_offset E)
    (screen_rows E) (screen_cols E) (total_rows E) (rows E) (modified E)
    (file_name E) v (current_syntax E) (undo_stack E) (redo_stack E)
    (mark E) (clipboard E).
Definition set_current_syntax (v : option EditorSyntax) (E : EditorState)
  : EditorState :=
  mkEditorState (cursor_x E) (cursor_y E) (row_offset E) (col_offset E)
    (screen_rows E) (screen_cols E) (total_rows E) (rows E) (modified E)
    (file_name E) (status_message E) v (undo_stack E) (redo_stack E)
    (mark E) (clipboard E).
Definition set_undo_stack (v : list snapshot) (E : EditorState) : EditorState :=
  mkEditorState (cursor_x E) (cursor_y E) (row_offset E) (col_offset E)
    (screen_rows E) (screen_cols E) (total_rows E) (rows E) (modified E)
    (file_name E) (status_message E) (current_syntax E) v (redo_stack E)
    (mark E) (clipboard E).
Definition set_redo_stack (v : list snapshot) (E : EditorState) : EditorState :=
  mkEditorState (cursor_x E) (cursor_y E) (row_offset E) (col_offset E)
    (screen_rows E) (screen_cols E) (total_rows E) (rows E) (modified E)
    (file_name E) (status_message E) (current_syntax E) (undo_stack E) v
    (mark E) (clipboard E).
Definition set_mark_field (v : option (Z * Z)) (E : EditorState) : EditorState :=
  mkEditorState (cursor_x E) (cursor_y E) (row_offset E) (col_offset E)
    (screen_rows E) (screen_cols E) (total_rows E) (rows E) (modified E)
    (file_name E) (status_message E) (current_syntax E) (undo_stack E)
    (redo_stack E) v (clipboard E).
Definition set_clipboard (v : str) (E : EditorState) : EditorState :=
  mkEditorState (cursor_x E) (cursor_y E) (row_offset E) (col_offset E)
    (screen_rows E) (screen_cols E) (total_rows E) (rows E) (modified E)
    (file_name E) (status_message E) (current_syntax E) (undo_stack E)
    (redo_stack E) (mark E) v.

(** [EditorState.__init__]; [size] is what [os.get_terminal_size] gives
    ([None] when standard output is not a terminal). *)
Definition update_screen_size (size : option (Z * Z)) : Z * Z :=
  match size with
  | Some (columns, lines) => (columns, lines - 2)
  | None => (80, 24)
  end.

Definition initial_state (size : option (Z * Z)) : EditorState :=
  let '(cols, lines) := update_screen_size size in
  mkEditorState 0 0 0 0 lines cols 0 [] false None [] None [] [] None [].

(* ================================================================== *)
(** * The monad of commands *)
(* ================================================================== *)

Definition M (A : Type) : Type := EditorState -> result A * EditorState.

Definition ret {A : Type} (a : A) : M A := fun E => (Ok a, E).

Definition bind {A B : Type} (m : M A) (k : A -> M B) : M B :=
  fun E =>
    match m E with
    | (Ok a, E1) => k a E1
    | (Raise e, E1) => (Raise e, E1)
    end.

Definition raise {A : Type} (e : exn) : M A := fun E => (Raise e, E).

Definition lift {A : Type} (r : result A) : M A := fun E => (r, E).

Definition get : M EditorState := fun E => (Ok E, E).

Definition modify (f : EditorState -> EditorState) : M unit :=
  fun E => (Ok tt, f E).

(** [try: m except Exception as e: handler(e)] *)
Definition try_except {A : Type} (m : M A) (handler : exn -> M A) : M A :=
  fun E =>
    match m E with
    | (Ok a, E1) => (Ok a, E1)
    | (Raise e, E1) => handler e E1
    end.

Notation "x <- m ;; k" := (bind m (fun x => k))
  (at level 100, m at next level, right associativity).
Notation "m ;; k" := (bind m (fun _ => k))
  (at level 100, right associativity).

Definition when (b : bool) (m : M unit) : M unit :=
  if b then m else ret tt.

(** [for x in l: body(x)] *)
Fixpoint for_each {A : Type} (l : list A) (body : A -> M unit) : M unit :=
  match l with
  | [] => ret tt
  | x :: rest => body x ;; for_each rest body
  end.

(** The row object at position [p] of [E.rows]. *)
Definition row_at (p : nat) : M EditorRow :=
  E <- get ;;
  match nth_error (rows E) p with
  | Some r => ret r
  | None => raise IndexError
  end.

(** An assignment to fields of the row object at position [p]. *)
Definition update_row (p : nat) (f : EditorRow -> EditorRow) : M unit :=
  modify (fun E =>
    match nth_error (rows E) p with
    | Some r => set_rows (set_nth (rows E) p (f r)) E
    | None => E
    end).

(** [row = E.rows[i]]: the position of the object. *)
Definition row_ref (i : Z) : M nat :=
  E <- get ;; lift (locate (rows E) i).

Definition set_status_message (message : str) : M unit :=
  modify (set_status message).

(* ================================================================== *)
(** * [EditorRow] methods *)
(* ================================================================== *)

(** [EditorRow.has_open_comment] *)
Definition has_open_comment (self : EditorRow) : result bool :=
  if nonempty (highlight self) && negb (rendered_size self =? 0) then
    last_hl <-? getitem (highlight self) (-1) ;;
    if hl_eqb last_hl HL_MLCOMMENT then
      if rendered_size self <? 2 then Ok true
      else
        c2 <-? getitem (rendered_content self) (-2) ;;
        if negb (Ascii.eqb c2 "*"%char) then Ok true
        else
          c1 <-? getitem (rendered_content self) (-1) ;;
          Ok (negb (Ascii.eqb c1 "/"%char))
    else Ok false
  else Ok false.

(** The two reads of [update_syntax]: the carried-in comment state, taken
    from the predecessor [E.rows[self.index - 1]], and the highlighter. *)
Definition highlight_for (self : EditorRow) (syntax : EditorSyntax)
  : M (list hl * bool) :=
  E <- get ;;
  prev_open_comment <- lift (if index self >? 0
                             then r <-? getitem (rows E) (index self - 1) ;;
                                  has_open_comment r
                             else Ok false) ;;
  lift (get_syntax_highlighting (rendered_content self) (Some syntax)
                                prev_open_comment).

Definition normal_highlight (self : EditorRow) : list hl :=
  repeat HL_NORMAL (Z.to_nat (rendered_size self)).

(** [EditorRow.update_syntax] of the row object at position [p].  The
    method calls itself on the next row; [fuel] bounds the depth of these
    calls ([RecursionError] beyond).  While every row's [index] is its
    position the calls go down the document, one per row at most; the
    recursion limit of the interpreter itself is not modelled. *)
Fixpoint update_syntax (fuel : nat) (p : nat) : M unit :=
  match fuel with
  | O => raise RecursionError
  | S fuel' =>
      self <- row_at p ;;
      update_row p (set_highlight (normal_highlight self)) ;;
      E <- get ;;
      match current_syntax E with
      | None => ret tt
      | Some syntax =>
          r <- highlight_for self syntax ;;
          let '(h, new_open_comment) := r in
          update_row p (set_highlight h) ;;
          E <- get ;;
          (if negb (Bool.eqb (open_comment self) new_open_comment)
              && (index self + 1 <? total_rows E)
           then q <- row_ref (index self + 1) ;; update_syntax fuel' q
           else ret tt) ;;
          update_row p (set_open_comment new_open_comment)
      end
  end.

(** As many nested calls as there are rows, and one. *)
Definition syntax_fuel (E : EditorState) : nat := S (length (rows E)).

Definition row_update_syntax (p : nat) : M unit :=
  E <- get ;; update_syntax (syntax_fuel E) p.

Definition render (c : str) : str :=
  replace_char tab (lit "        ") c.

(** [EditorRow.update_rendered] of the row object at position [p] *)
Definition row_update_rendered (p : nat) : M unit :=
  update_row p (fun self => set_rendered (render (content self)) self) ;;
  row_update_syntax p.

(** [EditorRow.__init__]: the new object is not in [E.rows] yet;
    [update_rendered] and [update_syntax] run on it as on any row. *)
Definition new_EditorRow (idx : Z) (c : str) : M EditorRow :=
  let self := mkEditorRow idx c (len c) [] 0 [] false in
  let self := set_rendered (render (content self)) self in
  let self := set_highlight (normal_highlight self) self in
  E <- get ;;
  match current_syntax E with
  | None => ret self
  | Some syntax =>
      r <- highlight_for self syntax ;;
      let '(h, new_open_comment) := r in
      let self := set_highlight h self in
      (if negb (Bool.eqb (open_comment self) new_open_comment)
          && (index self + 1 <? total_rows E)
       then q <- row_ref (index self + 1) ;; row_update_syntax q
       else ret tt) ;;
      ret (set_open_comment new_open_comment self)
  end.

(** [EditorRow.insert_char] *)
Definition row_insert_char (p : nat) (position : Z) (ch : str) : M unit :=
  self <- row_at p ;;
  let position := if position >? content_size self
                  then content_size self else position in
  update_row p (fun self =>
    set_content_size (content_size self + 1)
      (set_content (slice_to (content self) position ++ ch
                    ++ slice_from (content self) position) self)) ;;
  row_update_rendered p.

(** [EditorRow.append_string] *)
Definition row_append_string (p : nat) (string : str) : M unit :=
  update_row p (fun self =>
    set_content_size (content_size self + len string)
      (set_content (content self ++ string) self)) ;;
  row_update_rendered p.

(** [EditorRow.delete_char] *)
Definition row_delete_char (p : nat) (position : Z) : M unit :=
  self <- row_at p ;;
  if position >=? content_size self then ret tt
  else
    update_row p (fun self =>
      set_content_size (content_size self - 1)
        (set_content (slice_to (content self) position
                      ++ slice_from (content self) (position + 1)) self)) ;;
    row_update_rendered p.

(* ================================================================== *)
(** * Column mapping *)
(* ================================================================== *)

(** The loop of [get_content_col]; [cs] is [row.content[content_col:]], so
    that [row.content[content_col]] is its head. *)
Fixpoint get_content_col_loop (cs : str) (size rendered_col : Z)
         (content_col rendered : Z) : result Z :=
  if (content_col <? size) && (rendered <? rendered_col) then
    match cs with
    | [] => Raise IndexError
    | ch :: cs' =>
        if Ascii.eqb ch tab then
          let tab_len := 8 - (rendered mod 8) in
          if rendered + tab_len >? rendered_col then Ok content_col
          else get_content_col_loop cs' size rendered_col
                                    (content_col + 1) (rendered + tab_len)
        else get_content_col_loop cs' size rendered_col
                                  (content_col + 1) (rendered + 1)
    end
  else Ok content_col.

Definition get_content_col (row : EditorRow) (rendered_col : Z) : result Z :=
  get_content_col_loop (content row) (content_size row) rendered_col 0 0.

(** The rendered column after the characters [cs], starting at [rendered]. *)
Definition advance (rendered : Z) (cs : str) : Z :=
  fold_left (fun rendered ch =>
               if Ascii.eqb ch tab then rendered + (8 - (rendered mod 8))
               else rendered + 1) cs rendered.

Definition get_rendered_col (row : EditorRow) (content_col : Z) : Z :=
  advance 0 (firstn (Z.to_nat (Z.min content_col (len (content row))))
                    (content row)).

(* ================================================================== *)
(** * The document buffer *)
(* ================================================================== *)

(** [insert_editor_row(position, content)].  The value returned is the
    position at which [E.rows.insert] put the new row: a caller that holds
    a row object of a position at or after it finds that object one
    position further. *)
Definition insert_editor_row (position : Z) (c : str) : M nat :=
  E <- get ;;
  let position := if position >? total_rows E then total_rows E else position in
  new_row <- new_EditorRow position c ;;
  E1 <- get ;;
  modify (fun E => set_rows (list_insert (rows E) position new_row) E) ;;
  for_each (range (position + 1) (total_rows E + 1)) (fun i =>
    q <- row_ref i ;; update_row q (fun r => set_index (index r + 1) r)) ;;
  modify (fun E => set_modified true (set_total_rows (total_rows E + 1) E)) ;;
  ret (bound (len (rows E1)) position).

Definition delete_editor_row (position : Z) : M unit :=
  E <- get ;;
  if position >=? total_rows E then ret tt
  else
    rows' <- lift (delitem (rows E) position) ;;
    modify (set_rows rows') ;;
    for_each (range position (total_rows E - 1)) (fun i =>
      q <- row_ref i ;; update_row q (fun r => set_index (index r - 1) r)) ;;
    modify (fun E => set_modified true (set_total_rows (total_rows E - 1) E)).

Definition row_contents (E : EditorState) : list str :=
  map content (rows E).

Definition rows_to_string (E : EditorState) : str :=
  join newline (row_contents E) ++ [newline].

(* ================================================================== *)
(** * Undo and redo *)
(* ================================================================== *)

(** [(rows_copy, E.cursor_x, E.cursor_y, E.col_offset, E.row_offset)] *)
Definition current_state (E : EditorState) : snapshot :=
  (row_contents E, cursor_x E, cursor_y E, col_offset E, row_offset E).

(** The state after [save_undo_state()]. *)
Definition push_undo (E : EditorState) : EditorState :=
  let E := set_undo_stack (undo_stack E ++ [current_state E]) E in
  let E := set_redo_stack [] E in
  if len (undo_stack E) >? 50 then set_undo_stack (tl (undo_stack E)) E
  else E.

Definition save_undo_state : M unit := modify push_undo.

(** [stack.pop()]: the last entry and the stack without it. *)
Definition pop {A : Type} (stack : list A) : option (A * list A) :=
  match rev stack with
  | [] => None
  | top :: below => Some (top, rev below)
  end.

(** The common part of [undo] and [redo]: replace the document and the
    cursor by those of the entry. *)
Definition restore (entry : snapshot) : M unit :=
  let '(rows_copy, cx, cy, co, ro) := entry in
  modify (fun E => set_total_rows 0 (set_rows [] E)) ;;
  for_each rows_copy (fun c =>
    E <- get ;; insert_editor_row (total_rows E) c ;; ret tt) ;;
  modify (fun E =>
    set_modified true
      (set_row_offset ro (set_col_offset co (set_cursor_y cy (set_cursor_x cx E))))).

Definition undo : M unit :=
  E <- get ;;
  match pop (undo_stack E) with
  | None => set_status_message (lit "Nothing to undo")
  | Some (entry, below) =>
      modify (fun E => set_redo_stack (redo_stack E ++ [current_state E]) E) ;;
      modify (set_undo_stack below) ;;
      restore entry ;;
      set_status_message (lit "Undo performed")
  end.

Definition redo : M unit :=
  E <- get ;;
  match pop (redo_stack E) with
  | None => set_status_message (lit "Nothing to redo")
  | Some (entry, below) =>
      modify (fun E => set_undo_stack (undo_stack E ++ [current_state E]) E) ;;
      modify (set_redo_stack below) ;;
      restore entry ;;
      set_status_message (lit "Redo performed")
  end.

(* ================================================================== *)
(** * Edit commands *)
(* ================================================================== *)

Definition clear_mark : M unit := modify (set_mark_field None).

(** [insert_char(ch)], [ch] being the character [chr(key)].  After the
    clamp [file_row <= E.total_rows], the loop
    [while E.total_rows <= file_row] runs once or not at all. *)
Definition insert_char (ch : ascii) : M unit :=
  save_undo_state ;;
  E <- get ;;
  let file_row := row_offset E + cursor_y E in
  let file_row := if file_row >? total_rows E then total_rows E else file_row in
  (if total_rows E <=? file_row
   then insert_editor_row (total_rows E) [] ;; ret tt
   else ret tt) ;;
  p <- row_ref file_row ;;
  row <- row_at p ;;
  E <- get ;;
  file_col <- lift (get_content_col row (col_offset E + cursor_x E)) ;;
  row_insert_char p file_col [ch] ;;
  modify (fun E => set_cursor_x (cursor_x E + 1) E) ;;
  modify (fun E =>
    if cursor_x E =? screen_cols E
    then set_col_offset (col_offset E + 1) (set_cursor_x (cursor_x E - 1) E)
    else E) ;;
  modify (set_modified true) ;;
  clear_mark.

Definition insert_newline : M unit :=
  save_undo_state ;;
  E <- get ;;
  let file_row := row_offset E + cursor_y E in
  (if total_rows E <=? file_row
   then insert_editor_row file_row [] ;; ret tt
   else
     p <- row_ref file_row ;;
     row <- row_at p ;;
     file_col <- lift (get_content_col row (col_offset E + cursor_x E)) ;;
     let file_col := if file_col >? content_size row
                     then content_size row else file_col in
     if file_col =? 0
     then insert_editor_row file_row [] ;; ret tt
     else
       a <- insert_editor_row (file_row + 1) (slice_from (content row) file_col) ;;
       let p := if (a <=? p)%nat then S p else p in
       update_row p (fun row => set_content (slice_to (content row) file_col) row) ;;
       row_update_rendered p) ;;
  modify (fun E => set_col_offset 0 (set_cursor_x 0 E)) ;;
  modify (fun E =>
    if cursor_y E =? screen_rows E - 1
    then set_row_offset (row_offset E + 1) E
    else set_cursor_y (cursor_y E + 1) E) ;;
  clear_mark.

(** [delete_char()]; the two early [return]s leave after the snapshot. *)
Definition delete_char : M unit :=
  save_undo_state ;;
  E <- get ;;
  let file_row := row_offset E + cursor_y E in
  if file_row >=? total_rows E then ret tt
  else
    p <- row_ref file_row ;;
    row <- row_at p ;;
    let rendered_pos := col_offset E + cursor_x E in
    if rendered_pos =? 0 then
      if file_row =? 0 then ret tt
      else
        q <- row_ref (file_row - 1) ;;
        prev_row <- row_at q ;;
        let prev_row_len_before := content_size prev_row in
        row_append_string q (content row) ;;
        delete_editor_row file_row ;;
        modify (fun E =>
          if cursor_y E =? 0
          then (if row_offset E >? 0 then set_row_offset (row_offset E - 1) E else E)
          else set_cursor_y (cursor_y E - 1) E) ;;
        prev_row <- row_at q ;;
        modify (set_cursor_x (get_rendered_col prev_row prev_row_len_before)) ;;
        modify (fun E =>
          if cursor_x E >=? screen_cols E
          then set_cursor_x (screen_cols E - 1)
                 (set_col_offset (cursor_x E - screen_cols E + 1) E)
          else
            let E := set_col_offset 0 E in
            if cursor_x E <? 0 then set_cursor_x 0 E else E) ;;
        modify (set_modified true) ;;
        clear_mark
    else
      position <- lift (get_content_col row (rendered_pos - 1)) ;;
      row_delete_char p position ;;
      modify (fun E =>
        if cursor_x E >? 0 then set_cursor_x (cursor_x E - 1) E
        else if col_offset E >? 0 then set_col_offset (col_offset E - 1) E
        else E) ;;
      modify (set_modified true) ;;
      clear_mark.

(* ================================================================== *)
(** * Cursor movement *)
(* ================================================================== *)

Inductive arrow : Type := ARROW_LEFT | ARROW_RIGHT | ARROW_UP | ARROW_DOWN.

(** [E.rows[file_row] if file_row < E.total_rows else None] *)
Definition row_or_none (file_row : Z) : M (option EditorRow) :=
  E <- get ;;
  if file_row <? total_rows E
  then r <- lift (getitem (rows E) file_row) ;; ret (Some r)
  else ret None.

Definition move_cursor (key : arrow) : M unit :=
  E <- get ;;
  let file_row := row_offset E + cursor_y E in
  row <- row_or_none file_row ;;
  match key with
  | ARROW_LEFT =>
      if cursor_x E =? 0 then
        if negb (col_offset E =? 0)
        then modify (set_col_offset (col_offset E - 1))
        else if file_row >? 0 then
          modify (set_cursor_y (cursor_y E - 1)) ;;
          row <- lift (getitem (rows E) (file_row - 1)) ;;
          modify (set_cursor_x (rendered_size row)) ;;
          modify (fun E =>
            if cursor_x E >? screen_cols E - 1
            then set_cursor_x (screen_cols E - 1)
                   (set_col_offset (cursor_x E - screen_cols E + 1) E)
            else E)
        else ret tt
      else modify (set_cursor_x (cursor_x E - 1))
  | ARROW_RIGHT =>
      match row with
      | Some row =>
          let file_col := col_offset E + cursor_x E in
          if file_col <? rendered_size row then
            if cursor_x E =? screen_cols E - 1
            then modify (set_col_offset (col_offset E + 1))
            else modify (set_cursor_x (cursor_x E + 1))
          else if (file_col =? rendered_size row)
                  && (file_row <? total_rows E - 1)
          then modify (fun E =>
                 set_cursor_y (cursor_y E + 1) (set_col_offset 0 (set_cursor_x 0 E)))
          else ret tt
      | None => ret tt
      end
  | ARROW_UP =>
      if cursor_y E =? 0 then
        if negb (row_offset E =? 0)
        then modify (set_row_offset (row_offset E - 1))
        else ret tt
      else modify (set_cursor_y (cursor_y E - 1))
  | ARROW_DOWN =>
      if file_row <? total_rows E - 1 then
        if cursor_y E =? screen_rows E - 1
        then modify (set_row_offset (row_offset E + 1))
        else modify (set_cursor_y (cursor_y E + 1))
      else ret tt
  end ;;
  (* Snap cursor to end of line if it's past it *)
  E <- get ;;
  let file_row := row_offset E + cursor_y E in
  row <- row_or_none file_row ;;
  let row_len := match row with Some row => rendered_size row | None => 0 end in
  let file_col := col_offset E + cursor_x E in
  if file_col >? row_len then
    modify (set_cursor_x (row_len - col_offset E)) ;;
    modify (fun E =>
      if cursor_x E <? 0 then set_cursor_x 0 (set_col_offset row_len E) else E)
  else ret tt.

(* ================================================================== *)
(** * Mark, copy, cut and paste *)
(* ================================================================== *)

Definition set_mark : M unit :=
  modify (fun E =>
    set_mark_field (Some (col_offset E + cursor_x E, row_offset E + cursor_y E)) E) ;;
  set_status_message (lit "Mark set").

(** The selection bounds [(start_y, end_y, start_x, end_x)]:
    [start_y, end_y = sorted([E.mark_y, E.row_offset + E.cursor_y])] and the
    columns in the same order. *)
Definition selection_bounds (E : EditorState) (mark_x mark_y : Z)
  : Z * Z * Z * Z :=
  let cur_y := row_offset E + cursor_y E in
  let cur_x := col_offset E + cursor_x E in
  let start_y := Z.min mark_y cur_y in
  let end_y := Z.max mark_y cur_y in
  if start_y =? mark_y then (start_y, end_y, mark_x, cur_x)
  else (start_y, end_y, cur_x, mark_x).

(** The loop of [copy_selection] over [range(start_y, end_y + 1)]. *)
Fixpoint copy_lines (E : EditorState) (start_y end_y start_x end_x : Z)
         (ys : list Z) : result (list str) :=
  match ys with
  | [] => Ok []
  | y :: ys' =>
      if y >=? total_rows E then copy_lines E start_y end_y start_x end_x ys'
      else
        row <-? getitem (rows E) y ;;
        let line_start := if y =? start_y then start_x else 0 in
        let line_end := if y =? end_y then end_x else rendered_size row in
        content_start <-? get_content_col row line_start ;;
        content_end <-? get_content_col row line_end ;;
        rest <-? copy_lines E start_y end_y start_x end_x ys' ;;
        Ok (slice (content row) content_start content_end :: rest)
  end.

Definition copy_selection : M unit :=
  E <- get ;;
  match mark E with
  | None => set_status_message (lit "No selection")
  | Some (mark_x, mark_y) =>
      let '(start_y, end_y, start_x, end_x) := selection_bounds E mark_x mark_y in
      clipboard_lines <- lift (copy_lines E start_y end_y start_x end_x
                                          (range start_y (end_y + 1))) ;;
      modify (set_clipboard (join newline clipboard_lines)) ;;
      set_status_message (lit "Copied to clipboard")
  end.

(** The cursor placement shared by [cut_selection] and [paste_clipboard]:
    scroll so that the document position is on screen and put the cursor
    there. *)
Definition place_cursor (new_cursor_y_file new_cursor_x_render : Z) : M unit :=
  modify (fun E =>
    if new_cursor_y_file <? row_offset E
    then set_row_offset new_cursor_y_file E else E) ;;
  modify (fun E =>
    if new_cursor_y_file >=? row_offset E + screen_rows E
    then set_row_offset (new_cursor_y_file - screen_rows E + 1) E else E) ;;
  modify (fun E => set_cursor_y (new_cursor_y_file - row_offset E) E) ;;
  modify (fun E =>
    if new_cursor_x_render <? col_offset E
    then set_col_offset new_cursor_x_render E else E) ;;
  modify (fun E =>
    if new_cursor_x_render >=? col_offset E + screen_cols E
    then set_col_offset (new_cursor_x_render - screen_cols E + 1) E else E) ;;
  modify (fun E => set_cursor_x (new_cursor_x_render - col_offset E) E).

(** [cut_selection()].  It goes on whenever [E.clipboard] is not empty,
    also when [copy_selection] found no mark and left an older clipboard:
    [sorted([E.mark_y, ...])] then compares [None] with an [int]. *)
Definition cut_selection : M unit :=
  copy_selection ;;
  E <- get ;;
  if nonempty (clipboard E) then
    save_undo_state ;;
    E <- get ;;
    match mark E with
    | None => raise TypeError
    | Some (mark_x, mark_y) =>
        let '(start_y, end_y, start_x_render, end_x_render) :=
          selection_bounds E mark_x mark_y in
        let new_cursor_y_file := start_y in
        let new_cursor_x_render := start_x_render in
        pf <- row_ref start_y ;;
        first_row <- row_at pf ;;
        pl <- row_ref end_y ;;
        last_row <- row_at pl ;;
        start_x_content <- lift (get_content_col first_row start_x_render) ;;
        end_x_content <- lift (get_content_col last_row end_x_render) ;;
        update_row pf (set_content
          (slice_to (content first_row) start_x_content
           ++ slice_from (content last_row) end_x_content)) ;;
        row_update_rendered pf ;;
        for_each (range_down end_y start_y) (fun y =>
          E <- get ;;
          if y <? total_rows E then delete_editor_row y else ret tt) ;;
        place_cursor new_cursor_y_file new_cursor_x_render ;;
        clear_mark ;;
        modify (set_modified true) ;;
        set_status_message (lit "Cut to clipboard")
    end
  else ret tt.

(** The loop [for i, line in enumerate(lines[1:], 1)] of
    [paste_clipboard]; the value is the final [file_row]. *)
Fixpoint paste_lines (file_row : Z) (lines : list str) : M Z :=
  match lines with
  | [] => ret file_row
  | line :: rest =>
      let file_row := file_row + 1 in
      insert_editor_row file_row line ;;
      paste_lines file_row rest
  end.

Definition paste_clipboard : M unit :=
  E <- get ;;
  if negb (nonempty (clipboard E)) then
    set_status_message (lit "Clipboard empty")
  else
    save_undo_state ;;
    let lines := split newline (clipboard E) in
    let file_row := row_offset E + cursor_y E in
    (if file_row >=? total_rows E
     then insert_editor_row (total_rows E) [] ;; ret tt
     else ret tt) ;;
    p <- row_ref file_row ;;
    row <- row_at p ;;
    file_col <- lift (get_content_col row (col_offset E + cursor_x E)) ;;
    (* Insert first line *)
    let remaining_content := slice_from (content row) file_col in
    update_row p (set_content (slice_to (content row) file_col ++ hd [] lines)) ;;
    (* Calculate cursor pos for after paste *)
    let new_cursor_y_file := file_row + len lines - 1 in
    let new_cursor_x_content := len (last lines []) in
    let new_cursor_x_content :=
      if len lines =? 1 then new_cursor_x_content + file_col
      else new_cursor_x_content in
    (* Insert remaining lines *)
    file_row <- paste_lines file_row (tl lines) ;;
    (* Add the remaining content to the last pasted line *)
    q <- row_ref file_row ;;
    update_row q (fun r => set_content (content r ++ remaining_content) r) ;;
    row_update_rendered q ;;
    (* Update all rows syntax in between *)
    for_each (range (row_offset E + cursor_y E) (file_row + 1)) (fun i =>
      E <- get ;;
      if i <? total_rows E
      then q <- row_ref i ;; row_update_rendered q
      else ret tt) ;;
    (* Set new cursor position *)
    E1 <- get ;;
    new_row <- lift (getitem (rows E1) new_cursor_y_file) ;;
    let new_cursor_x_render := get_rendered_col new_row new_cursor_x_content in
    place_cursor new_cursor_y_file new_cursor_x_render ;;
    modify (set_modified true) ;;
    set_status_message (lit "Pasted from clipboard").

(* ================================================================== *)
(** * Open and save *)
(* ================================================================== *)

(** [select_syntax_highlight(file_name)] *)
Definition select_syntax_highlight (name : option str)
  : M (option EditorSyntax) :=
  let syntax := match name with
                | None => None
                | Some name => find_syntax name
                end in
  modify (set_current_syntax syntax) ;;
  ret syntax.

(** [_prompt_user_cli]: [answer] is what the user entered ([None] after
    ESC); both exits clear the status message. *)
Definition _prompt_user_cli (answer : option str) : M (option str) :=
  set_status_message [] ;; ret answer.

(** What reading the file does: all its lines, no such file, or another
    failure after some lines (none when the file cannot be opened). *)
Inductive read_outcome : Type :=
| ReadLines (lines : list str)
| ReadNotFound
| ReadFails (lines_before : list str) (msg : str).

(** [str(e)]; for [IndexError] the text is that of a list index. *)
Definition exn_message (e : exn) : str :=
  match e with
  | IndexError => lit "list index out of range"
  | TypeError => lit "'<' not supported between instances of 'int' and 'NoneType'"
  | RecursionError => lit "maximum recursion depth exceeded"
  | FileNotFoundError => lit "No such file or directory"
  | OtherError msg => msg
  | Diverges => []
  end.

Definition load_line (line : str) : M unit :=
  let line := rstrip [carriage_return; newline] line in
  E <- get ;;
  insert_editor_row (total_rows E) line ;; ret tt.

(** The body of the [try] of [open_file_terminal]. *)
Definition read_file (fs : read_outcome) : M unit :=
  match fs with
  | ReadLines lines => for_each lines load_line
  | ReadNotFound => raise FileNotFoundError
  | ReadFails lines_before msg =>
      for_each lines_before load_line ;; raise (OtherError msg)
  end.

(** [open_file_terminal] from the point where the name is known;
    [discard_answer] is the answer to the "Discard?" prompt, [fs] what
    reading the file does. *)
Definition open_named (name : str) (discard_answer : option str)
           (fs : read_outcome) : M unit :=
  E <- get ;;
  go_on <- (if modified E then
              discard <- _prompt_user_cli discard_answer ;;
              ret (match discard with
                   | None => false
                   | Some d => str_eqb (lower d) (lit "y")
                   end)
            else ret true) ;;
  if negb go_on then set_status_message (lit "Open canceled")
  else
    modify (set_file_name (Some name)) ;;
    select_syntax_highlight (Some name) ;;
    modify (fun E => set_total_rows 0 (set_rows [] E)) ;;
    modify (set_modified false) ;;
    modify (fun E =>
      set_cursor_x 0 (set_cursor_y 0 (set_row_offset 0 (set_col_offset 0 E)))) ;;
    proceed <- try_except (read_file fs ;; ret true) (fun e =>
      match e with
      | FileNotFoundError =>
          set_status_message
            (lit "File " ++ name ++ lit " not found. Created new file.") ;;
          ret true
      | _ =>
          set_status_message (lit "Error opening file: " ++ exn_message e) ;;
          ret false
      end) ;;
    if proceed : bool then
      modify (set_modified false) ;;
      set_status_message (lit "Opened " ++ name)
    else ret tt.

(** [open_file_terminal(file_name)]; [name_answer] is the answer to the
    "Open file" prompt, asked when [file_name] is [None]. *)
Definition open_file_terminal (name : option str)
           (name_answer discard_answer : option str) (fs : read_outcome)
  : M unit :=
  match name with
  | Some name => open_named name discard_answer fs
  | None =>
      answer <- _prompt_user_cli name_answer ;;
      match answer with
      | None | Some [] => set_status_message (lit "Open canceled")
      | Some name => open_named name discard_answer fs
      end
  end.

Inductive write_outcome : Type :=
| WriteDone
| WriteFails (msg : str).

(** [for row in E.rows: row.update_syntax()] *)
Definition rehighlight : M unit :=
  E <- get ;;
  for_each (seq 0 (length (rows E))) row_update_syntax.

(** [save_file_terminal(save_as)]; [name_answer] is the answer to the
    "Save as" prompt, [w] what writing the file does.  The value is the
    text written to the file, [None] when nothing was written. *)
Definition save_file_terminal (save_as : bool) (name_answer : option str)
           (w : write_outcome) : M (option str) :=
  E <- get ;;
  let no_name := match file_name E with None | Some [] => true | _ => false end in
  named <- (if save_as || no_name then
              new_name <- _prompt_user_cli name_answer ;;
              match new_name with
              | None | Some [] =>
                  set_status_message (lit "Save canceled") ;; ret false
              | Some n =>
                  modify (set_file_name (Some n)) ;;
                  select_syntax_highlight (Some n) ;;
                  ret true
              end
            else ret true) ;;
  if negb named then ret None
  else
    E <- get ;;
    match file_name E with
    | None | Some [] => set_status_message (lit "Save canceled") ;; ret None
    | Some name =>
        let text := rstrip [newline] (rows_to_string E) in
        try_except
          (match w with
           | WriteFails msg => raise (OtherError msg)
           | WriteDone =>
               modify (set_modified false) ;;
               set_status_message
                 (str_of_int (len text) ++ lit " bytes saved to " ++ name) ;;
               (* Re-highlight after save (in case file type changed) *)
               rehighlight ;;
               ret (Some text)
           end)
          (fun e =>
             set_status_message (lit "Error saving file: " ++ exn_message e) ;;
             ret (match w with WriteDone => Some text | WriteFails _ => None end))
    end.

(* ================================================================== *)
(** * The commands of the key loop *)
(* ================================================================== *)

(** The keys [terminal_process_keypress] dispatches, with what the
    terminal and the file system answer to the two that ask.  [Open] with a
    name is the call [open_file_terminal(args.filename)] at start. *)
Inductive command : Type :=
| InsertChar (ch : ascii)
| InsertNewline
| DeleteChar
| MoveCursor (key : arrow)
| SetMark
| Copy
| Cut
| Paste
| Undo
| Redo
| Open (name name_answer discard_answer : option str) (fs : read_outcome)
| Save (save_as : bool) (name_answer : option str) (w : write_outcome).

Definition run (c : command) : M unit :=
  match c with
  | InsertChar ch => insert_char ch
  | InsertNewline => insert_newline
  | DeleteChar => delete_char
  | MoveCursor key => move_cursor key
  | SetMark => set_mark
  | Copy => copy_selection
  | Cut => cut_selection
  | Paste => paste_clipboard
  | Undo => undo
  | Redo => redo
  | Open name name_answer discard_answer fs =>
      open_file_terminal name name_answer discard_answer fs
  | Save save_as name_answer w =>
      save_file_terminal save_as name_answer w ;; ret tt
  end.

(** A sequence of keys; an uncaught exception ends the program. *)
Fixpoint run_all (cs : list command) : M unit :=
  match cs with
  | [] => ret tt
  | c :: rest => run c ;; run_all rest
  end.

(* ================================================================== *)
(** * Keys *)
(* ================================================================== *)

(** [KEY_ACTION], the entries the key loop uses. *)
Module KEY_ACTION.
Definition CTRL_A : Z := 1.
Definition CTRL_B : Z := 2.
Definition CTRL_C : Z := 3.
Definition CTRL_H : Z := 8.
Definition CTRL_L : Z := 12.
Definition ENTER : Z := 13.
Definition CTRL_O : Z := 15.
Definition CTRL_Q : Z := 17.
Definition CTRL_R : Z := 18.
Definition CTRL_S : Z := 19.
Definition CTRL_V : Z := 22.
Definition CTRL_X : Z := 24.
Definition CTRL_Z : Z := 26.
Definition ESC : Z := 27.
Definition BACKSPACE : Z := 127.
Definition ARROW_LEFT : Z := 1000.
Definition ARROW_RIGHT : Z := 1001.
Definition ARROW_UP : Z := 1002.
Definition ARROW_DOWN : Z := 1003.
Definition DEL_KEY : Z := 1004.
Definition HOME_KEY : Z := 1005.
Definition END_KEY : Z := 1006.
Definition PAGE_UP : Z := 1007.
Definition PAGE_DOWN : Z := 1008.
End KEY_ACTION.

(** [read_key()].  [first] is what the read of one byte gives ([None] when
    it gives no byte or fails), [seq] what the read of up to five bytes
    after an ESC gives. *)
Definition read_key (first : option ascii) (seq : list ascii) : Z :=
  match first with
  | None => KEY_ACTION.ESC
  | Some b =>
      let ch := code b in
      if ch =? KEY_ACTION.ESC then
        match seq with
        | seq1 :: seq2 :: rest =>
            if code seq1 =? code "["%char then
              if (code "0"%char <=? code seq2) && (code seq2 <=? code "9"%char) then
                match rest with
                | [] => KEY_ACTION.ESC
                | seq3 :: _ =>
                    if code seq3 =? code "~"%char then
                      if code seq2 =? code "3"%char then KEY_ACTION.DEL_KEY
                      else if code seq2 =? code "5"%char then KEY_ACTION.PAGE_UP
                      else if code seq2 =? code "6"%char then KEY_ACTION.PAGE_DOWN
                      else ch
                    else ch
                end
              else if code seq2 =? code "A"%char then KEY_ACTION.ARROW_UP
              else if code seq2 =? code "B"%char then KEY_ACTION.ARROW_DOWN
              else if code seq2 =? code "C"%char then KEY_ACTION.ARROW_RIGHT
              else if code seq2 =? code "D"%char then KEY_ACTION.ARROW_LEFT
              else if code seq2 =? code "H"%char then KEY_ACTION.HOME_KEY
              else if code seq2 =? code "F"%char then KEY_ACTION.END_KEY
              else ch
            else if code seq1 =? code "O"%char then
              if code seq2 =? code "H"%char then KEY_ACTION.HOME_KEY
              else if code seq2 =? code "F"%char then KEY_ACTION.END_KEY
              else ch
            else ch
        | _ => KEY_ACTION.ESC
        end
      else ch
  end.

(** [chr(key)], for the keys below 256. *)
Definition chr (key : Z) : ascii := ascii_of_nat (Z.to_nat key).

(** What one turn of the key loop takes from outside: the two reads of
    [read_key], the answers to the prompts of open and save, and what
    reading and writing the file do. *)
Record input : Type := mkInput {
  first_read : option ascii;
  escape_read : list ascii;
  prompt_name : option str;
  prompt_discard : option str;
  file_read : read_outcome;
  file_write : write_outcome
}.

(** After a turn the loop goes on with a value of [quit_times], or the
    program exits. *)
Inductive loop : Type :=
| Continue (quit_times : Z)
| Exit.

(** [while times: move_cursor(direction); times -= 1] with
    [times = E.screen_rows]: it does not end for a negative count. *)
Fixpoint move_cursor_times (n : nat) (direction : arrow) : M unit :=
  match n with
  | O => ret tt
  | S n' => move_cursor direction ;; move_cursor_times n' direction
  end.

Definition page (direction : arrow) : M unit :=
  E <- get ;;
  if screen_rows E <? 0 then raise Diverges
  else move_cursor_times (Z.to_nat (screen_rows E)) direction.

(** One turn of the loop of [terminal_process_keypress], from [read_key]
    on; [refresh_screen], which writes to the terminal and assigns nothing
    of the state, is left out, and with it the exceptions it may raise. *)
Definition terminal_process_keypress (quit_times : Z) (i : input) : M loop :=
  let key := read_key (first_read i) (escape_read i) in
  if key =? KEY_ACTION.ENTER then insert_newline ;; ret (Continue 3)
  else if key =? KEY_ACTION.CTRL_Q then
    E <- get ;;
    if modified E && (quit_times >? 0) then
      set_status_message
        (lit "Warning: Unsaved changes. Hold Ctrl-Q to to quit.") ;;
      ret (Continue (quit_times - 1))
    else ret Exit
  else if key =? KEY_ACTION.CTRL_S then
    save_file_terminal false (prompt_name i) (file_write i) ;; ret (Continue 3)
  else if key =? KEY_ACTION.CTRL_A then
    save_file_terminal true (prompt_name i) (file_write i) ;; ret (Continue 3)
  else if key =? KEY_ACTION.CTRL_O then
    open_file_terminal None (prompt_name i) (prompt_discard i) (file_read i) ;;
    ret (Continue 3)
  else if key =? KEY_ACTION.CTRL_Z then undo ;; ret (Continue 3)
  else if key =? KEY_ACTION.CTRL_R then redo ;; ret (Continue 3)
  else if key =? KEY_ACTION.CTRL_B then set_mark ;; ret (Continue 3)
  else if key =? KEY_ACTION.CTRL_C then copy_selection ;; ret (Continue 3)
  else if key =? KEY_ACTION.CTRL_X then cut_selection ;; ret (Continue 3)
  else if key =? KEY_ACTION.CTRL_V then paste_clipboard ;; ret (Continue 3)
  else if (key =? KEY_ACTION.BACKSPACE) || (key =? KEY_ACTION.CTRL_H)
          || (key =? KEY_ACTION.DEL_KEY)
  then delete_char ;; ret (Continue 3)
  else if key =? KEY_ACTION.ARROW_UP then move_cursor ARROW_UP ;; ret (Continue 3)
  else if key =? KEY_ACTION.ARROW_DOWN then move_cursor ARROW_DOWN ;; ret (Continue 3)
  else if key =? KEY_ACTION.ARROW_LEFT then move_cursor ARROW_LEFT ;; ret (Continue 3)
  else if key =? KEY_ACTION.ARROW_RIGHT then move_cursor ARROW_RIGHT ;; ret (Continue 3)
  else if (key =? KEY_ACTION.PAGE_UP) || (key =? KEY_ACTION.PAGE_DOWN) then
    page (if key =? KEY_ACTION.PAGE_UP then ARROW_UP else ARROW_DOWN) ;;
    ret (Continue 3)
  else if negb (key =? KEY_ACTION.ESC) && negb (key =? KEY_ACTION.CTRL_L)
          && (key <? 1000) && (key >=? 32)
  then insert_char (chr key) ;; ret (Continue 3)
  else ret (Continue 3).

(** The turns of the loop for the inputs [is], until the program exits. *)
Fixpoint key_loop (state : loop) (inputs : list input) : M loop :=
  match state, inputs with
  | Continue quit_times, i :: rest =>
      state' <- terminal_process_keypress quit_times i ;;
      key_loop state' rest
  | _, _ => ret state
  end.

(* ================================================================== *)
(** * Vocabulary of the statements *)
(* ================================================================== *)

(** What is left to scan, counted twice, and one more while [prev_sep]
    holds: every iteration makes it smaller. *)
Definition scan_measure (line : str) (s : scan) : nat :=
  (2 * (length line - sc_i s) + (if sc_prev_sep s then 1 else 0))%nat.

(** [m] never changes the part [proj] of the state, whatever its outcome. *)
Definition frame {B : Type} (proj : EditorState -> B) {A : Type} (m : M A)
  : Prop :=
  forall E, proj (snd (m E)) = proj E.

(** Everything but the document ([rows], [total_rows] and [modified]). *)
Definition outside_document (E : EditorState) :=
  (cursor_x E, cursor_y E, row_offset E, col_offset E,
   (screen_rows E, screen_cols E, file_name E, status_message E),
   (current_syntax E, undo_stack E, redo_stack E, mark E, clipboard E)).

(** The two stacks. *)
Definition history (E : EditorState) := (undo_stack E, redo_stack E).

(** A row whose rendered size is the length of its rendered text. *)
Definition rendered_ok (r : EditorRow) : Prop :=
  rendered_size r = len (rendered_content r).

(** [E.total_rows] is the number of rows, and every row is rendered. *)
Definition doc_ok (E : EditorState) : Prop :=
  total_rows E = len (rows E) /\ Forall rendered_ok (rows E).

(** What [undo] and [redo] keep besides the stacks. *)
Definition session (E : EditorState) :=
  (screen_rows E, screen_cols E, file_name E, current_syntax E, mark E,
   clipboard E).

(** Does the command [c], started in [E], reach [save_undo_state()]?  The
    three typing commands always do, [paste_clipboard] when the clipboard
    holds text, [cut_selection] when it holds text after its
    [copy_selection]; the other commands never do. *)
Definition takes_snapshot (c : command) (E : EditorState) : bool :=
  match c with
  | InsertChar _ | InsertNewline | DeleteChar => true
  | Paste => nonempty (clipboard E)
  | Cut =>
      match copy_selection E with
      | (Ok _, E1) => nonempty (clipboard E1)
      | (Raise _, _) => false
      end
  | _ => false
  end.

(** The stacks after a snapshot of [s] is pushed on the stacks [h]. *)
Definition pushed (h : list snapshot * list snapshot) (s : snapshot)
  : list snapshot * list snapshot :=
  let u := fst h ++ [s] in
  (if len u >? 50 then tl u else u, []).

(** [edits E cs E']: the commands [cs], run one after the other from [E],
    all return, each takes its undo snapshot, and they end in [E']. *)
Inductive edits : EditorState -> list command -> EditorState -> Prop :=
| edits_nil (E : EditorState) : edits E [] E
| edits_cons (E : EditorState) (c : command) (E1 : EditorState)
             (cs : list command) (E2 : EditorState) :
    takes_snapshot c E = true ->
    run c E = (Ok tt, E1) ->
    edits E1 cs E2 ->
    edits E (c :: cs) E2.

(** [m] invoked [n] times. *)
Fixpoint times (n : nat) (m : M unit) : M unit :=
  match n with
  | O => ret tt
  | S n' => m ;; times n' m
  end.

(** The snapshots of the states the commands [cs] start in. *)
Fixpoint snapshots (E : EditorState) (cs : list command) : list snapshot :=
  match cs with
  | [] => []
  | c :: rest => current_state E :: snapshots (snd (run c E)) rest
  end.

(** The two stacks hold at most 50 entries together. *)
Definition within_bound (E : EditorState) : Prop :=
  (length (undo_stack E) + length (redo_stack E) <= 50)%nat.

(** [edits], computed: the state [cs] ends in when every command of it
    returns and takes its snapshot. *)
Fixpoint run_edits (cs : list command) (E : EditorState) : option EditorState :=
  match cs with
  | [] => Some E
  | c :: rest =>
      if takes_snapshot c E then
        match run c E with
        | (Ok _, E1) => run_edits rest E1
        | (Raise _, _) => None
        end
      else None
  end.

(** The command that pops the stack [source_stack c]. *)
Definition source_stack (c : command) (E : EditorState) : list snapshot :=
  match c with
  | Undo => undo_stack E
  | Redo => redo_stack E
  | _ => []
  end.

(** ** Concrete documents and key sequences *)

(** Typing [a] 51 times. *)
Definition fifty_one_edits : list command := repeat (InsertChar "a") 51.

(** Typing [a] 60 times, and the state this ends in. *)
Definition sixty_edits : list command := repeat (InsertChar "a") 60.

Definition after_sixty_edits : EditorState :=
  snd (run_all sixty_edits (initial_state None)).

(** A file of one line [x] is opened and [a] is typed. *)
Definition opened_typed : EditorState :=
  snd (run_all [Open (Some (lit "f.txt")) None None (ReadLines [lit "x"]);
                InsertChar "a"] (initial_state None)).

(** The keys that type the characters of [s]. *)
Definition typed (s : string) : list command := map InsertChar (lit s).

(** A file of one line, [a], a tab and [b], is opened. *)
Definition tab_document : EditorState :=
  snd (run_all [Open (Some (lit "t.txt")) None None
                     (ReadLines [["a"%char; tab; "b"%char]])]
               (initial_state None)).

(** [ab] is typed and copied, [c] is typed: the clipboard holds [ab] and
    the mark is cleared. *)
Definition copied_then_typed : EditorState :=
  snd (run_all (typed "ab"
                ++ [MoveCursor ARROW_LEFT; MoveCursor ARROW_LEFT; SetMark;
                    MoveCursor ARROW_RIGHT; MoveCursor ARROW_RIGHT; Copy;
                    InsertChar "c"])
               (initial_state None)).

(** [ab] is typed and copied, a new line is opened and the clipboard is
    pasted into it. *)
Definition pasted_into_new_row : EditorState :=
  snd (run_all (typed "ab"
                ++ [MoveCursor ARROW_LEFT; MoveCursor ARROW_LEFT; SetMark;
                    MoveCursor ARROW_RIGHT; MoveCursor ARROW_RIGHT; Copy;
                    InsertNewline; Paste])
               (initial_state None)).

(** A C file of two lines is opened: [/*/] and [x]. *)
Definition open_comment_document : EditorState :=
  snd (run_all [Open (Some (lit "a.c")) None None
                     (ReadLines [lit "/*/"; lit "x"])]
               (initial_state None)).

(** [ab] is typed, the cursor goes back one column and the line is split. *)
Definition split_line : EditorState :=
  snd (run_all (typed "ab" ++ [MoveCursor ARROW_LEFT; InsertNewline])
               (initial_state None)).

(** Does [save_file_terminal] get to a file name?  It asks for one when
    called for "save as" or when the document has none, and gives up on
    an empty answer. *)
Definition name_given (E : EditorState) (save_as : bool)
           (name_answer : option str) : bool :=
  let no_name := match file_name E with None | Some [] => true | _ => false end in
  if save_as || no_name
  then match name_answer with Some (_ :: _) => true | _ => false end
  else true.

(** A file of one line, [a], is opened. *)
Definition one_line_document : EditorState :=
  snd (run_all [Open (Some (lit "f.txt")) None None (ReadLines [lit "a"])]
               (initial_state None)).

(** The name [open_file_terminal] goes on with: the one it is called
    with, or else the non-empty answer to its prompt. *)
Definition requested_name (name name_answer : option str) : option str :=
  match name with
  | Some n => Some n
  | None =>
      match name_answer with
      | Some (c :: n) => Some (c :: n)
      | _ => None
      end
  end.

(** Does [open_file_terminal] get past the "Discard?" prompt?  The prompt
    is shown for a modified document only. *)
Definition discard_confirmed (E : EditorState) (discard_answer : option str)
  : bool :=
  if modified E then
    match discard_answer with
    | Some d => str_eqb (lower d) (lit "y")
    | None => false
    end
  else true.

(** ** Vocabulary of the further properties *)

(** Does [p] occur in [s]: [p in s] for two strings. *)
Definition occurs (p s : str) : bool :=
  existsb (fun i => startswith s p i) (seq 0 (S (length s))).

(** The number of tab characters of [c]. *)
Definition tabs (c : str) : Z := len (filter (Ascii.eqb tab) c).

(** No class of [h] is the block-comment class. *)
Definition no_block_comment (h : list hl) : Prop :=
  Forall (fun c => c <> HL_MLCOMMENT) h.

(** Everything [copy_selection] has no business with: the state but the
    clipboard and the status message. *)
Definition besides_clipboard (E : EditorState) :=
  (cursor_x E, cursor_y E, row_offset E, col_offset E,
   (screen_rows E, screen_cols E, total_rows E, rows E),
   (modified E, file_name E, current_syntax E),
   (undo_stack E, redo_stack E, mark E)).

(** The state but the cursor and the two scroll offsets. *)
Definition besides_cursor (E : EditorState) :=
  (screen_rows E, screen_cols E, total_rows E, rows E,
   (modified E, file_name E, status_message E, current_syntax E),
   (undo_stack E, redo_stack E, mark E, clipboard E)).

(** The rendered length of the row the cursor is on, 0 past the last row:
    [row_len] of [move_cursor]. *)
Definition cursor_row_length (E : EditorState) : result Z :=
  match fst (row_or_none (row_offset E + cursor_y E) E) with
  | Ok (Some row) => Ok (rendered_size row)
  | Ok None => Ok 0
  | Raise e => Raise e
  end.

(** The text of a row: what [update_syntax] does not write. *)
Definition text_of (r : EditorRow) :=
  (index r, content r, content_size r, rendered_content r, rendered_size r).

(** Every row's stored [index] is its position in the list. *)
Definition indexed (rs : list EditorRow) : Prop :=
  forall p r, nth_error rs p = Some r -> index r = Z.of_nat p.

(** A well-formed document: [total_rows] counts the rows, every row's
    [index] is its position and its [rendered_size] the length of its
    rendered text. *)
Definition well_formed (E : EditorState) : Prop :=
  total_rows E = len (rows E)
  /\ indexed (rows E)
  /\ Forall rendered_ok (rows E).

(** The document but the highlight classes and comment flags of its
    rows. *)
Definition document_text (E : EditorState) :=
  (map text_of (rows E), total_rows E, modified E).

(** A row whose [content_size] is the length of its content. *)
Definition sized (r : EditorRow) : Prop :=
  content_size r = len (content r).

(** The rows and their count: what [well_formed] speaks of. *)
Definition rows_and_count (E : EditorState) := (rows E, total_rows E).

(** [m] keeps the property [P] of the state, whether it returns or
    raises. *)
Definition keeps (P : EditorState -> Prop) {A : Type} (m : M A) : Prop :=
  forall E, P E -> P (snd (m E)).

(** The cursor and the mark are on rows that are not negative. *)
Definition in_document (E : EditorState) : Prop :=
  0 <= row_offset E + cursor_y E
  /\ match mark E with
     | Some (_, mark_y) => 0 <= mark_y
     | None => True
     end.

(** A consistent document: well-formed, and every row's [content_size] is
    the length of its content. *)
Definition consistent (E : EditorState) : Prop :=
  well_formed E /\ Forall sized (rows E).

(** The commands that assign a row's content without its [content_size]:
    splitting a line, cutting and pasting. *)
Definition assigns_content (c : command) : bool :=
  match c with
  | InsertNewline | Cut | Paste => true
  | _ => false
  end.

(** The byte Ctrl-Q sends. *)
Definition ctrl_q : ascii := "017"%char.

(** The warning of the key loop. *)
Definition quit_warning : str :=
  lit "Warning: Unsaved changes. Hold Ctrl-Q to to quit.".


(** Ctrl-Q is pressed; no prompt is answered and no file is there. *)
Definition ctrl_q_pressed : input :=
  mkInput (Some ctrl_q) [] None None ReadNotFound WriteDone.

(* ================================================================== *)
(** * The highlighter terminates *)
(* ================================================================== *)

Section Highlighter.

Variable line : str.
Variable syntax : EditorSyntax.

Lemma scan_step_advances (s s' : scan) :
  scan_step line syntax s = inl s' ->
  (sc_i s + 1 <= sc_i s')%nat
  \/ (sc_i s' = sc_i s /\ sc_prev_sep s = true /\ sc_prev_sep s' = false).
Proof.
  unfold scan_step.
  repeat match goal with
         | |- context [if ?b then _ else _] => destruct b eqn:?
         | |- context [match ?x with Some _ => _ | None => _ end] => destruct x eqn:?
         | |- context [let '(_, _) := ?x in _] => destruct x eqn:?
         end;
    intros H; inversion H; subst; cbn [sc_i sc_prev_sep];
    try (left; lia);
    try discriminate;
    repeat match goal with
           | H : _ && _ = true |- _ => apply andb_prop in H; destruct H
           | H : (0 <? _)%nat = true |- _ => apply Nat.ltb_lt in H
           end;
    try (left; lia).
  all: match goal with
       | |- context [(_ + ?k)%nat] => destruct k; [right; auto with arith | left; lia]
       end.
Qed.

Lemma scan_step_decreases (s s' : scan) :
  (sc_i s < length line)%nat ->
  scan_step line syntax s = inl s' ->
  (scan_measure line s' < scan_measure line s)%nat.
Proof.
  intros Hi Hs. unfold scan_measure.
  destruct (scan_step_advances _ _ Hs) as [H | (H1 & H2 & H3)].
  - destruct (sc_prev_sep s'), (sc_prev_sep s); lia.
  - rewrite H1, H2, H3. lia.
Qed.

Lemma scan_loop_total (fuel : nat) :
  forall s, (scan_measure line s < fuel)%nat ->
            exists r, scan_loop fuel line syntax s = Some r.
Proof.
  induction fuel as [| fuel IH]; intros s Hm; [lia |].
  cbn [scan_loop].
  destruct (sc_i s <? length line)%nat eqn:Hi; [| eauto].
  apply Nat.ltb_lt in Hi.
  destruct (scan_step line syntax s) as [s' | r] eqn:Hs; [| eauto].
  apply IH. pose proof (scan_step_decreases _ _ Hi Hs). lia.
Qed.

End Highlighter.

(** [get_syntax_highlighting] returns for every line, language and
    carried-in state. *)
Lemma get_syntax_highlighting_total line syntax prev_open_comment :
  exists r, get_syntax_highlighting line syntax prev_open_comment = Ok r.
Proof.
  unfold get_syntax_highlighting.
  destruct syntax as [syn |]; [| eauto].
  destruct (scan_loop_total line syn (scan_fuel line)
              (mkScan 0 true None prev_open_comment
                      (repeat HL_NORMAL (length line)))) as [r Hr].
  - unfold scan_measure, scan_fuel. cbn [sc_i sc_prev_sep]. lia.
  - rewrite Hr. eauto.
Qed.

(* ================================================================== *)
(** * Reasoning about commands *)
(* ================================================================== *)

Lemma bind_ok {A B : Type} (m : M A) (k : A -> M B) E a E1 :
  m E = (Ok a, E1) -> bind m k E = k a E1.
Proof. intros H. unfold bind. rewrite H. reflexivity. Qed.

Lemma bind_raise {A B : Type} (m : M A) (k : A -> M B) E e E1 :
  m E = (Raise e, E1) -> bind m k E = (Raise e, E1).
Proof. intros H. unfold bind. rewrite H. reflexivity. Qed.

Lemma bind_modify {B : Type} f (k : unit -> M B) E :
  bind (modify f) k E = k tt (f E).
Proof. reflexivity. Qed.

Lemma bind_get {B : Type} (k : EditorState -> M B) E :
  bind get k E = k E E.
Proof. reflexivity. Qed.

(** ** Frames: what a command leaves alone *)

Section Frames.

Context {B : Type} (proj : EditorState -> B).

Lemma frame_ret {A : Type} (a : A) : frame proj (ret a).
Proof. intros E. reflexivity. Qed.

Lemma frame_raise {A : Type} (e : exn) : frame proj (@raise A e).
Proof. intros E. reflexivity. Qed.

Lemma frame_lift {A : Type} (r : result A) : frame proj (lift r).
Proof. intros E. reflexivity. Qed.

Lemma frame_get : frame proj get.
Proof. intros E. reflexivity. Qed.

Lemma frame_modify f : (forall E, proj (f E) = proj E) -> frame proj (modify f).
Proof. intros H E. apply H. Qed.

Lemma frame_bind {A C : Type} (m : M A) (k : A -> M C) :
  frame proj m -> (forall a, frame proj (k a)) -> frame proj (bind m k).
Proof.
  intros Hm Hk E. unfold bind.
  specialize (Hm E). destruct (m E) as [[a | e] E1]; cbn [snd] in *.
  - rewrite Hk. exact Hm.
  - exact Hm.
Qed.

Lemma frame_try_except {A : Type} (m : M A) (handler : exn -> M A) :
  frame proj m -> (forall e, frame proj (handler e)) -> frame proj (try_except m handler).
Proof.
  intros Hm Hh E. unfold try_except.
  specialize (Hm E). destruct (m E) as [[a | e] E1]; cbn [snd] in *.
  - exact Hm.
  - rewrite Hh. exact Hm.
Qed.

Lemma frame_for_each {A : Type} (l : list A) (body : A -> M unit) :
  (forall x, frame proj (body x)) -> frame proj (for_each l body).
Proof.
  intros Hb. induction l as [| x l IH]; cbn [for_each].
  - apply frame_ret.
  - apply frame_bind; auto.
Qed.

End Frames.

Lemma frame_weaken {B C : Type} (p : EditorState -> B) (q : EditorState -> C)
      {A : Type} (m : M A) :
  (forall E E', p E' = p E -> q E' = q E) -> frame p m -> frame q m.
Proof. intros H Hm E. apply H, Hm. Qed.

Create HintDb frames discriminated.

Ltac frame_fields :=
  intros;
  repeat match goal with
         | |- context [if ?b then _ else _] => destruct b
         | |- context [match ?x with _ => _ end] => destruct x
         end;
  reflexivity.

Ltac frame_step :=
  first
    [ solve [auto with frames]
    | match goal with
      | |- frame _ (bind _ _) => apply frame_bind; [ | intros ? ]
      | |- frame _ (ret _) => apply frame_ret
      | |- frame _ (raise _) => apply frame_raise
      | |- frame _ (lift _) => apply frame_lift
      | |- frame _ get => apply frame_get
      | |- frame _ (modify _) => apply frame_modify; solve [frame_fields]
      | |- frame _ (for_each _ _) => apply frame_for_each; intros ?
      | |- frame _ (try_except _ _) => apply frame_try_except; [ | intros ? ]
      | |- frame _ (if ?b then _ else _) => destruct b
      | |- frame _ (match ?x with _ => _ end) => destruct x
      end ].

Ltac frame_tac := repeat frame_step.

Lemma frame_row_at {B : Type} (proj : EditorState -> B) p : frame proj (row_at p).
Proof. unfold row_at. frame_tac. Qed.

Lemma frame_row_ref {B : Type} (proj : EditorState -> B) i : frame proj (row_ref i).
Proof. unfold row_ref. frame_tac. Qed.

Lemma frame_update_row p f : frame outside_document (update_row p f).
Proof. unfold update_row. frame_tac. Qed.

Lemma frame_highlight_for {B : Type} (proj : EditorState -> B) self syntax :
  frame proj (highlight_for self syntax).
Proof. unfold highlight_for. frame_tac. Qed.

#[export] Hint Resolve frame_row_at frame_row_ref frame_update_row
  frame_highlight_for : frames.

Lemma frame_update_syntax fuel :
  forall p, frame outside_document (update_syntax fuel p).
Proof.
  induction fuel as [| fuel IH]; intros p; cbn [update_syntax]; frame_tac.
Qed.
#[export] Hint Resolve frame_update_syntax : frames.

Lemma frame_row_update_syntax p : frame outside_document (row_update_syntax p).
Proof. unfold row_update_syntax. frame_tac. Qed.
#[export] Hint Resolve frame_row_update_syntax : frames.

Lemma frame_row_update_rendered p :
  frame outside_document (row_update_rendered p).
Proof. unfold row_update_rendered. frame_tac. Qed.
#[export] Hint Resolve frame_row_update_rendered : frames.

Lemma frame_new_EditorRow idx c : frame outside_document (new_EditorRow idx c).
Proof. unfold new_EditorRow. frame_tac. Qed.
#[export] Hint Resolve frame_new_EditorRow : frames.

Lemma frame_row_insert_char p position ch :
  frame outside_document (row_insert_char p position ch).
Proof. unfold row_insert_char. frame_tac. Qed.

Lemma frame_row_append_string p string :
  frame outside_document (row_append_string p string).
Proof. unfold row_append_string. frame_tac. Qed.

Lemma frame_row_delete_char p position :
  frame outside_document (row_delete_char p position).
Proof. unfold row_delete_char. frame_tac. Qed.

Lemma frame_insert_editor_row position c :
  frame outside_document (insert_editor_row position c).
Proof. unfold insert_editor_row. frame_tac. Qed.

Lemma frame_delete_editor_row position :
  frame outside_document (delete_editor_row position).
Proof. unfold delete_editor_row. frame_tac. Qed.

#[export] Hint Resolve frame_row_insert_char frame_row_append_string
  frame_row_delete_char frame_insert_editor_row frame_delete_editor_row
  : frames.

(** ** Rows loaded at the end of the document *)

Lemma locate_ok {A : Type} (l : list A) (i : Z) :
  let k := if i <? 0 then i + len l else i in
  0 <= k < len l -> locate l i = Ok (Z.to_nat k).
Proof.
  intros k Hk. unfold locate. fold k.
  replace (0 <=? k) with true by (symmetry; apply Z.leb_le; lia).
  replace (k <? len l) with true by (symmetry; apply Z.ltb_lt; lia).
  reflexivity.
Qed.

Lemma getitem_ok {A : Type} (l : list A) (i : Z) :
  let k := if i <? 0 then i + len l else i in
  0 <= k < len l ->
  exists x, getitem l i = Ok x /\ nth_error l (Z.to_nat k) = Some x.
Proof.
  intros k Hk. unfold getitem. rewrite locate_ok by exact Hk. fold k.
  cbn [rbind].
  destruct (nth_error l (Z.to_nat k)) as [x |] eqn:Hx.
  - eauto.
  - apply nth_error_None in Hx. unfold len in Hk. lia.
Qed.

Lemma getitem_from_end {A : Type} (l : list A) (k : Z) :
  0 < k <= len l -> exists x, getitem l (- k) = Ok x.
Proof.
  intros Hk. destruct (getitem_ok l (- k)) as (x & Hx & _); [| eauto].
  replace (- k <? 0) with true by (symmetry; apply Z.ltb_lt; lia). lia.
Qed.

Lemma has_open_comment_total (r : EditorRow) :
  rendered_ok r -> exists b, has_open_comment r = Ok b.
Proof.
  intros Hr. unfold has_open_comment.
  destruct (nonempty (highlight r)) eqn:Hne; cbn [andb]; [| eauto].
  destruct (rendered_size r =? 0) eqn:Hz; cbn [negb]; [eauto |].
  destruct (getitem_from_end (highlight r) 1) as (x & Hx).
  { destruct (highlight r); [discriminate |]. unfold len. cbn [length]. lia. }
  cbn [Z.opp] in Hx. rewrite Hx. cbn [rbind].
  destruct (hl_eqb x HL_MLCOMMENT); [| eauto].
  destruct (rendered_size r <? 2) eqn:H2; [eauto |].
  apply Z.ltb_ge in H2. red in Hr.
  destruct (getitem_from_end (rendered_content r) 2) as (c2 & Hc2); [lia |].
  cbn [Z.opp] in Hc2. rewrite Hc2. cbn [rbind].
  destruct (negb (Ascii.eqb c2 "*")); [eauto |].
  destruct (getitem_from_end (rendered_content r) 1) as (c1 & Hc1); [lia |].
  cbn [Z.opp] in Hc1. rewrite Hc1. cbn [rbind]. eauto.
Qed.

Lemma range_empty (a : Z) : range a a = [].
Proof. unfold range. rewrite Z.sub_diag. reflexivity. Qed.

Lemma list_insert_end {A : Type} (l : list A) (x : A) :
  list_insert l (len l) x = l ++ [x].
Proof.
  unfold list_insert, bound.
  assert (H : (len l <? 0) = false) by (apply Z.ltb_ge; unfold len; lia).
  rewrite H, Z.min_id. unfold len. rewrite Nat2Z.id.
  rewrite firstn_all, skipn_all. reflexivity.
Qed.

(** The constructor, called for a row that goes to the end of the
    document, returns and leaves the state as it is. *)
Lemma new_EditorRow_at_end (E : EditorState) (c : str) :
  doc_ok E ->
  exists r, new_EditorRow (total_rows E) c E = (Ok r, E)
            /\ content r = c /\ content_size r = len c /\ rendered_ok r
            /\ rendered_content r = render c.
Proof.
  intros [Ht Hrows]. unfold new_EditorRow. cbv zeta. rewrite bind_get.
  destruct (current_syntax E) as [syn |].
  2:{ eexists. split; [reflexivity |]. cbn. unfold rendered_ok. cbn. auto. }
  cbv [bind get lift ret highlight_for].
  cbn [index set_highlight set_rendered rendered_content open_comment content].
  assert (Hprev : exists b,
             (if total_rows E >? 0
              then (r <-? getitem (rows E) (total_rows E - 1) ;;
                    has_open_comment r)
              else Ok false) = Ok b).
  { destruct (total_rows E >? 0) eqn:Hpos; [| eauto].
    apply Z.gtb_lt in Hpos.
    destruct (getitem_ok (rows E) (total_rows E - 1)) as (r & Hr & Hn).
    { replace (total_rows E - 1 <? 0) with false
        by (symmetry; apply Z.ltb_ge; lia). lia. }
    rewrite Hr. cbn [rbind]. apply has_open_comment_total.
    rewrite Forall_forall in Hrows. apply Hrows.
    eapply nth_error_In, Hn. }
  destruct Hprev as [b Hb]. rewrite Hb.
  destruct (get_syntax_highlighting_total (render c) (Some syn) b) as [[h o] Hh].
  rewrite Hh.
  replace (total_rows E + 1 <? total_rows E) with false
    by (symmetry; apply Z.ltb_ge; lia).
  rewrite andb_false_r.
  eexists. split; [reflexivity |]. cbn. unfold rendered_ok. cbn. auto.
Qed.

Lemma insert_editor_row_at_end (E : EditorState) (c : str) :
  doc_ok E ->
  exists a E', insert_editor_row (total_rows E) c E = (Ok a, E')
               /\ doc_ok E'
               /\ row_contents E' = row_contents E ++ [c]
               /\ outside_document E' = outside_document E.
Proof.
  intros Hok.
  destruct (new_EditorRow_at_end E c Hok) as (r & Hr & Hc & _ & Hrok & _).
  destruct Hok as [Ht Hrows].
  unfold insert_editor_row. rewrite bind_get.
  rewrite Z.gtb_ltb, Z.ltb_irrefl.
  rewrite (bind_ok _ _ _ _ _ Hr), bind_get, bind_modify, range_empty.
  cbn [for_each]. unfold ret at 1. unfold bind at 1. rewrite bind_modify.
  unfold ret. do 2 eexists. split; [reflexivity |].
  rewrite Ht, list_insert_end.
  repeat split.
  - cbn. unfold len in *. rewrite length_app. cbn [length]. lia.
  - cbn. apply Forall_app. split; [assumption | constructor; [assumption | constructor]].
  - unfold row_contents. cbn. rewrite map_app. cbn. rewrite Hc. reflexivity.
Qed.

(** Loading lines one after the other at the end of the document, as
    [undo], [redo] and [open_file_terminal] do. *)
Lemma append_rows (cs : list str) :
  forall E, doc_ok E ->
  exists E', for_each cs (fun c => E <- get ;;
                                   insert_editor_row (total_rows E) c ;; ret tt) E
             = (Ok tt, E')
             /\ doc_ok E'
             /\ row_contents E' = row_contents E ++ cs
             /\ outside_document E' = outside_document E.
Proof.
  induction cs as [| c cs IH]; intros E Hok; cbn [for_each].
  - exists E. rewrite app_nil_r. auto.
  - destruct (insert_editor_row_at_end E c Hok) as (a & E1 & H1 & Hok1 & Hc1 & Ho1).
    destruct (IH E1 Hok1) as (E2 & H2 & Hok2 & Hc2 & Ho2).
    exists E2. split; [| split; [assumption | split]].
    + unfold bind at 1. rewrite bind_get. rewrite (bind_ok _ _ _ _ _ H1).
      unfold ret at 1. exact H2.
    + rewrite Hc2, Hc1, <- app_assoc. reflexivity.
    + congruence.
Qed.

(** ** Undo and redo restore the entry they pop *)

Lemma pop_snoc {A : Type} (l : list A) (x : A) : pop (l ++ [x]) = Some (x, l).
Proof. unfold pop. rewrite rev_app_distr. cbn. rewrite rev_involutive. reflexivity. Qed.

Lemma pop_some {A : Type} (l below : list A) (x : A) :
  pop l = Some (x, below) -> l = below ++ [x].
Proof.
  unfold pop. destruct (rev l) as [| top rest] eqn:Hr; [discriminate |].
  intros H. inversion H; subst.
  rewrite <- (rev_involutive l), Hr. reflexivity.
Qed.

Lemma pop_none {A : Type} (l : list A) : pop l = None -> l = [].
Proof.
  unfold pop. destruct (rev l) eqn:Hr; [| discriminate].
  intros _. rewrite <- (rev_involutive l), Hr. reflexivity.
Qed.

Lemma restore_spec (entry : snapshot) (E : EditorState) :
  exists E', restore entry E = (Ok tt, E')
             /\ current_state E' = entry
             /\ modified E' = true
             /\ doc_ok E'
             /\ history E' = history E
             /\ session E' = session E
             /\ status_message E' = status_message E.
Proof.
  destruct entry as [[[[rows_copy cx] cy] co] ro].
  unfold restore. rewrite bind_modify.
  destruct (append_rows rows_copy (set_total_rows 0 (set_rows [] E)))
    as (E1 & H1 & Hok1 & Hc1 & Ho1).
  { split; [reflexivity | constructor]. }
  rewrite (bind_ok _ _ _ _ _ H1).
  eexists. split; [reflexivity |].
  unfold outside_document in Ho1. cbn in Ho1. inversion Ho1.
  destruct Hok1 as [Ht1 Hr1].
  unfold current_state, history, session, doc_ok, row_contents in *.
  cbn in *. rewrite Hc1.
  repeat split; auto; congruence.
Qed.

Lemma undo_spec (E : EditorState) entry below :
  pop (undo_stack E) = Some (entry, below) ->
  exists E', undo E = (Ok tt, E')
             /\ current_state E' = entry
             /\ modified E' = true
             /\ undo_stack E' = below
             /\ redo_stack E' = redo_stack E ++ [current_state E]
             /\ doc_ok E'
             /\ session E' = session E.
Proof.
  intros Hpop. unfold undo. rewrite bind_get, Hpop, !bind_modify.
  match goal with
  | |- context [bind (restore entry) _ ?E0] =>
      destruct (restore_spec entry E0) as (E1 & H1 & Hs & Hm & Hok & Hh & Hse & _)
  end.
  rewrite (bind_ok _ _ _ _ _ H1).
  eexists. split; [reflexivity |].
  unfold history, session, current_state, doc_ok, row_contents in *. cbn in *.
  inversion Hh. repeat split; auto; try apply Hok.
Qed.

Lemma redo_spec (E : EditorState) entry below :
  pop (redo_stack E) = Some (entry, below) ->
  exists E', redo E = (Ok tt, E')
             /\ current_state E' = entry
             /\ modified E' = true
             /\ redo_stack E' = below
             /\ undo_stack E' = undo_stack E ++ [current_state E]
             /\ doc_ok E'
             /\ session E' = session E.
Proof.
  intros Hpop. unfold redo. rewrite bind_get, Hpop, !bind_modify.
  match goal with
  | |- context [bind (restore entry) _ ?E0] =>
      destruct (restore_spec entry E0) as (E1 & H1 & Hs & Hm & Hok & Hh & Hse & _)
  end.
  rewrite (bind_ok _ _ _ _ _ H1).
  eexists. split; [reflexivity |].
  unfold history, session, current_state, doc_ok, row_contents in *. cbn in *.
  inversion Hh. repeat split; auto; try apply Hok.
Qed.

Lemma undo_nothing (E : EditorState) :
  undo_stack E = [] ->
  undo E = (Ok tt, set_status (lit "Nothing to undo") E).
Proof. intros H. unfold undo. rewrite bind_get, H. reflexivity. Qed.

Lemma redo_nothing (E : EditorState) :
  redo_stack E = [] ->
  redo E = (Ok tt, set_status (lit "Nothing to redo") E).
Proof. intros H. unfold redo. rewrite bind_get, H. reflexivity. Qed.

(** ** What the commands do to the two stacks *)

Lemma frame_history_buffer {A : Type} (m : M A) :
  frame outside_document m -> frame history m.
Proof.
  apply frame_weaken. intros E E' H. unfold outside_document in H.
  inversion H. unfold history. congruence.
Qed.
#[export] Hint Resolve frame_history_buffer : frames.

Lemma frame_set_status_message {B : Type} (proj : EditorState -> B) message :
  (forall v E, proj (set_status v E) = proj E) ->
  frame proj (set_status_message message).
Proof. intros H. unfold set_status_message. apply frame_modify. apply H. Qed.

Lemma frame_history_status message : frame history (set_status_message message).
Proof. apply frame_set_status_message. reflexivity. Qed.

Lemma frame_history_clear_mark : frame history clear_mark.
Proof. unfold clear_mark. frame_tac. Qed.

Lemma frame_history_place_cursor y x : frame history (place_cursor y x).
Proof. unfold place_cursor. frame_tac. Qed.

Lemma frame_history_row_or_none i : frame history (row_or_none i).
Proof. unfold row_or_none. frame_tac. Qed.

#[export] Hint Resolve frame_history_status frame_history_clear_mark
  frame_history_place_cursor frame_history_row_or_none : frames.

Lemma frame_history_move_cursor key : frame history (move_cursor key).
Proof. unfold move_cursor. frame_tac. Qed.

Lemma frame_history_set_mark : frame history set_mark.
Proof. unfold set_mark. frame_tac. Qed.

Lemma frame_history_copy_selection : frame history copy_selection.
Proof. unfold copy_selection. frame_tac. Qed.

Lemma frame_snapshot_copy_selection : frame current_state copy_selection.
Proof. unfold copy_selection, set_status_message. frame_tac. Qed.

Lemma frame_history_paste_lines lines :
  forall file_row, frame history (paste_lines file_row lines).
Proof. induction lines; intros file_row; cbn [paste_lines]; frame_tac. Qed.

Lemma frame_history_prompt answer : frame history (_prompt_user_cli answer).
Proof. unfold _prompt_user_cli. frame_tac. Qed.

Lemma frame_history_select_syntax name :
  frame history (select_syntax_highlight name).
Proof. unfold select_syntax_highlight. frame_tac. Qed.

#[export] Hint Resolve frame_history_move_cursor frame_history_set_mark
  frame_history_copy_selection frame_history_paste_lines
  frame_history_prompt frame_history_select_syntax : frames.

Lemma frame_history_load_line line : frame history (load_line line).
Proof. unfold load_line. frame_tac. Qed.
#[export] Hint Resolve frame_history_load_line : frames.

Lemma frame_history_read_file fs : frame history (read_file fs).
Proof. unfold read_file. frame_tac. Qed.
#[export] Hint Resolve frame_history_read_file : frames.

Lemma frame_history_open_named name discard_answer fs :
  frame history (open_named name discard_answer fs).
Proof. unfold open_named. frame_tac. Qed.
#[export] Hint Resolve frame_history_open_named : frames.

Lemma frame_history_open name name_answer discard_answer fs :
  frame history (open_file_terminal name name_answer discard_answer fs).
Proof. unfold open_file_terminal. frame_tac. Qed.

Lemma frame_history_rehighlight : frame history rehighlight.
Proof. unfold rehighlight. frame_tac. Qed.
#[export] Hint Resolve frame_history_rehighlight : frames.

Lemma frame_history_save save_as name_answer w :
  frame history (save_file_terminal save_as name_answer w).
Proof. unfold save_file_terminal. frame_tac. Qed.

#[export] Hint Resolve frame_history_open frame_history_save : frames.

(** ** Edits take a snapshot first *)

Lemma history_push_undo (E : EditorState) :
  history (push_undo E) = pushed (history E) (current_state E).
Proof.
  unfold push_undo, pushed, history. cbn.
  destruct (len (undo_stack E ++ [current_state E]) >? 50); reflexivity.
Qed.

Ltac after_snapshot :=
  unfold save_undo_state; rewrite bind_modify;
  match goal with
  | |- ?proj (snd (?m ?E)) = _ =>
      let H := fresh in
      assert (H : frame proj m) by (cbv beta; frame_tac);
      apply H
  end.

Lemma insert_char_history ch E :
  history (snd (insert_char ch E)) = history (push_undo E).
Proof. unfold insert_char. after_snapshot. Qed.

Lemma insert_newline_history E :
  history (snd (insert_newline E)) = history (push_undo E).
Proof. unfold insert_newline. after_snapshot. Qed.

Lemma delete_char_history E :
  history (snd (delete_char E)) = history (push_undo E).
Proof. unfold delete_char. after_snapshot. Qed.

Lemma paste_history E :
  history (snd (paste_clipboard E))
  = if nonempty (clipboard E) then history (push_undo E) else history E.
Proof.
  unfold paste_clipboard. rewrite bind_get.
  destruct (nonempty (clipboard E)); cbn [negb].
  - after_snapshot.
  - reflexivity.
Qed.

Lemma cut_history E :
  history (snd (cut_selection E))
  = if takes_snapshot Cut E then history (push_undo E) else history E.
Proof.
  unfold cut_selection, takes_snapshot.
  pose proof (frame_history_copy_selection E) as Hh.
  pose proof (frame_snapshot_copy_selection E) as Hs.
  unfold bind at 1.
  destruct (copy_selection E) as [[[] | e] E1]; cbn [snd] in *; [| exact Hh].
  rewrite bind_get.
  destruct (nonempty (clipboard E1)); [| exact Hh].
  rewrite !history_push_undo, <- Hh, <- Hs, <- history_push_undo.
  after_snapshot.
Qed.

Lemma edit_history c E :
  takes_snapshot c E = true ->
  history (snd (run c E)) = history (push_undo E).
Proof.
  destruct c; cbn [run]; intros H; try discriminate.
  - apply insert_char_history.
  - apply insert_newline_history.
  - apply delete_char_history.
  - rewrite cut_history, H. reflexivity.
  - rewrite paste_history. cbn in H. rewrite H. reflexivity.
Qed.

(** Every command leaves the stacks alone, pushes a snapshot, or moves one
    entry from a stack to the other. *)
Lemma run_history c E :
  let h := history (snd (run c E)) in
  h = history E
  \/ h = history (push_undo E)
  \/ (exists entry below,
        pop (undo_stack E) = Some (entry, below)
        /\ h = (below, redo_stack E ++ [current_state E]))
  \/ (exists entry below,
        pop (redo_stack E) = Some (entry, below)
        /\ h = (undo_stack E ++ [current_state E], below)).
Proof.
  destruct c; cbn [run]; cbv zeta.
  - right; left. apply insert_char_history.
  - right; left. apply insert_newline_history.
  - right; left. apply delete_char_history.
  - left. apply frame_history_move_cursor.
  - left. apply frame_history_set_mark.
  - left. apply frame_history_copy_selection.
  - rewrite cut_history. destruct (takes_snapshot Cut E); auto.
  - rewrite paste_history. destruct (nonempty (clipboard E)); auto.
  - destruct (pop (undo_stack E)) as [[entry below] |] eqn:Hp.
    + right; right; left. exists entry, below. split; [reflexivity |].
      destruct (undo_spec E entry below Hp) as (E' & HE & _ & _ & Hu & Hr & _).
      rewrite HE. unfold history. cbn [snd]. rewrite Hu, Hr. reflexivity.
    + left. rewrite (undo_nothing E (pop_none _ Hp)). reflexivity.
  - destruct (pop (redo_stack E)) as [[entry below] |] eqn:Hp.
    + right; right; right. exists entry, below. split; [reflexivity |].
      destruct (redo_spec E entry below Hp) as (E' & HE & _ & _ & Hr & Hu & _).
      rewrite HE. unfold history. cbn [snd]. rewrite Hu, Hr. reflexivity.
    + left. rewrite (redo_nothing E (pop_none _ Hp)). reflexivity.
  - left. apply frame_history_open.
  - left. assert (H : frame history
                        (save_file_terminal save_as name_answer w ;; ret tt))
      by frame_tac.
    apply H.
Qed.

(* ================================================================== *)
(** * Undo and redo over sequences of edits *)
(* ================================================================== *)

Lemma edits_snoc E cs c E1 E2 :
  edits E cs E1 -> takes_snapshot c E1 = true -> run c E1 = (Ok tt, E2) ->
  edits E (cs ++ [c]) E2.
Proof.
  induction 1; intros Ht Hr; cbn [app].
  - econstructor; eauto. constructor.
  - econstructor; eauto.
Qed.

Lemma edits_app_inv E cs1 cs2 E2 :
  edits E (cs1 ++ cs2) E2 ->
  exists E1, edits E cs1 E1 /\ edits E1 cs2 E2.
Proof.
  revert E. induction cs1 as [| c cs1 IH]; intros E H; cbn [app] in H.
  - exists E. split; [constructor | assumption].
  - inversion H; subst.
    destruct (IH _ H6) as (Em & Ha & Hb).
    exists Em. split; [econstructor; eauto | assumption].
Qed.

Lemma snapshots_snoc E cs c E1 :
  edits E cs E1 ->
  snapshots E (cs ++ [c]) = snapshots E cs ++ [current_state E1].
Proof.
  induction 1; cbn [app snapshots].
  - reflexivity.
  - match goal with H : run _ _ = _ |- _ => rewrite H end.
    cbn [snd]. rewrite IHedits. reflexivity.
Qed.

Lemma snapshots_length E cs : length (snapshots E cs) = length cs.
Proof. revert E. induction cs; intros E; cbn; auto. Qed.

Lemma undo_stack_after_edit c E E1 :
  takes_snapshot c E = true -> run c E = (Ok tt, E1) ->
  undo_stack E1
  = (if (50 <=? length (undo_stack E))%nat then tl (undo_stack E)
     else undo_stack E) ++ [current_state E]
  /\ redo_stack E1 = [].
Proof.
  intros Ht Hr. pose proof (edit_history c E Ht) as H.
  rewrite Hr, history_push_undo in H. cbn [snd] in H.
  unfold history, pushed in H. cbn [fst] in H. injection H as Hu Hd.
  split; [| exact Hd].
  rewrite Hu. unfold len. rewrite length_app. cbn [length].
  destruct (50 <=? length (undo_stack E))%nat eqn:H50.
  - apply Nat.leb_le in H50.
    replace (Z.of_nat (length (undo_stack E) + 1) >? 50) with true
      by (symmetry; apply Z.gtb_lt; lia).
    destruct (undo_stack E); [cbn in H50; lia | reflexivity].
  - apply Nat.leb_gt in H50.
    replace (Z.of_nat (length (undo_stack E) + 1) >? 50) with false
      by (symmetry; rewrite Z.gtb_ltb; apply Z.ltb_ge; lia).
    reflexivity.
Qed.

(** After at most 50 edits the snapshots of all of them are still on the
    undo stack, on top of what is left of the stack before. *)
Lemma undo_stack_after_edits cs :
  forall E E', edits E cs E' -> (length cs <= 50)%nat ->
  exists below, undo_stack E' = below ++ snapshots E cs.
Proof.
  induction cs as [| c cs IH] using rev_ind; intros E E' He Hn.
  - inversion He; subst. exists (undo_stack E'). cbn. rewrite app_nil_r. reflexivity.
  - rewrite length_app in Hn. cbn [length] in Hn.
    destruct (edits_app_inv _ _ _ _ He) as (E1 & H1 & H2).
    inversion H2 as [| ? ? E2 ? ? Ht Hr Hnil]; subst. inversion Hnil; subst.
    destruct (IH E E1 H1 ltac:(lia)) as (below & Hb).
    destruct (undo_stack_after_edit _ _ _ Ht Hr) as [Hu _].
    rewrite (snapshots_snoc _ _ _ _ H1), Hu, Hb.
    destruct (50 <=? length (below ++ snapshots E cs))%nat eqn:H50.
    + apply Nat.leb_le in H50.
      rewrite length_app, snapshots_length in H50.
      destruct below as [| b below]; [cbn in H50; lia |].
      exists below. cbn [tl app]. rewrite app_assoc. reflexivity.
    + exists below. rewrite app_assoc. reflexivity.
Qed.

(** Undoing as many times as there are snapshots [snaps] on top of the
    stack succeeds and ends in the oldest of them. *)
Lemma undo_times snaps :
  forall below E, undo_stack E = below ++ snaps ->
  exists E', times (length snaps) undo E = (Ok tt, E')
             /\ undo_stack E' = below
             /\ (forall s, hd_error snaps = Some s -> current_state E' = s)
             /\ (snaps = [] -> E' = E).
Proof.
  induction snaps as [| x snaps IH] using rev_ind; intros below E Hu.
  - exists E. rewrite app_nil_r in Hu. cbn. repeat split; auto. discriminate.
  - rewrite app_assoc in Hu.
    destruct (undo_spec E x (below ++ snaps)) as (E1 & H1 & Hs1 & _ & Hu1 & _).
    { rewrite Hu. apply pop_snoc. }
    destruct (IH below E1 Hu1) as (E2 & H2 & Hu2 & Hhd & Hnil).
    exists E2. rewrite length_app, Nat.add_comm. cbn [length Nat.add times].
    rewrite (bind_ok _ _ _ _ _ H1). repeat split; auto.
    + intros s Hs. destruct snaps as [| y snaps].
      * cbn in Hs. injection Hs as <-. rewrite (Hnil eq_refl). exact Hs1.
      * apply Hhd. exact Hs.
    + intros Habs. destruct snaps; discriminate.
Qed.

Lemma undo_then_redo E entry below :
  pop (undo_stack E) = Some (entry, below) ->
  exists E1 E2, undo E = (Ok tt, E1) /\ redo E1 = (Ok tt, E2)
                /\ current_state E2 = current_state E.
Proof.
  intros Hp.
  destruct (undo_spec E entry below Hp) as (E1 & H1 & _ & _ & _ & Hr1 & _).
  destruct (redo_spec E1 (current_state E) (redo_stack E)) as (E2 & H2 & Hs2 & _).
  { rewrite Hr1. apply pop_snoc. }
  eauto.
Qed.

(** ** The bound on the stacks *)

Lemma pushed_within_bound (E : EditorState) :
  (length (undo_stack E) <= 50)%nat -> within_bound (push_undo E).
Proof.
  intros H. unfold within_bound.
  pose proof (history_push_undo E) as Hh. unfold history, pushed in Hh.
  cbn [fst] in Hh. injection Hh as Hu Hr. rewrite Hu, Hr. cbn [length].
  unfold len. rewrite length_app. cbn [length].
  destruct (Z.of_nat (length (undo_stack E) + 1) >? 50) eqn:Hc.
  - destruct (undo_stack E); cbn [app tl length] in *; [lia |].
    rewrite length_app. cbn [length]. lia.
  - rewrite Z.gtb_ltb in Hc. apply Z.ltb_ge in Hc.
    rewrite length_app. cbn [length]. lia.
Qed.

Lemma run_within_bound (c : command) (E : EditorState) :
  within_bound E -> within_bound (snd (run c E)).
Proof.
  intros Hb. unfold within_bound in *.
  destruct (run_history c E) as [H | [H | [(entry & below & Hp & H) | (entry & below & Hp & H)]]];
    unfold history in H; injection H as Hu Hr; rewrite Hu, Hr.
  - exact Hb.
  - apply pushed_within_bound. lia.
  - apply pop_some in Hp. rewrite Hp in Hb. rewrite length_app in *. cbn [length] in *. lia.
  - apply pop_some in Hp. rewrite Hp in Hb. rewrite length_app in *. cbn [length] in *. lia.
Qed.

Lemma run_all_within_bound (cs : list command) :
  forall E, within_bound E -> within_bound (snd (run_all cs E)).
Proof.
  induction cs as [| c cs IH]; intros E Hb; cbn [run_all].
  - exact Hb.
  - pose proof (run_within_bound c E Hb) as H1.
    unfold bind. destruct (run c E) as [[[] | e] E1]; cbn [snd] in *; auto.
Qed.

Lemma undo_stack_length_after_edits E cs E' :
  edits E cs E' -> (length (undo_stack E) <= 50)%nat ->
  length (undo_stack E') = Nat.min 50 (length (undo_stack E) + length cs).
Proof.
  induction 1 as [E | E c E1 cs E2 Ht Hr He IH]; intros Hb.
  - cbn [length]. lia.
  - destruct (undo_stack_after_edit _ _ _ Ht Hr) as [Hu _].
    assert (H1 : length (undo_stack E1) = Nat.min 50 (length (undo_stack E) + 1)).
    { rewrite Hu, length_app. cbn [length].
      destruct (50 <=? length (undo_stack E))%nat eqn:H50.
      - apply Nat.leb_le in H50. destruct (undo_stack E); cbn [tl length] in *; lia.
      - apply Nat.leb_gt in H50. lia. }
    rewrite IH by lia. rewrite H1. cbn [length]. lia.
Qed.

Lemma run_edits_sound cs :
  forall E E', run_edits cs E = Some E' -> edits E cs E'.
Proof.
  induction cs as [| c cs IH]; intros E E' H; cbn [run_edits] in H.
  - inversion H. constructor.
  - destruct (takes_snapshot c E) eqn:Ht; [| discriminate].
    destruct (run c E) as [[[] | e] E1] eqn:Hr; [| discriminate].
    econstructor; eauto.
Qed.

Lemma edits_app E cs1 E1 cs2 E2 :
  edits E cs1 E1 -> edits E1 cs2 E2 -> edits E (cs1 ++ cs2) E2.
Proof. induction 1; intros H2; cbn [app]; [assumption | econstructor; eauto]. Qed.

(* ================================================================== *)
(** * The claims about undo and redo *)
(* ================================================================== *)

(** C6, as amended.  For a sequence of at most 50 edits (commands that
    return and take their undo snapshot), invoking [undo] as many times as
    there were edits returns and restores the row contents, the cursor x/y
    and the column/row offsets of the state before the sequence; and after
    such a sequence, [undo] followed by [redo] restores the row contents,
    cursor and offsets of the state after the edits. *)
Theorem undo_restores_state_before_edits (E : EditorState)
        (cs : list command) (E' : EditorState) :
  edits E cs E' ->
  (length cs <= 50)%nat ->
  (exists E'', times (length cs) undo E' = (Ok tt, E'')
               /\ current_state E'' = current_state E)
  /\ (cs <> [] ->
      exists E1 E2, undo E' = (Ok tt, E1) /\ redo E1 = (Ok tt, E2)
                    /\ current_state E2 = current_state E').
Proof.
  intros He Hn.
  destruct (undo_stack_after_edits cs E E' He Hn) as (below & Hu).
  split.
  - destruct (undo_times (snapshots E cs) below E' Hu) as (E'' & Ht & _ & Hhd & Hnil).
    rewrite snapshots_length in Ht. exists E''. split; [exact Ht |].
    destruct cs as [| c cs].
    + inversion He; subst. rewrite (Hnil eq_refl). reflexivity.
    + apply Hhd. reflexivity.
  - intros Hne.
    destruct (exists_last (l := snapshots E cs)) as (l & x & Hl).
    { destruct cs; [congruence | discriminate]. }
    rewrite Hl, app_assoc in Hu.
    apply (undo_then_redo E' x (below ++ l)). rewrite Hu. apply pop_snoc.
Qed.

(** C6 as stated fails for more than 50 edits: after typing 51 characters
    into the empty document, 51 invocations of [undo] leave the first
    character in the document. *)
Lemma undo_after_51_edits_keeps_first_edit :
  exists E',
    edits (initial_state None) fifty_one_edits E'
    /\ fst (times 51 undo E') = Ok tt
    /\ row_contents (snd (times 51 undo E')) = [["a"%char]]
    /\ row_contents (initial_state None) = []
    /\ current_state (snd (times 51 undo E')) <> current_state (initial_state None).
Proof.
  destruct (run_edits fifty_one_edits (initial_state None)) as [E' |] eqn:Hr;
    [| vm_compute in Hr; discriminate].
  exists E'. split; [apply run_edits_sound; exact Hr |].
  vm_compute in Hr. inversion Hr; subst. clear Hr.
  vm_compute. repeat split. discriminate.
Qed.

(** C8.  The undo stack of a running editor never holds more than 50
    snapshots; an edit clears the redo stack and pushes its snapshot,
    dropping the oldest one when the stack is full; and after 60 edits the
    stack holds exactly 50 snapshots: 50 invocations of [undo] return and
    end in the state after the first 10 edits, with the stack empty, so
    that one more [undo] has nothing to undo. *)
Theorem undo_stack_bounded_by_50 :
  (forall size cs,
      (length (undo_stack (snd (run_all cs (initial_state size)))) <= 50)%nat)
  /\ (forall c E,
         takes_snapshot c E = true ->
         redo_stack (snd (run c E)) = []
         /\ undo_stack (snd (run c E))
            = (if (50 <=? length (undo_stack E))%nat
               then tl (undo_stack E) else undo_stack E)
              ++ [current_state E])
  /\ (forall E cs E',
         (length (undo_stack E) <= 50)%nat ->
         edits E cs E' ->
         length cs = 60%nat ->
         length (undo_stack E') = 50%nat
         /\ exists Em E'',
             edits E (firstn 10 cs) Em
             /\ times 50 undo E' = (Ok tt, E'')
             /\ current_state E'' = current_state Em
             /\ undo_stack E'' = []
             /\ undo E'' = (Ok tt, set_status (lit "Nothing to undo") E'')).
Proof.
  split; [| split].
  - intros size cs.
    assert (H : within_bound (snd (run_all cs (initial_state size)))).
    { apply run_all_within_bound. unfold within_bound, initial_state.
      destruct (update_screen_size size). cbn. lia. }
    unfold within_bound in H. lia.
  - intros c E Ht. pose proof (edit_history c E Ht) as H.
    rewrite history_push_undo in H. unfold history, pushed in H.
    cbn [fst] in H. injection H as Hu Hd. split; [exact Hd |].
    rewrite Hu. unfold len. rewrite length_app. cbn [length].
    destruct (50 <=? length (undo_stack E))%nat eqn:H50.
    + apply Nat.leb_le in H50.
      replace (Z.of_nat (length (undo_stack E) + 1) >? 50) with true
        by (symmetry; apply Z.gtb_lt; lia).
      destruct (undo_stack E); [cbn in H50; lia | reflexivity].
    + apply Nat.leb_gt in H50.
      replace (Z.of_nat (length (undo_stack E) + 1) >? 50) with false
        by (symmetry; rewrite Z.gtb_ltb; apply Z.ltb_ge; lia).
      reflexivity.
  - intros E cs E' Hb He Hn.
    assert (Hlen : length (undo_stack E') = 50%nat).
    { rewrite (undo_stack_length_after_edits _ _ _ He Hb), Hn. lia. }
    split; [exact Hlen |].
    rewrite <- (firstn_skipn 10 cs) in He.
    destruct (edits_app_inv _ _ _ _ He) as (Em & H1 & H2).
    assert (H50 : length (skipn 10 cs) = 50%nat) by (rewrite length_skipn; lia).
    destruct (undo_stack_after_edits _ _ _ H2 ltac:(lia)) as (below & Hu).
    assert (below = []).
    { rewrite Hu, length_app, snapshots_length, H50 in Hlen.
      destruct below; [reflexivity | cbn in Hlen; lia]. }
    subst below.
    destruct (undo_times _ _ _ Hu) as (E'' & Ht & Hu'' & Hhd & _).
    rewrite snapshots_length, H50 in Ht.
    exists Em, E''. repeat split; auto.
    + apply Hhd. destruct (skipn 10 cs); [discriminate | reflexivity].
    + apply undo_nothing. exact Hu''.
Qed.

Lemma undo_stack_bounded_by_50_witness :
  length (undo_stack after_sixty_edits) = 50%nat
  /\ exists Em E'',
      edits (initial_state None) (firstn 10 sixty_edits) Em
      /\ times 50 undo after_sixty_edits = (Ok tt, E'')
      /\ current_state E'' = current_state Em
      /\ undo_stack E'' = []
      /\ undo E'' = (Ok tt, set_status (lit "Nothing to undo") E'').
Proof.
  apply (proj2 (proj2 undo_stack_bounded_by_50)
               (initial_state None) sixty_edits after_sixty_edits).
  - vm_compute. lia.
  - apply run_edits_sound. vm_compute. reflexivity.
  - reflexivity.
Defined.

(** C10.  A snapshot holds the row contents, the cursor and the offsets,
    not the modified flag: when [undo] or [redo] finds an entry on its
    stack it returns, the row contents, cursor x/y and column/row offsets
    are those of the entry, and the modified flag is set, whatever the
    entry holds. *)
Theorem undo_redo_set_modified (c : command) (E : EditorState)
        (entry : snapshot) (below : list snapshot) :
  pop (source_stack c E) = Some (entry, below) ->
  exists E', run c E = (Ok tt, E')
             /\ modified E' = true
             /\ current_state E' = entry
             /\ (forall b, current_state (set_modified b E') = current_state E').
Proof.
  destruct c; cbn [source_stack run]; intros Hp; try discriminate.
  - destruct (undo_spec E entry below Hp) as (E' & H & Hs & Hm & _).
    exists E'. repeat split; auto.
  - destruct (redo_spec E entry below Hp) as (E' & H & Hs & Hm & _).
    exists E'. repeat split; auto.
Qed.

Lemma undo_redo_set_modified_witness :
  exists E', run Undo opened_typed = (Ok tt, E')
             /\ modified E' = true
             /\ current_state E' = ([lit "x"], 0, 0, 0, 0)
             /\ (forall b, current_state (set_modified b E') = current_state E').
Proof.
  apply (undo_redo_set_modified Undo opened_typed ([lit "x"], 0, 0, 0, 0) []).
  vm_compute. reflexivity.
Defined.

(* ================================================================== *)
(** * Column mapping *)
(* ================================================================== *)

Lemma advance_step (r : Z) (c : ascii) (cs : str) :
  advance r (c :: cs)
  = advance (if Ascii.eqb c tab then r + (8 - r mod 8) else r + 1) cs.
Proof. reflexivity. Qed.

Lemma advance_ge (cs : str) : forall r, r <= advance r cs.
Proof.
  induction cs as [| c cs IH]; intros r; [cbn; lia |].
  rewrite advance_step.
  pose proof (Z.mod_pos_bound r 8 ltac:(lia)).
  destruct (Ascii.eqb c tab);
    match goal with |- _ <= advance ?r' _ => specialize (IH r') end; lia.
Qed.

Lemma advance_gt (c : ascii) (cs : str) (r : Z) : r < advance r (c :: cs).
Proof.
  rewrite advance_step.
  pose proof (Z.mod_pos_bound r 8 ltac:(lia)).
  destruct (Ascii.eqb c tab);
    match goal with |- _ < advance ?r' _ => pose proof (advance_ge cs r') end; lia.
Qed.

(** Walking towards the rendered column of a prefix stops at the end of
    that prefix. *)
Lemma get_content_col_loop_prefix (cs1 : str) :
  forall cs2 size k r,
    k + len cs1 <= size ->
    get_content_col_loop (cs1 ++ cs2) size (advance r cs1) k r
    = Ok (k + len cs1).
Proof.
  induction cs1 as [| c cs1 IH]; intros cs2 size k r Hk.
  - cbn [app advance fold_left len length Z.of_nat].
    rewrite Z.add_0_r.
    destruct cs2; cbn [get_content_col_loop];
      rewrite Z.ltb_irrefl, andb_false_r; reflexivity.
  - assert (Hlen : len (c :: cs1) = 1 + len cs1)
      by (unfold len; cbn [length]; lia).
    rewrite Hlen in *.
    cbn [app get_content_col_loop].
    replace (k <? size) with true by (symmetry; apply Z.ltb_lt; unfold len in *; lia).
    replace (r <? advance r (c :: cs1)) with true
      by (symmetry; apply Z.ltb_lt, advance_gt).
    cbn [andb]. rewrite advance_step.
    destruct (Ascii.eqb c tab).
    + replace (r + (8 - r mod 8) >? advance (r + (8 - r mod 8)) cs1) with false
        by (symmetry; rewrite Z.gtb_ltb; apply Z.ltb_ge, advance_ge).
      rewrite IH by lia. f_equal. lia.
    + rewrite IH by lia. f_equal. lia.
Qed.

(** The inverse law of the column mapping, for a row whose [content_size]
    covers the offset: it holds in particular for every row whose
    [content_size] is the length of its content. *)
Lemma content_col_of_rendered_col (row : EditorRow) (c : Z) :
  0 <= c <= len (content row) ->
  c <= content_size row ->
  get_content_col row (get_rendered_col row c) = Ok c.
Proof.
  intros Hc Hs. unfold get_content_col, get_rendered_col.
  rewrite Z.min_l by lia.
  rewrite <- (firstn_skipn (Z.to_nat c) (content row)) at 1.
  rewrite get_content_col_loop_prefix.
  - f_equal. unfold len in *. rewrite length_firstn. lia.
  - unfold len in *. rewrite length_firstn. lia.
Qed.

(* ================================================================== *)
(** * The claims decided on concrete documents *)
(* ================================================================== *)

(** Two scenarios of the specification, as checks of the embedding: in a
    C row a line comment swallows the keyword after it, and [def f():]
    typed into a new Python file is one row whose [def] is a keyword,
    followed by the empty row the Enter key opens. *)
Example line_comment_swallows_keyword :
  get_syntax_highlighting (lit "// comment int x") (Some C_SYNTAX) false
  = Ok (repeat HL_COMMENT 16, false).
Proof. vm_compute. reflexivity. Qed.

Example def_typed_into_new_python_file :
  let E := snd (run_all ([Open (Some (lit "new.py")) None None ReadNotFound]
                         ++ typed "def f():" ++ [InsertNewline])
                        (initial_state None)) in
  map content (rows E) = [lit "def f():"; []]
  /\ map highlight (rows E)
     = [[HL_KEYWORD1; HL_KEYWORD1; HL_KEYWORD1; HL_NORMAL; HL_NORMAL;
         HL_NORMAL; HL_NORMAL; HL_NORMAL]; []]
  /\ (cursor_x E, cursor_y E) = (0, 1).
Proof. vm_compute. repeat split. Qed.

(** C1 fails on the code.  [update_rendered] replaces every tab by eight
    spaces, wherever the tab stands: the row [a], tab, [b] is rendered with
    10 characters, while the walk of [get_rendered_col], in which a tab
    advances to the next multiple of 8, ends at column 9. *)
Theorem rendered_length_is_not_rendered_col :
  exists row,
    getitem (rows tab_document) 0 = Ok row
    /\ content row = ["a"%char; tab; "b"%char]
    /\ rendered_content row = lit "a        b"
    /\ rendered_size row = 10
    /\ get_rendered_col row (len (content row)) = 9.
Proof. eexists. vm_compute. repeat split. Qed.

(** C3 fails on the code.  With no mark set and a clipboard that still
    holds the text of an earlier copy, [cut_selection] takes an undo
    snapshot, clears the redo stack and then raises [TypeError] (at
    [sorted([E.mark_y, ...])], [E.mark_y] being [None]). *)
Theorem cut_without_mark_raises :
  mark copied_then_typed = None
  /\ clipboard copied_then_typed = lit "ab"
  /\ fst (cut_selection copied_then_typed) = Raise TypeError
  /\ length (undo_stack copied_then_typed) = 3%nat
  /\ length (undo_stack (snd (cut_selection copied_then_typed))) = 4%nat.
Proof. vm_compute. repeat split. Qed.

(** What C3 asks for does hold while the clipboard is empty. *)
Lemma cut_without_mark_and_clipboard (E : EditorState) :
  mark E = None -> clipboard E = [] ->
  cut_selection E = (Ok tt, set_status (lit "No selection") E).
Proof.
  intros Hm Hc. unfold cut_selection, copy_selection.
  cbv [bind get]. rewrite Hm. cbn. rewrite Hc. reflexivity.
Qed.

(** C5 fails on the code for rows that [paste_clipboard] (or
    [cut_selection], [insert_newline]) has written to: they assign
    [row.content] and leave [row.content_size] as it was, and
    [get_content_col] stops at [content_size].  The pasted row [ab] has
    [content_size] 0: offset 2 maps to rendered column 2, and back to 0. *)
Theorem column_round_trip_fails_after_paste :
  exists row,
    getitem (rows pasted_into_new_row) 1 = Ok row
    /\ content row = lit "ab"
    /\ content_size row = 0
    /\ get_rendered_col row 2 = 2
    /\ get_content_col row (get_rendered_col row 2) = Ok 0.
Proof. eexists. vm_compute. repeat split. Qed.

(** C7 fails on the code.  The line [/*/] opens a block comment and does
    not close it: the highlighter returns the carried-out state [True] for
    it, and classifies a following [x] as block comment when that state is
    carried in.  [update_syntax] takes the carried-in state from
    [has_open_comment] of the previous row, which answers [False] for a row
    that ends in [*/]: the second row is classified normal. *)
Theorem open_comment_not_carried_to_next_row :
  current_syntax open_comment_document = Some C_SYNTAX
  /\ get_syntax_highlighting (lit "/*/") (Some C_SYNTAX) false
     = Ok ([HL_MLCOMMENT; HL_MLCOMMENT; HL_MLCOMMENT], true)
  /\ get_syntax_highlighting (lit "x") (Some C_SYNTAX) true
     = Ok ([HL_MLCOMMENT], true)
  /\ map content (rows open_comment_document) = [lit "/*/"; lit "x"]
  /\ map highlight (rows open_comment_document)
     = [[HL_MLCOMMENT; HL_MLCOMMENT; HL_MLCOMMENT]; [HL_NORMAL]].
Proof. vm_compute. repeat split. Qed.

(** The scenario of C7 on a first line that does not end in [*/]: the
    second line is all block comment, and typing [ */] at the end of the
    first line turns it back to normal. *)
Lemma comment_carried_and_closed :
  let opened := snd (run_all [Open (Some (lit "a.c")) None None
                                   (ReadLines [lit "/* abc"; lit "hello"])]
                             (initial_state None)) in
  let closed := snd (run_all (repeat (MoveCursor ARROW_RIGHT) 6 ++ typed " */")
                             opened) in
  map highlight (rows opened)
  = [repeat HL_MLCOMMENT 6; repeat HL_MLCOMMENT 5]
  /\ map content (rows closed) = [lit "/* abc */"; lit "hello"]
  /\ map highlight (rows closed)
     = [repeat HL_MLCOMMENT 9; repeat HL_NORMAL 5].
Proof. vm_compute. repeat split. Qed.

(** C9 fails on the code.  [insert_newline] assigns the head of the split
    line to [row.content] and calls [update_rendered], which recomputes
    [rendered_size] only: the first row holds [a] with [content_size] 2. *)
Theorem content_size_stale_after_newline :
  exists row,
    getitem (rows split_line) 0 = Ok row
    /\ content row = lit "a"
    /\ content_size row = 2
    /\ len (content row) = 1
    /\ rendered_size row = len (rendered_content row).
Proof. eexists. vm_compute. repeat split. Qed.

(* ================================================================== *)
(** * Save and open *)
(* ================================================================== *)

Lemma rstrip_snoc_newline (s : str) :
  rstrip [newline] (s ++ [newline]) = rstrip [newline] s.
Proof.
  induction s as [| c s IH]; [reflexivity |].
  cbn [app rstrip]. rewrite IH. reflexivity.
Qed.

(** C2, as amended.  The text the terminal save operation writes is the
    rows' raw contents joined by a single newline character with every
    trailing newline character removed: no trailing newline is appended.
    (Nothing is written when no file name is given or the write fails.) *)
Theorem save_writes_rows_without_trailing_newline (E : EditorState)
        (save_as : bool) (name_answer : option str) (w : write_outcome) :
  fst (save_file_terminal save_as name_answer w E)
  = Ok (match w with
        | WriteDone =>
            if name_given E save_as name_answer
            then Some (rstrip [newline] (join newline (row_contents E)))
            else None
        | WriteFails _ => None
        end).
Proof.
  unfold save_file_terminal, name_given. rewrite bind_get.
  assert (Hw : forall E2 name,
             row_contents E2 = row_contents E ->
             file_name E2 = Some name -> name <> [] ->
             fst ((E <- get ;;
                   match file_name E with
                   | None | Some [] =>
                       set_status_message (lit "Save canceled") ;; ret None
                   | Some name =>
                       let text := rstrip [newline] (rows_to_string E) in
                       try_except
                         (match w with
                          | WriteFails msg => raise (OtherError msg)
                          | WriteDone =>
                              modify (set_modified false) ;;
                              set_status_message
                                (str_of_int (len text) ++ lit " bytes saved to " ++ name) ;;
                              rehighlight ;;
                              ret (Some text)
                          end)
                         (fun e =>
                            set_status_message
                              (lit "Error saving file: " ++ exn_message e) ;;
                            ret (match w with
                                 | WriteDone => Some text
                                 | WriteFails _ => None
                                 end))
                   end) E2)
             = Ok (match w with
                   | WriteDone => Some (rstrip [newline] (join newline (row_contents E)))
                   | WriteFails _ => None
                   end)).
  { intros E2 name Hrows Hname Hne. rewrite bind_get, Hname.
    destruct name as [| c name]; [congruence |].
    unfold rows_to_string. rewrite Hrows, rstrip_snoc_newline.
    destruct w as [| msg]; [| reflexivity].
    cbv [try_except bind modify set_status_message ret].
    match goal with
    | |- context [rehighlight ?E3] => destruct (rehighlight E3) as [[[] | e] E4]
    end; reflexivity. }
  destruct save_as; cbn [orb].
  - destruct name_answer as [[| c n] |];
      try (destruct w; reflexivity).
    cbv [_prompt_user_cli select_syntax_highlight set_status_message].
    cbv [bind modify ret negb]. cbv [bind] in Hw.
    apply (Hw _ (c :: n)); [reflexivity | reflexivity | discriminate].
  - destruct (file_name E) as [[| c0 n0] |] eqn:Hf.
    + destruct name_answer as [[| c n] |];
        try (destruct w; reflexivity).
      cbv [_prompt_user_cli select_syntax_highlight set_status_message].
      cbv [bind modify ret negb]. cbv [bind] in Hw.
      apply (Hw _ (c :: n)); [reflexivity | reflexivity | discriminate].
    + cbv [bind ret negb]. cbv [bind] in Hw.
      apply (Hw _ (c0 :: n0)); [reflexivity | exact Hf | discriminate].
    + destruct name_answer as [[| c n] |];
        try (destruct w; reflexivity).
      cbv [_prompt_user_cli select_syntax_highlight set_status_message].
      cbv [bind modify ret negb]. cbv [bind] in Hw.
      apply (Hw _ (c :: n)); [reflexivity | reflexivity | discriminate].
Qed.

(** C2 as stated fails: for the document of the one row [a] the save
    operation writes [a], not [a] and a newline. *)
Lemma save_appends_no_newline :
  row_contents one_line_document = [lit "a"]
  /\ fst (save_file_terminal false None WriteDone one_line_document)
     = Ok (Some (lit "a"))
  /\ join newline (row_contents one_line_document) ++ [newline]
     = ["a"%char; newline]
  /\ fst (save_file_terminal false None WriteDone one_line_document)
     <> Ok (Some (join newline (row_contents one_line_document) ++ [newline])).
Proof. vm_compute. repeat split. discriminate. Qed.

Lemma load_lines (ls : list str) :
  forall E, doc_ok E ->
  exists E', for_each ls load_line E = (Ok tt, E')
             /\ doc_ok E'
             /\ row_contents E'
                = row_contents E ++ map (rstrip [carriage_return; newline]) ls
             /\ outside_document E' = outside_document E.
Proof.
  induction ls as [| l ls IH]; intros E Hok; cbn [for_each map].
  - exists E. rewrite app_nil_r. auto.
  - destruct (insert_editor_row_at_end E (rstrip [carriage_return; newline] l) Hok)
      as (a & E1 & H1 & Hok1 & Hc1 & Ho1).
    destruct (IH E1 Hok1) as (E2 & H2 & Hok2 & Hc2 & Ho2).
    exists E2. split; [| split; [assumption | split]].
    + unfold load_line at 1. cbv zeta. unfold bind at 1.
      rewrite bind_get, (bind_ok _ _ _ _ _ H1). unfold ret at 1. exact H2.
    + rewrite Hc2, Hc1, <- app_assoc. reflexivity.
    + congruence.
Qed.

(** C4, as amended.  When the open operation fails with an error other
    than file-not-found, it returns with the error in the status message;
    the file name is the requested one and the language is selected from
    it, the cursor and the offsets are 0, and the document holds the lines
    read before the failure (none when the file could not be opened): the
    previous rows are gone.  The undo and redo stacks, the mark and the
    clipboard are as before. *)
Theorem failed_open_replaces_document (E : EditorState)
        (name name_answer discard_answer : option str) (requested : str)
        (lines_before : list str) (msg : str) :
  requested_name name name_answer = Some requested ->
  discard_confirmed E discard_answer = true ->
  exists E',
    open_file_terminal name name_answer discard_answer
                       (ReadFails lines_before msg) E = (Ok tt, E')
    /\ file_name E' = Some requested
    /\ current_syntax E' = find_syntax requested
    /\ row_contents E' = map (rstrip [carriage_return; newline]) lines_before
    /\ (cursor_x E', cursor_y E', row_offset E', col_offset E') = (0, 0, 0, 0)
    /\ status_message E' = lit "Error opening file: " ++ msg
    /\ history E' = history E
    /\ mark E' = mark E
    /\ clipboard E' = clipboard E.
Proof.
  intros Hreq Hgo.
  assert (Hnamed : forall E0,
             modified E0 = modified E -> history E0 = history E ->
             mark E0 = mark E -> clipboard E0 = clipboard E ->
             exists E',
               open_named requested discard_answer
                          (ReadFails lines_before msg) E0 = (Ok tt, E')
               /\ file_name E' = Some requested
               /\ current_syntax E' = find_syntax requested
               /\ row_contents E'
                  = map (rstrip [carriage_return; newline]) lines_before
               /\ (cursor_x E', cursor_y E', row_offset E', col_offset E')
                  = (0, 0, 0, 0)
               /\ status_message E' = lit "Error opening file: " ++ msg
               /\ history E' = history E
               /\ mark E' = mark E
               /\ clipboard E' = clipboard E).
  { intros E0 Hm Hh Hk Hc. unfold open_named. rewrite bind_get.
    assert (Hq : exists E1,
               (if modified E0
                then discard <- _prompt_user_cli discard_answer ;;
                     ret (match discard with
                          | None => false
                          | Some d => str_eqb (lower d) (lit "y")
                          end)
                else ret true) E0 = (Ok true, E1)
               /\ history E1 = history E /\ mark E1 = mark E
               /\ clipboard E1 = clipboard E).
    { unfold discard_confirmed in Hgo. rewrite Hm.
      destruct (modified E).
      - destruct discard_answer as [d |]; [| discriminate].
        cbv [_prompt_user_cli set_status_message bind modify ret].
        rewrite Hgo. eexists. split; [reflexivity |]. auto.
      - eexists. split; [reflexivity |]. auto. }
    destruct Hq as (E1 & Hq & Hh1 & Hk1 & Hc1).
    rewrite (bind_ok _ _ _ _ _ Hq). cbn [negb].
    cbv [select_syntax_highlight read_file].
    cbv [bind modify ret try_except raise set_status_message].
    match goal with
    | |- context [for_each lines_before load_line ?E2] =>
        destruct (load_lines lines_before E2) as (E3 & H3 & Hok3 & Hc3 & Ho3);
          [split; [reflexivity | constructor] |]
    end.
    rewrite H3.
    eexists. split; [reflexivity |].
    unfold outside_document in Ho3. cbn in Ho3. inversion Ho3.
    unfold history, row_contents in *. cbn in *.
    repeat split; try congruence. }
  unfold open_file_terminal, requested_name in *.
  destruct name as [n |].
  - inversion Hreq; subst. apply Hnamed; reflexivity.
  - destruct name_answer as [[| c n] |]; try discriminate.
    inversion Hreq; subst.
    cbv [_prompt_user_cli set_status_message bind modify ret].
    apply Hnamed; reflexivity.
Qed.

(** The document of [one_line_document], file [f.txt], and a second file
    whose reading fails at once. *)
Lemma failed_open_replaces_document_witness :
  exists E',
    open_file_terminal (Some (lit "g.py")) None None
                       (ReadFails [] (lit "Permission denied"))
                       one_line_document = (Ok tt, E')
    /\ file_name E' = Some (lit "g.py")
    /\ current_syntax E' = find_syntax (lit "g.py")
    /\ row_contents E' = map (rstrip [carriage_return; newline]) []
    /\ (cursor_x E', cursor_y E', row_offset E', col_offset E') = (0, 0, 0, 0)
    /\ status_message E' = lit "Error opening file: " ++ lit "Permission denied"
    /\ history E' = history one_line_document
    /\ mark E' = mark one_line_document
    /\ clipboard E' = clipboard one_line_document.
Proof.
  apply (failed_open_replaces_document one_line_document
           (Some (lit "g.py")) None None (lit "g.py") []
           (lit "Permission denied")).
  - reflexivity.
  - vm_compute. reflexivity.
Defined.

(** C4 as stated fails: after the failed open of [g.py] the row [a] of
    [f.txt] is gone, and the file name and the language are those of
    [g.py]. *)
Lemma failed_open_loses_document :
  let E' := snd (open_file_terminal (Some (lit "g.py")) None None
                   (ReadFails [] (lit "Permission denied")) one_line_document) in
  row_contents one_line_document = [lit "a"]
  /\ file_name one_line_document = Some (lit "f.txt")
  /\ current_syntax one_line_document = None
  /\ row_contents E' = []
  /\ file_name E' = Some (lit "g.py")
  /\ current_syntax E' = Some PY_SYNTAX
  /\ status_message E' = lit "Error opening file: Permission denied".
Proof. vm_compute. repeat split. Qed.

(** The witness of C6: two characters typed into the empty document. *)
Lemma undo_restores_state_before_edits_witness :
  (exists E'',
      times 2 undo (snd (run_all (typed "ab") (initial_state None)))
      = (Ok tt, E'')
      /\ current_state E'' = current_state (initial_state None))
  /\ (typed "ab" <> [] ->
      exists E1 E2,
        undo (snd (run_all (typed "ab") (initial_state None))) = (Ok tt, E1)
        /\ redo E1 = (Ok tt, E2)
        /\ current_state E2
           = current_state (snd (run_all (typed "ab") (initial_state None)))).
Proof.
  apply (undo_restores_state_before_edits
           (initial_state None) (typed "ab")
           (snd (run_all (typed "ab") (initial_state None)))).
  - apply run_edits_sound. vm_compute. reflexivity.
  - vm_compute. lia.
Defined.

(* ================================================================== *)
(** * Further properties: the highlighter *)
(* ================================================================== *)

Lemma set_nth_length {A : Type} (l : list A) :
  forall p x, length (set_nth l p x) = length l.
Proof.
  induction l as [| h t IH]; intros [| p] x; cbn [set_nth length]; auto.
Qed.

Lemma fill_length (n : nat) :
  forall h i v, length (fill h i n v) = length h.
Proof.
  induction n as [| n IH]; intros h i v; cbn [fill]; [reflexivity |].
  rewrite IH. apply set_nth_length.
Qed.

Lemma scan_step_length line syntax (s : scan) :
  match scan_step line syntax s with
  | inl s' => length (sc_highlight s') = length (sc_highlight s)
  | inr (h, _) => length h = length (sc_highlight s)
  end.
Proof.
  unfold scan_step.
  repeat match goal with
         | |- context [if ?b then _ else _] => destruct b
         | |- context [match ?x with Some _ => _ | None => _ end] => destruct x
         | |- context [let '(_, _) := ?x in _] => destruct x
         end;
    cbn [sc_highlight];
    rewrite ?fill_length, ?set_nth_length; reflexivity.
Qed.

Lemma scan_loop_length line syntax (fuel : nat) :
  forall s h o,
    scan_loop fuel line syntax s = Some (h, o) ->
    length h = length (sc_highlight s).
Proof.
  induction fuel as [| fuel IH]; intros s h o; cbn [scan_loop];
    destruct (sc_i s <? length line)%nat;
    try discriminate; try (intros H; inversion H; reflexivity).
  pose proof (scan_step_length line syntax s) as Hs.
  destruct (scan_step line syntax s) as [s' | [h' o']].
  - intros H. rewrite (IH _ _ _ H). exact Hs.
  - intros H. inversion H; subst. exact Hs.
Qed.

(** X1.  [get_syntax_highlighting] returns for every line, language and
    carried-in state (the scanning loop ends, also when a keyword of length
    0 is consumed without advancing), and the highlight list it returns has
    one class per character of the line. *)
Theorem highlight_has_one_class_per_character (line : str)
        (syntax : option EditorSyntax) (prev_open_comment : bool) :
  exists h o,
    get_syntax_highlighting line syntax prev_open_comment = Ok (h, o)
    /\ length h = length line.
Proof.
  destruct (get_syntax_highlighting_total line syntax prev_open_comment)
    as [[h o] H].
  exists h, o. split; [exact H |].
  unfold get_syntax_highlighting in H. destruct syntax as [syn |].
  - destruct (scan_loop (scan_fuel line) line syn _) as [r |] eqn:Hl;
      [| discriminate].
    inversion H; subst.
    rewrite (scan_loop_length _ _ _ _ _ _ Hl). cbn [sc_highlight].
    apply repeat_length.
  - inversion H. apply repeat_length.
Qed.

Lemma set_nth_Forall {A : Type} (P : A -> Prop) (l : list A) :
  forall p x, Forall P l -> P x -> Forall P (set_nth l p x).
Proof.
  induction l as [| h t IH]; intros [| p] x Hl Hx; cbn [set_nth];
    inversion Hl; subst; auto.
Qed.

Lemma fill_Forall (P : hl -> Prop) (n : nat) :
  forall h i v, Forall P h -> P v -> Forall P (fill h i n v).
Proof.
  induction n as [| n IH]; intros h i v Hh Hv; cbn [fill]; auto.
  apply IH; auto. apply set_nth_Forall; auto.
Qed.

Lemma find_keyword_class line i kws klen ty :
  find_keyword line i kws = Some (klen, ty) ->
  ty = HL_KEYWORD1 \/ ty = HL_KEYWORD2.
Proof.
  induction kws as [| kw kws IH]; cbn [find_keyword]; [discriminate |].
  destruct (match_keyword line i kw) as [[k t] |] eqn:Hm; [| exact IH].
  intros H. inversion H; subst. unfold match_keyword in Hm.
  destruct (_ && _) in Hm; [| discriminate].
  inversion Hm. destruct (endswith kw [vertical_bar]); auto.
Qed.

Lemma scan_step_no_block_comment line syntax (s : scan) :
  multiline_comment_start syntax = [] ->
  sc_in_comment s = false ->
  no_block_comment (sc_highlight s) ->
  match scan_step line syntax s with
  | inl s' => sc_in_comment s' = false /\ no_block_comment (sc_highlight s')
  | inr (h, o) => o = false /\ no_block_comment h
  end.
Proof.
  intros Hm Hc Hh. unfold scan_step. rewrite Hm, Hc. cbn [nonempty andb].
  destruct (nonempty (singleline_comment_start syntax) && _ && _ && _).
  { split; [reflexivity |]. apply fill_Forall; [exact Hh | discriminate]. }
  destruct (sc_in_string s) as [q |].
  - destruct (_ && _); cbn [sc_in_comment sc_highlight]; split; auto;
      repeat apply set_nth_Forall; auto; discriminate.
  - destruct (_ || _).
    { cbn [sc_in_comment sc_highlight]. split; auto.
      apply set_nth_Forall; auto; discriminate. }
    destruct (_ || _).
    { cbn [sc_in_comment sc_highlight]. split; auto.
      apply set_nth_Forall; auto; discriminate. }
    destruct (if sc_prev_sep s then _ else None) as [[klen ty] |] eqn:Hk;
      cbn [sc_in_comment sc_highlight]; split; auto.
    apply fill_Forall; auto.
    destruct (sc_prev_sep s); [| discriminate].
    destruct (find_keyword_class _ _ _ _ _ Hk); subst; discriminate.
Qed.

Lemma scan_loop_no_block_comment line syntax (fuel : nat) :
  multiline_comment_start syntax = [] ->
  forall s h o,
    sc_in_comment s = false ->
    no_block_comment (sc_highlight s) ->
    scan_loop fuel line syntax s = Some (h, o) ->
    o = false /\ no_block_comment h.
Proof.
  intros Hm. induction fuel as [| fuel IH]; intros s h o Hc Hh; cbn [scan_loop];
    destruct (sc_i s <? length line)%nat;
    try discriminate;
    try (intros H; inversion H; subst; split; [exact Hc | exact Hh]).
  pose proof (scan_step_no_block_comment line syntax s Hm Hc Hh) as Hs.
  destruct (scan_step line syntax s) as [s' | [h' o']].
  - destruct Hs. apply IH; assumption.
  - intros H. inversion H; subst. exact Hs.
Qed.

(** X2.  For a language without a multi-line comment start marker (the
    Python entry of the table) a line scanned with no comment carried in
    never gets the block-comment class and never carries a comment out. *)
Theorem no_block_comment_without_markers (line : str) (syntax : EditorSyntax) :
  multiline_comment_start syntax = [] ->
  exists h,
    get_syntax_highlighting line (Some syntax) false = Ok (h, false)
    /\ ~ In HL_MLCOMMENT h.
Proof.
  intros Hm.
  destruct (get_syntax_highlighting_total line (Some syntax) false) as [[h o] H].
  pose proof H as H'. unfold get_syntax_highlighting in H'.
  destruct (scan_loop (scan_fuel line) line syntax _) as [r |] eqn:Hl;
    [| discriminate].
  inversion H'; subst.
  assert (Hn : no_block_comment (repeat HL_NORMAL (length line))).
  { unfold no_block_comment. apply Forall_forall. intros x Hx.
    apply repeat_spec in Hx. subst. discriminate. }
  destruct (scan_loop_no_block_comment line syntax (scan_fuel line) Hm
              (mkScan 0 true None false (repeat HL_NORMAL (length line)))
              h o eq_refl Hn Hl) as [Ho Hh].
  subst o. exists h. split; [exact H |].
  intros Hin. unfold no_block_comment in Hh. rewrite Forall_forall in Hh.
  exact (Hh _ Hin eq_refl).
Qed.

Lemma no_block_comment_without_markers_witness :
  exists h,
    get_syntax_highlighting (lit "x = 1 # /* c") (Some PY_SYNTAX) false
    = Ok (h, false)
    /\ ~ In HL_MLCOMMENT h.
Proof.
  apply (no_block_comment_without_markers (lit "x = 1 # /* c") PY_SYNTAX).
  reflexivity.
Defined.

Lemma set_nth_middle {A : Type} (l1 : list A) :
  forall x y l2, set_nth (l1 ++ x :: l2) (length l1) y = l1 ++ y :: l2.
Proof.
  induction l1 as [| a l1 IH]; intros x y l2; cbn [app length set_nth];
    [reflexivity |].
  rewrite IH. reflexivity.
Qed.

Lemma occurs_false (p s : str) (i : nat) :
  occurs p s = false -> (i <= length s)%nat -> startswith s p i = false.
Proof.
  unfold occurs. intros H Hi.
  destruct (startswith s p i) eqn:Hs; [| reflexivity].
  assert (Hex : existsb (fun i => startswith s p i) (seq 0 (S (length s))) = true).
  { apply existsb_exists. exists i. split; [| exact Hs].
    apply in_seq. lia. }
  congruence.
Qed.

Lemma scan_loop_inside_comment line syntax (k : nat) :
  nonempty (multiline_comment_end syntax) = false
  \/ occurs (multiline_comment_end syntax) line = false ->
  forall i fuel ps,
    (i + k = length line)%nat -> (k < fuel)%nat ->
    scan_loop fuel line syntax
              (mkScan i ps None true
                      (repeat HL_MLCOMMENT i ++ repeat HL_NORMAL k))
    = Some (repeat HL_MLCOMMENT (length line), true).
Proof.
  intros Hend. induction k as [| k IH]; intros i fuel ps Hi Hf.
  - destruct fuel; [lia |]. cbn [scan_loop sc_i sc_highlight sc_in_comment].
    replace (i <? length line)%nat with false
      by (symmetry; apply Nat.ltb_ge; lia).
    cbn [repeat]. rewrite app_nil_r. f_equal. f_equal. f_equal. lia.
  - destruct fuel; [lia |]. cbn [scan_loop sc_i].
    replace (i <? length line)%nat with true
      by (symmetry; apply Nat.ltb_lt; lia).
    unfold scan_step. cbn [sc_i sc_in_comment sc_in_string sc_highlight negb].
    rewrite andb_false_r. cbn [andb].
    assert (Hc : nonempty (multiline_comment_end syntax)
                 && startswith line (multiline_comment_end syntax) i
                 && (0 <? length (multiline_comment_end syntax))%nat = false).
    { destruct Hend as [Hn | Ho].
      - rewrite Hn. reflexivity.
      - rewrite (occurs_false _ _ i Ho) by lia. rewrite andb_false_r. reflexivity. }
    rewrite Hc.
    cbn [repeat].
    replace (set_nth (repeat HL_MLCOMMENT i ++ HL_NORMAL :: repeat HL_NORMAL k)
                     i HL_MLCOMMENT)
      with (repeat HL_MLCOMMENT (i + 1) ++ repeat HL_NORMAL k).
    + apply IH; lia.
    + rewrite <- (repeat_length HL_MLCOMMENT i) at 3.
      rewrite set_nth_middle, repeat_app, <- app_assoc. reflexivity.
Qed.

(** X3.  A line scanned with a block comment carried in, in which the
    end marker of the language does not occur (or whose language has no end
    marker), is classified block comment throughout and carries the
    comment out, whatever else it holds (line-comment markers, quotes,
    keywords). *)
Theorem carried_comment_covers_line (line : str) (syntax : EditorSyntax) :
  nonempty (multiline_comment_end syntax) = false
  \/ occurs (multiline_comment_end syntax) line = false ->
  get_syntax_highlighting line (Some syntax) true
  = Ok (repeat HL_MLCOMMENT (length line), true).
Proof.
  intros Hend. unfold get_syntax_highlighting.
  pose proof (scan_loop_inside_comment line syntax (length line) Hend 0
                (scan_fuel line) true eq_refl) as H.
  cbn [repeat app] in H. rewrite H; [reflexivity |].
  unfold scan_fuel. lia.
Qed.

Lemma carried_comment_covers_line_witness :
  get_syntax_highlighting (lit "int x; // 'a' /* b") (Some C_SYNTAX) true
  = Ok (repeat HL_MLCOMMENT (length (lit "int x; // 'a' /* b")), true).
Proof.
  apply (carried_comment_covers_line (lit "int x; // 'a' /* b") C_SYNTAX).
  right. reflexivity.
Defined.

Lemma firstn_S_set_nth {A : Type} (h : list A) :
  forall i v, (i < length h)%nat ->
              firstn (S i) (set_nth h i v) = firstn i h ++ [v].
Proof.
  induction h as [| a h IH]; intros [| i] v Hi; cbn [length] in Hi; try lia.
  - reflexivity.
  - cbn [set_nth]. rewrite !firstn_cons. rewrite IH by lia. reflexivity.
Qed.

Lemma fill_to_end (n : nat) :
  forall (h : list hl) i v,
    (i + n = length h)%nat -> fill h i n v = firstn i h ++ repeat v n.
Proof.
  induction n as [| n IH]; intros h i v Hn; cbn [fill repeat].
  - rewrite app_nil_r. rewrite firstn_all2 by lia. reflexivity.
  - rewrite IH by (rewrite set_nth_length; lia).
    rewrite firstn_S_set_nth by lia. rewrite <- app_assoc. reflexivity.
Qed.

(** X4.  A line that begins with the line-comment marker of the language,
    scanned with no block comment carried in, is classified comment
    throughout and carries nothing out. *)
Theorem line_comment_covers_line (line : str) (syntax : EditorSyntax) :
  nonempty (singleline_comment_start syntax) = true ->
  is_prefix (singleline_comment_start syntax) line = true ->
  get_syntax_highlighting line (Some syntax) false
  = Ok (repeat HL_COMMENT (length line), false).
Proof.
  intros Hn Hp. unfold get_syntax_highlighting, scan_fuel.
  destruct line as [| c line].
  { destruct (singleline_comment_start syntax); discriminate. }
  replace (2 * length (c :: line) + 2)%nat
    with (S (2 * length (c :: line) + 1))%nat by lia.
  cbn [scan_loop sc_i].
  replace (0 <? length (c :: line))%nat with true by reflexivity.
  unfold scan_step. cbn [sc_i sc_in_string sc_in_comment sc_highlight negb].
  unfold startswith. cbn [skipn]. rewrite Hn, Hp. cbn [andb].
  rewrite fill_to_end by (rewrite repeat_length; lia).
  rewrite Nat.sub_0_r. reflexivity.
Qed.

Lemma line_comment_covers_line_witness :
  get_syntax_highlighting (lit "# def x: 'a'") (Some PY_SYNTAX) false
  = Ok (repeat HL_COMMENT (length (lit "# def x: 'a'")), false).
Proof.
  apply (line_comment_covers_line (lit "# def x: 'a'") PY_SYNTAX);
    reflexivity.
Defined.

(* ================================================================== *)
(** * Further properties: the column mapping *)
(* ================================================================== *)

Lemma advance_app (a b : str) (r : Z) :
  advance r (a ++ b) = advance (advance r a) b.
Proof. unfold advance. apply fold_left_app. Qed.


Lemma rendered_col_prefix (row : EditorRow) (c : Z) :
  0 <= c <= len (content row) ->
  get_rendered_col row c = advance 0 (firstn (Z.to_nat c) (content row)).
Proof. intros H. unfold get_rendered_col. rewrite Z.min_l by lia. reflexivity. Qed.

(** X5.  The inverse law of the column mapping on a row whose
    [content_size] is the length of its content (as the constructor and the
    row methods leave it): every raw offset [c] of the row is found again
    from its rendered column. *)
Theorem column_mapping_inverse (row : EditorRow) (c : Z) :
  content_size row = len (content row) ->
  0 <= c <= len (content row) ->
  get_content_col row (get_rendered_col row c) = Ok c.
Proof.
  intros Hs Hc. apply content_col_of_rendered_col; lia.
Qed.

Lemma column_mapping_inverse_witness :
  get_content_col
    (mkEditorRow 0 ["a"%char; tab; "b"%char] 3 (lit "a        b") 10 [] false)
    (get_rendered_col
       (mkEditorRow 0 ["a"%char; tab; "b"%char] 3 (lit "a        b") 10 [] false)
       2)
  = Ok 2.
Proof.
  apply (column_mapping_inverse
           (mkEditorRow 0 ["a"%char; tab; "b"%char] 3 (lit "a        b") 10
                        [] false) 2).
  - reflexivity.
  - vm_compute. split; discriminate.
Defined.




Lemma firstn_succ_nth {A : Type} (l : list A) :
  forall n x, nth_error l n = Some x -> firstn (S n) l = firstn n l ++ [x].
Proof.
  induction l as [| a l IH]; intros [| n] x H; cbn in H; try discriminate.
  - inversion H. reflexivity.
  - rewrite !firstn_cons. rewrite (IH _ _ H). reflexivity.
Qed.

(** X7.  The walk of [get_rendered_col], one character at a time: over a
    tab the column goes to the next multiple of 8 (by 1 to 8 columns), over
    any other character it goes one column further. *)
Theorem rendered_col_step (row : EditorRow) (n : nat) (ch : ascii) :
  nth_error (content row) n = Some ch ->
  let before := get_rendered_col row (Z.of_nat n) in
  let after := get_rendered_col row (Z.of_nat n + 1) in
  if Ascii.eqb ch tab
  then after mod 8 = 0 /\ before < after <= before + 8
  else after = before + 1.
Proof.
  intros Hn.
  assert (Hlt : (n < length (content row))%nat)
    by (apply nth_error_Some; congruence).
  cbv zeta.
  rewrite !rendered_col_prefix by (unfold len; lia).
  replace (Z.to_nat (Z.of_nat n + 1)) with (S n) by lia.
  rewrite Nat2Z.id, (firstn_succ_nth _ _ _ Hn), advance_app.
  set (r := advance 0 (firstn n (content row))).
  cbn [advance fold_left].
  pose proof (Z.mod_pos_bound r 8 ltac:(lia)) as Hm.
  destruct (Ascii.eqb ch tab); [| reflexivity].
  split; [| lia].
  rewrite (Z.div_mod r 8) at 1 by lia.
  replace (8 * (r / 8) + r mod 8 + (8 - r mod 8)) with ((r / 8 + 1) * 8) by lia.
  apply Z.mod_mul. lia.
Qed.

Lemma rendered_col_step_witness :
  let row := mkEditorRow 0 ["a"%char; tab; "b"%char] 3 (lit "a        b") 10
                         [] false in
  let before := get_rendered_col row (Z.of_nat 1) in
  let after := get_rendered_col row (Z.of_nat 1 + 1) in
  if Ascii.eqb tab tab
  then after mod 8 = 0 /\ before < after <= before + 8
  else after = before + 1.
Proof.
  apply (rendered_col_step
           (mkEditorRow 0 ["a"%char; tab; "b"%char] 3 (lit "a        b") 10
                        [] false) 1 tab).
  reflexivity.
Defined.

Lemma get_content_col_loop_spec (cs : str) :
  forall size r k rd,
    size - k <= len cs ->
    exists j : nat,
      (j <= length cs)%nat
      /\ get_content_col_loop cs size r k rd = Ok (k + Z.of_nat j)
      /\ k + Z.of_nat j <= Z.max k size
      /\ (rd <= r -> advance rd (firstn j cs) <= r)
      /\ (k + Z.of_nat j < size -> r < advance rd (firstn (S j) cs)).
Proof.
  induction cs as [| ch cs IH]; intros size r k rd Hs.
  - exists 0%nat. cbn [get_content_col_loop].
    replace (k <? size) with false
      by (symmetry; apply Z.ltb_ge; unfold len in Hs; cbn in Hs; lia).
    cbn [andb]. rewrite Z.add_0_r.
    repeat split; try lia; try (cbn; lia).
    unfold len in Hs. cbn in Hs. lia.
  - assert (Hl : len (ch :: cs) = 1 + len cs) by (unfold len; cbn [length]; lia).
    rewrite Hl in Hs.
    cbn [get_content_col_loop].
    pose proof (Z.mod_pos_bound rd 8 ltac:(lia)) as Hm.
    destruct ((k <? size) && (rd <? r)) eqn:Hc.
    + apply andb_prop in Hc. destruct Hc as [Hk Hr].
      apply Z.ltb_lt in Hk. apply Z.ltb_lt in Hr.
      assert (Hstep : forall rd',
                 rd' <= r ->
                 rd' = (if Ascii.eqb ch tab then rd + (8 - rd mod 8) else rd + 1) ->
                 exists j : nat,
                   (j <= length (ch :: cs))%nat
                   /\ get_content_col_loop cs size r (k + 1) rd' = Ok (k + Z.of_nat j)
                   /\ k + Z.of_nat j <= Z.max k size
                   /\ (rd <= r -> advance rd (firstn j (ch :: cs)) <= r)
                   /\ (k + Z.of_nat j < size ->
                       r < advance rd (firstn (S j) (ch :: cs)))).
      { intros rd' Hle Heq.
        destruct (IH size r (k + 1) rd' ltac:(lia)) as (j & Hj & Hres & Hmax & Hlo & Hhi).
        exists (S j). cbn [length].
        split; [lia |]. split; [rewrite Hres; f_equal; lia |].
        split; [lia |].
        rewrite !firstn_cons, !advance_step, <- Heq.
        split; [intros _; apply Hlo; exact Hle |].
        intros Hlt. apply Hhi. lia. }
      destruct (Ascii.eqb ch tab) eqn:Ht.
      * destruct (rd + (8 - rd mod 8) >? r) eqn:Hov.
        -- apply Z.gtb_lt in Hov.
           exists 0%nat. rewrite Z.add_0_r. cbn [length firstn].
           repeat split; try lia; try (unfold advance; cbn [fold_left]; lia).
           intros _. rewrite advance_step, Ht. unfold advance. cbn [fold_left]. lia.
        -- rewrite Z.gtb_ltb in Hov. apply Z.ltb_ge in Hov.
           apply Hstep; [exact Hov | reflexivity].
      * apply Hstep; [lia | reflexivity].
    + exists 0%nat. rewrite Z.add_0_r. cbn [length firstn].
      repeat split; try lia; try (unfold advance; cbn [fold_left]; lia).
      intros Hlt. apply andb_false_iff in Hc.
      destruct Hc as [Hc | Hc]; apply Z.ltb_ge in Hc; [lia |].
      pose proof (advance_gt ch [] rd). lia.
Qed.

(** X8.  On a row whose [content_size] does not exceed the length of its
    content, [get_content_col] returns for every rendered column; the raw
    offset [k] it returns lies in the row, its own rendered column does not
    overshoot the column asked for, and the next character would (a column
    inside the span of a tab resolves to the offset of the tab). *)
Theorem content_col_never_overshoots (row : EditorRow) (rendered_col : Z) :
  content_size row <= len (content row) ->
  exists k,
    get_content_col row rendered_col = Ok k
    /\ 0 <= k <= Z.max 0 (content_size row)
    /\ (0 <= rendered_col -> get_rendered_col row k <= rendered_col)
    /\ (k < content_size row -> rendered_col < get_rendered_col row (k + 1)).
Proof.
  intros Hs. unfold get_content_col.
  destruct (get_content_col_loop_spec (content row) (content_size row)
              rendered_col 0 0 ltac:(lia))
    as (j & Hj & Hres & Hmax & Hlo & Hhi).
  exists (Z.of_nat j). rewrite Hres. cbn [Z.add] in *.
  split; [reflexivity |]. split; [lia |]. split.
  - intros H0. rewrite rendered_col_prefix by (unfold len; lia).
    rewrite Nat2Z.id. apply Hlo. exact H0.
  - intros Hlt. rewrite rendered_col_prefix by (unfold len in *; lia).
    replace (Z.to_nat (Z.of_nat j + 1)) with (S j) by lia.
    apply Hhi. exact Hlt.
Qed.

Lemma content_col_never_overshoots_witness :
  let row := mkEditorRow 0 ["a"%char; tab; "b"%char] 3 (lit "a        b") 10
                         [] false in
  exists k,
    get_content_col row 5 = Ok k
    /\ 0 <= k <= Z.max 0 (content_size row)
    /\ (0 <= 5 -> get_rendered_col row k <= 5)
    /\ (k < content_size row -> 5 < get_rendered_col row (k + 1)).
Proof.
  apply (content_col_never_overshoots
           (mkEditorRow 0 ["a"%char; tab; "b"%char] 3 (lit "a        b") 10
                        [] false) 5).
  vm_compute. discriminate.
Defined.

Lemma get_content_col_loop_past_end (cs : str) :
  forall size r k rd,
    k + len cs < size -> advance rd cs < r ->
    get_content_col_loop cs size r k rd = Raise IndexError.
Proof.
  induction cs as [| ch cs IH]; intros size r k rd Hs Hr.
  - cbn [get_content_col_loop]. unfold len in Hs. cbn in Hs, Hr.
    replace (k <? size) with true by (symmetry; apply Z.ltb_lt; lia).
    replace (rd <? r) with true by (symmetry; apply Z.ltb_lt; lia).
    reflexivity.
  - assert (Hl : len (ch :: cs) = 1 + len cs) by (unfold len; cbn [length]; lia).
    rewrite Hl in Hs. rewrite advance_step in Hr.
    cbn [get_content_col_loop].
    pose proof (Z.mod_pos_bound rd 8 ltac:(lia)) as Hm.
    assert (Hnn : 0 <= len cs) by (unfold len; lia).
    replace (k <? size) with true by (symmetry; apply Z.ltb_lt; lia).
    destruct (Ascii.eqb ch tab).
    + pose proof (advance_ge cs (rd + (8 - rd mod 8))).
      replace (rd <? r) with true by (symmetry; apply Z.ltb_lt; lia).
      cbn [andb].
      replace (rd + (8 - rd mod 8) >? r) with false
        by (symmetry; rewrite Z.gtb_ltb; apply Z.ltb_ge; lia).
      apply IH; [lia | exact Hr].
    + pose proof (advance_ge cs (rd + 1)).
      replace (rd <? r) with true by (symmetry; apply Z.ltb_lt; lia).
      cbn [andb]. apply IH; [lia | exact Hr].
Qed.

(** X9.  On a row whose [content_size] is larger than its content is
    long (as [insert_newline] and [cut_selection] can leave it),
    [get_content_col] raises [IndexError] for every rendered column past
    the end of the content: its loop indexes [row.content] up to
    [content_size]. *)
Theorem content_col_raises_on_stale_size (row : EditorRow) (rendered_col : Z) :
  len (content row) < content_size row ->
  get_rendered_col row (len (content row)) < rendered_col ->
  get_content_col row rendered_col = Raise IndexError.
Proof.
  intros Hs Hr. unfold get_content_col.
  apply get_content_col_loop_past_end; [lia |].
  rewrite rendered_col_prefix in Hr by (unfold len; lia).
  unfold len in Hr. rewrite Nat2Z.id, firstn_all in Hr. exact Hr.
Qed.

Lemma content_col_raises_on_stale_size_witness :
  get_content_col (mkEditorRow 0 (lit "a") 2 (lit "a") 1 [HL_NORMAL] false) 2
  = Raise IndexError.
Proof.
  apply (content_col_raises_on_stale_size
           (mkEditorRow 0 (lit "a") 2 (lit "a") 1 [HL_NORMAL] false) 2).
  - vm_compute. reflexivity.
  - vm_compute. reflexivity.
Defined.

Lemma render_cons (c : ascii) (cs : str) :
  render (c :: cs)
  = (if Ascii.eqb c tab then lit "        " else [c]) ++ render cs.
Proof. reflexivity. Qed.

Lemma tabs_cons (c : ascii) (cs : str) :
  tabs (c :: cs) = (if Ascii.eqb c tab then 1 else 0) + tabs cs.
Proof.
  unfold tabs, len. cbn [filter]. rewrite (Ascii.eqb_sym tab c).
  destruct (Ascii.eqb c tab); cbn [length]; lia.
Qed.

(** X10.  The rendered form [update_rendered] stores holds no tab, is 7
    characters longer than the content per tab of the content, and is never
    shorter than the rendered column [get_rendered_col] walks to. *)
Theorem rendered_form_length (row : EditorRow) (c : Z) :
  ~ In tab (render (content row))
  /\ len (render (content row)) = len (content row) + 7 * tabs (content row)
  /\ get_rendered_col row c <= len (render (content row)).
Proof.
  assert (Hlen : forall cs, len (render cs) = len cs + 7 * tabs cs).
  { induction cs as [| a cs IH]; [reflexivity |].
    rewrite render_cons, tabs_cons. unfold len in *.
    rewrite length_app. cbn [length].
    destruct (Ascii.eqb a tab); cbn [length lit list_ascii_of_string]; lia. }
  assert (Hadv : forall cs r, advance r cs <= r + len cs + 7 * tabs cs).
  { induction cs as [| a cs IH]; intros r; [cbn; lia |].
    rewrite advance_step, tabs_cons.
    assert (Hl : len (a :: cs) = 1 + len cs) by (unfold len; cbn [length]; lia).
    rewrite Hl. pose proof (Z.mod_pos_bound r 8 ltac:(lia)).
    destruct (Ascii.eqb a tab);
      match goal with |- advance ?r' _ <= _ => specialize (IH r') end; lia. }
  assert (Htabs : forall cs n, tabs (firstn n cs) <= tabs cs).
  { assert (Hnn : forall cs, 0 <= tabs cs) by (intros cs; unfold tabs, len; lia).
    induction cs as [| a cs IH]; intros [| n]; cbn [firstn];
      rewrite ?tabs_cons; change (tabs []) with 0; try lia.
    - specialize (Hnn cs). destruct (Ascii.eqb a tab); lia.
    - specialize (IH n). lia. }
  split; [| split].
  - induction (content row) as [| a cs IH]; [intros [] |].
    rewrite render_cons. intros Hin. apply in_app_or in Hin.
    destruct Hin as [Hin | Hin]; [| exact (IH Hin)].
    destruct (Ascii.eqb a tab) eqn:Ha.
    + cbn in Hin. unfold tab in Hin.
      repeat destruct Hin as [Hin | Hin]; try discriminate; exact Hin.
    + destruct Hin as [Hin | []]. subst a.
      rewrite Ascii.eqb_refl in Ha. discriminate.
  - apply Hlen.
  - rewrite Hlen. unfold get_rendered_col.
    set (n := Z.to_nat (Z.min c (len (content row)))).
    pose proof (Hadv (firstn n (content row)) 0).
    pose proof (Htabs (content row) n).
    assert (len (firstn n (content row)) <= len (content row))
      by (unfold len; rewrite length_firstn; lia).
    lia.
Qed.

(* ================================================================== *)
(** * Further properties: language selection, copy and cursor movement *)
(* ================================================================== *)

(** X11.  The language is selected by the end of the file name, whatever
    comes before it: the five C extensions select the C entry, [.clike],
    [.js] and [.py] their entries; the match is case-sensitive, and a name
    with another extension selects no language. *)
Theorem syntax_selected_by_extension (base : str) :
  find_syntax (base ++ lit ".c") = Some C_SYNTAX
  /\ find_syntax (base ++ lit ".h") = Some C_SYNTAX
  /\ find_syntax (base ++ lit ".cpp") = Some C_SYNTAX
  /\ find_syntax (base ++ lit ".hpp") = Some C_SYNTAX
  /\ find_syntax (base ++ lit ".cc") = Some C_SYNTAX
  /\ find_syntax (base ++ lit ".clike") = Some CLIKE_SYNTAX
  /\ find_syntax (base ++ lit ".js") = Some JS_SYNTAX
  /\ find_syntax (base ++ lit ".py") = Some PY_SYNTAX
  /\ find_syntax (base ++ lit ".PY") = None
  /\ find_syntax (base ++ lit ".txt") = None.
Proof.
  unfold find_syntax, endswith.
  repeat split; cbn -[rev]; rewrite !rev_app_distr; reflexivity.
Qed.

(** X12.  [copy_selection] changes nothing but the clipboard and the
    status message (the document, the cursor, the mark and the two stacks
    are as before, also when it raises); with no mark set it leaves the
    clipboard as it is and reports "No selection". *)
Theorem copy_changes_clipboard_only (E : EditorState) :
  besides_clipboard (snd (copy_selection E)) = besides_clipboard E
  /\ (mark E = None ->
      copy_selection E = (Ok tt, set_status (lit "No selection") E)).
Proof.
  split.
  - assert (H : frame besides_clipboard copy_selection)
      by (unfold copy_selection, set_status_message; frame_tac).
    apply H.
  - intros Hm. unfold copy_selection. rewrite bind_get, Hm. reflexivity.
Qed.

Lemma bind_inv {A B : Type} (m : M A) (k : A -> M B) E b E' :
  bind m k E = (Ok b, E') ->
  exists a E1, m E = (Ok a, E1) /\ k a E1 = (Ok b, E').
Proof.
  unfold bind. destruct (m E) as [[a | e] E1]; [eauto | discriminate].
Qed.

Lemma row_or_none_state (i : Z) (E : EditorState) :
  snd (row_or_none i E) = E.
Proof.
  unfold row_or_none. rewrite bind_get.
  destruct (i <? total_rows E); [| reflexivity].
  unfold bind, lift. destruct (getitem (rows E) i); reflexivity.
Qed.

(** X13.  [move_cursor] changes nothing but the cursor and the two scroll
    offsets, whatever the key and the outcome. *)
Theorem move_cursor_moves_cursor_only (key : arrow) (E : EditorState) :
  besides_cursor (snd (move_cursor key E)) = besides_cursor E.
Proof.
  assert (Hr : forall i, frame besides_cursor (row_or_none i))
    by (intros i; unfold row_or_none; frame_tac).
  assert (H : frame besides_cursor (move_cursor key)).
  { unfold move_cursor.
    repeat first
      [ apply Hr
      | match goal with
        | |- frame _ (bind _ _) => apply frame_bind; [ | intros ? ]
        | |- frame _ (ret _) => apply frame_ret
        | |- frame _ (lift _) => apply frame_lift
        | |- frame _ get => apply frame_get
        | |- frame _ (modify _) => apply frame_modify; solve [frame_fields]
        | |- frame _ (if ?b then _ else _) => destruct b
        | |- frame _ (match ?x with _ => _ end) => destruct x
        end ]. }
  apply H.
Qed.

(** X14.  After every [move_cursor] that returns, the cursor is on or
    before the end of its row: the rendered column [col_offset + cursor_x]
    is at most the rendered length of the row at [row_offset + cursor_y]
    (0 when the cursor is past the last row). *)
Theorem move_cursor_clamps_column (key : arrow) (E E' : EditorState) :
  move_cursor key E = (Ok tt, E') ->
  exists row_len,
    cursor_row_length E' = Ok row_len
    /\ col_offset E' + cursor_x E' <= row_len.
Proof.
  unfold move_cursor. intros H.
  apply bind_inv in H. destruct H as (E0 & E1 & _ & H).
  apply bind_inv in H. destruct H as (row & E2 & _ & H).
  apply bind_inv in H. destruct H as ([] & E3 & _ & H).
  rewrite bind_get in H.
  unfold cursor_row_length.
  pose proof (row_or_none_state (row_offset E3 + cursor_y E3) E3) as Hst.
  unfold bind at 1 in H.
  destruct (row_or_none (row_offset E3 + cursor_y E3) E3) as [[r | e] E4] eqn:Hrow;
    [| discriminate].
  cbn [snd] in Hst. subst E4.
  set (row_len := match r with Some row => rendered_size row | None => 0 end) in *.
  assert (Hsame : forall x c,
             fst (row_or_none (row_offset E3 + cursor_y E3)
                              (set_cursor_x x (set_col_offset c E3)))
             = Ok r).
  { intros x c. unfold row_or_none in *. rewrite bind_get in *.
    cbn [total_rows rows row_offset cursor_y set_cursor_x set_col_offset].
    destruct (row_offset E3 + cursor_y E3 <? total_rows E3).
    - unfold bind, lift in *.
      destruct (getitem (rows E3) (row_offset E3 + cursor_y E3));
        inversion Hrow; reflexivity.
    - inversion Hrow. reflexivity. }
  destruct (col_offset E3 + cursor_x E3 >? row_len) eqn:Hgt.
  - cbv [bind modify] in H. cbn [cursor_x set_cursor_x col_offset] in H.
    exists row_len.
    destruct (row_len - col_offset E3 <? 0) eqn:Hneg; inversion H; subst E'; clear H.
    + cbn [row_offset cursor_y set_cursor_x set_col_offset col_offset cursor_x].
      change (set_cursor_x 0 (set_col_offset row_len
                (set_cursor_x (row_len - col_offset E3) E3)))
        with (set_cursor_x 0 (set_col_offset row_len E3)).
      rewrite Hsame. split; [destruct r; reflexivity | lia].
    + cbn [row_offset cursor_y set_cursor_x col_offset cursor_x].
      pose proof (Hsame (row_len - col_offset E3) (col_offset E3)) as Hs.
      change (set_cursor_x (row_len - col_offset E3) (set_col_offset (col_offset E3) E3))
        with (set_cursor_x (row_len - col_offset E3) E3) in Hs.
      rewrite Hs. split; [destruct r; reflexivity | lia].
  - inversion H; subst E'. exists row_len.
    rewrite Hrow. cbn [fst].
    rewrite Z.gtb_ltb in Hgt. apply Z.ltb_ge in Hgt.
    split; [destruct r; reflexivity | exact Hgt].
Qed.

Lemma move_cursor_clamps_column_witness :
  exists row_len,
    cursor_row_length
      (snd (move_cursor ARROW_UP
              (snd (run_all (typed "ab" ++ [InsertNewline] ++ typed "abcd")
                            (initial_state None)))))
    = Ok row_len
    /\ col_offset
         (snd (move_cursor ARROW_UP
                 (snd (run_all (typed "ab" ++ [InsertNewline] ++ typed "abcd")
                               (initial_state None)))))
       + cursor_x
           (snd (move_cursor ARROW_UP
                   (snd (run_all (typed "ab" ++ [InsertNewline] ++ typed "abcd")
                                 (initial_state None)))))
       <= row_len.
Proof.
  apply (move_cursor_clamps_column ARROW_UP
           (snd (run_all (typed "ab" ++ [InsertNewline] ++ typed "abcd")
                         (initial_state None)))).
  vm_compute. reflexivity.
Defined.

(* ================================================================== *)
(** * Further properties: open, save, undo and redo *)
(* ================================================================== *)

Lemma open_named_reads (E0 : EditorState) (requested : str)
      (discard_answer : option str) (fs : read_outcome) (lines : list str) :
  discard_confirmed E0 discard_answer = true ->
  (fs = ReadLines lines \/ (fs = ReadNotFound /\ lines = [])) ->
  exists E',
    open_named requested discard_answer fs E0 = (Ok tt, E')
    /\ file_name E' = Some requested
    /\ current_syntax E' = find_syntax requested
    /\ row_contents E' = map (rstrip [carriage_return; newline]) lines
    /\ (cursor_x E', cursor_y E', row_offset E', col_offset E') = (0, 0, 0, 0)
    /\ modified E' = false
    /\ status_message E' = lit "Opened " ++ requested
    /\ doc_ok E'
    /\ history E' = history E0
    /\ mark E' = mark E0
    /\ clipboard E' = clipboard E0.
Proof.
  intros Hgo Hfs. unfold open_named. rewrite bind_get.
  assert (Hq : exists E1,
             (if modified E0
              then discard <- _prompt_user_cli discard_answer ;;
                   ret (match discard with
                        | None => false
                        | Some d => str_eqb (lower d) (lit "y")
                        end)
              else ret true) E0 = (Ok true, E1)
             /\ history E1 = history E0 /\ mark E1 = mark E0
             /\ clipboard E1 = clipboard E0).
  { unfold discard_confirmed in Hgo.
    destruct (modified E0).
    - destruct discard_answer as [d |]; [| discriminate].
      cbv [_prompt_user_cli set_status_message bind modify ret].
      rewrite Hgo. eexists. split; [reflexivity |]. auto.
    - eexists. split; [reflexivity |]. auto. }
  destruct Hq as (E1 & Hq & Hh1 & Hk1 & Hc1).
  rewrite (bind_ok _ _ _ _ _ Hq). cbn [negb].
  cbv [select_syntax_highlight].
  destruct Hfs as [Hfs | [Hfs Hl]]; subst fs.
  - cbv [read_file bind modify ret try_except raise set_status_message].
    match goal with
    | |- context [for_each lines load_line ?E2] =>
        destruct (load_lines lines E2) as (E3 & H3 & Hok3 & Hc3 & Ho3);
          [split; [reflexivity | constructor] |]
    end.
    rewrite H3.
    eexists. split; [reflexivity |].
    unfold outside_document in Ho3. cbn in Ho3. inversion Ho3.
    destruct Hok3 as [Ht3 Hr3].
    unfold history, row_contents, doc_ok in *. cbn in *.
    repeat split; try congruence; assumption.
  - subst lines.
    cbv [read_file bind modify ret try_except raise set_status_message].
    eexists. split; [reflexivity |].
    unfold history, row_contents, doc_ok in *. cbn in *.
    repeat split; try congruence. constructor.
Qed.

(** X15.  A successful open replaces the document by the lines of the file,
    one row per line with the carriage returns and line feeds at its end
    stripped; the file name is the requested one and the language is
    selected from it; the cursor and the offsets are 0, the document counts
    as unmodified and the status message names the file.  The undo and redo
    stacks, the mark and the clipboard of the previous document stay. *)
Theorem open_loads_lines (E : EditorState)
        (name name_answer discard_answer : option str) (requested : str)
        (lines : list str) :
  requested_name name name_answer = Some requested ->
  discard_confirmed E discard_answer = true ->
  exists E',
    open_file_terminal name name_answer discard_answer (ReadLines lines) E
    = (Ok tt, E')
    /\ file_name E' = Some requested
    /\ current_syntax E' = find_syntax requested
    /\ row_contents E' = map (rstrip [carriage_return; newline]) lines
    /\ (cursor_x E', cursor_y E', row_offset E', col_offset E') = (0, 0, 0, 0)
    /\ modified E' = false
    /\ status_message E' = lit "Opened " ++ requested
    /\ history E' = history E
    /\ mark E' = mark E
    /\ clipboard E' = clipboard E.
Proof.
  intros Hreq Hgo.
  unfold open_file_terminal, requested_name in *.
  destruct name as [n |].
  - inversion Hreq; subst.
    destruct (open_named_reads E requested discard_answer (ReadLines lines)
                lines Hgo (or_introl eq_refl))
      as (E' & H & H1 & H2 & H3 & H4 & H5 & H6 & _ & H8 & H9 & H10).
    exists E'. repeat split; assumption.
  - destruct name_answer as [[| c n] |]; try discriminate.
    inversion Hreq; subst.
    cbv [_prompt_user_cli set_status_message bind modify ret].
    destruct (open_named_reads (set_status [] E) (c :: n) discard_answer
                (ReadLines lines) lines Hgo (or_introl eq_refl))
      as (E' & H & H1 & H2 & H3 & H4 & H5 & H6 & _ & H8 & H9 & H10).
    exists E'. repeat split; assumption.
Qed.

Lemma open_loads_lines_witness :
  exists E',
    open_file_terminal (Some (lit "a.c")) None None
                       (ReadLines [lit "int x;" ++ [carriage_return; newline];
                                   lit "y"])
                       (initial_state None)
    = (Ok tt, E')
    /\ file_name E' = Some (lit "a.c")
    /\ current_syntax E' = find_syntax (lit "a.c")
    /\ row_contents E'
       = map (rstrip [carriage_return; newline])
             [lit "int x;" ++ [carriage_return; newline]; lit "y"]
    /\ (cursor_x E', cursor_y E', row_offset E', col_offset E') = (0, 0, 0, 0)
    /\ modified E' = false
    /\ status_message E' = lit "Opened " ++ lit "a.c"
    /\ history E' = history (initial_state None)
    /\ mark E' = mark (initial_state None)
    /\ clipboard E' = clipboard (initial_state None).
Proof.
  apply (open_loads_lines (initial_state None) (Some (lit "a.c")) None None
                          (lit "a.c")).
  - reflexivity.
  - reflexivity.
Defined.

(** X16.  Opening a file that does not exist returns with an empty,
    unmodified document bound to the requested name and language; the
    status message it ends with is "Opened" and the name: the message
    that reports the file as not found is overwritten before it is shown. *)
Theorem open_missing_file_starts_empty (E : EditorState)
        (name name_answer discard_answer : option str) (requested : str) :
  requested_name name name_answer = Some requested ->
  discard_confirmed E discard_answer = true ->
  exists E',
    open_file_terminal name name_answer discard_answer ReadNotFound E
    = (Ok tt, E')
    /\ file_name E' = Some requested
    /\ current_syntax E' = find_syntax requested
    /\ rows E' = [] /\ total_rows E' = 0
    /\ modified E' = false
    /\ status_message E' = lit "Opened " ++ requested.
Proof.
  intros Hreq Hgo.
  assert (Hn : forall E0,
             discard_confirmed E0 discard_answer = true ->
             exists E',
               open_named requested discard_answer ReadNotFound E0 = (Ok tt, E')
               /\ file_name E' = Some requested
               /\ current_syntax E' = find_syntax requested
               /\ rows E' = [] /\ total_rows E' = 0
               /\ modified E' = false
               /\ status_message E' = lit "Opened " ++ requested).
  { intros E0 Hgo0.
    destruct (open_named_reads E0 requested discard_answer ReadNotFound []
                Hgo0 (or_intror (conj eq_refl eq_refl)))
      as (E' & H & H1 & H2 & H3 & _ & H5 & H6 & [Ht _] & _).
    exists E'. unfold row_contents in H3. cbn [map] in H3.
    apply map_eq_nil in H3.
    repeat split; try assumption. rewrite Ht, H3. reflexivity. }
  unfold open_file_terminal, requested_name in *.
  destruct name as [n |].
  - inversion Hreq; subst. apply Hn. exact Hgo.
  - destruct name_answer as [[| c n] |]; try discriminate.
    inversion Hreq; subst.
    cbv [_prompt_user_cli set_status_message bind modify ret].
    apply Hn. exact Hgo.
Qed.

Lemma open_missing_file_starts_empty_witness :
  exists E',
    open_file_terminal (Some (lit "new.py")) None None ReadNotFound
                       (initial_state None)
    = (Ok tt, E')
    /\ file_name E' = Some (lit "new.py")
    /\ current_syntax E' = find_syntax (lit "new.py")
    /\ rows E' = [] /\ total_rows E' = 0
    /\ modified E' = false
    /\ status_message E' = lit "Opened " ++ lit "new.py".
Proof.
  apply (open_missing_file_starts_empty (initial_state None)
           (Some (lit "new.py")) None None (lit "new.py")).
  - reflexivity.
  - reflexivity.
Defined.

(** X17.  A command that neither takes an undo snapshot nor is [undo] or
    [redo] leaves both stacks as they are: cursor keys, mark, copy, save, a
    cut or paste that has nothing to cut or paste, and also open, which
    keeps the history of the document it replaces. *)
Theorem stacks_change_only_by_edits (c : command) (E : EditorState) :
  takes_snapshot c E = false ->
  c <> Undo -> c <> Redo ->
  history (snd (run c E)) = history E.
Proof.
  intros Ht Hu Hr. destruct c; cbn [run]; cbn [takes_snapshot] in Ht;
    try discriminate; try congruence.
  - apply frame_history_move_cursor.
  - apply frame_history_set_mark.
  - apply frame_history_copy_selection.
  - rewrite cut_history. cbn [takes_snapshot]. rewrite Ht. reflexivity.
  - rewrite paste_history, Ht. reflexivity.
  - apply frame_history_open.
  - assert (H : frame history
                  (save_file_terminal save_as name_answer w ;; ret tt))
      by frame_tac.
    apply H.
Qed.

Lemma stacks_change_only_by_edits_witness :
  history (snd (run (Open (Some (lit "g.py")) None None
                          (ReadLines [lit "pass"]))
                    opened_typed))
  = history opened_typed.
Proof.
  apply (stacks_change_only_by_edits
           (Open (Some (lit "g.py")) None None (ReadLines [lit "pass"]))
           opened_typed).
  - reflexivity.
  - discriminate.
  - discriminate.
Defined.

(** X18.  [undo] and [redo] undo each other: when the undo stack holds an
    entry, [undo] followed by [redo] returns to the row contents, cursor
    and offsets it started from, and so does [redo] followed by [undo] when
    the redo stack holds an entry; both leave the two stacks as they
    found them. *)
Theorem undo_and_redo_are_inverse (E : EditorState) :
  (undo_stack E <> [] ->
   exists E1 E2, undo E = (Ok tt, E1) /\ redo E1 = (Ok tt, E2)
                 /\ current_state E2 = current_state E
                 /\ history E2 = history E)
  /\ (redo_stack E <> [] ->
      exists E1 E2, redo E = (Ok tt, E1) /\ undo E1 = (Ok tt, E2)
                    /\ current_state E2 = current_state E
                    /\ history E2 = history E).
Proof.
  split; intros Hne.
  - destruct (exists_last Hne) as (below & entry & Hu).
    destruct (undo_spec E entry below) as (E1 & H1 & Hs1 & _ & Hu1 & Hr1 & _).
    { rewrite Hu. apply pop_snoc. }
    destruct (redo_spec E1 (current_state E) (redo_stack E))
      as (E2 & H2 & Hs2 & _ & Hr2 & Hu2 & _).
    { rewrite Hr1. apply pop_snoc. }
    exists E1, E2. repeat split; auto.
    unfold history. rewrite Hr2, Hu2, Hu1, Hs1, Hu. reflexivity.
  - destruct (exists_last Hne) as (below & entry & Hr).
    destruct (redo_spec E entry below) as (E1 & H1 & Hs1 & _ & Hr1 & Hu1 & _).
    { rewrite Hr. apply pop_snoc. }
    destruct (undo_spec E1 (current_state E) (undo_stack E))
      as (E2 & H2 & Hs2 & _ & Hu2 & Hr2 & _).
    { rewrite Hu1. apply pop_snoc. }
    exists E1, E2. repeat split; auto.
    unfold history. rewrite Hr2, Hu2, Hr1, Hs1, Hr. reflexivity.
Qed.

(* ================================================================== *)
(** * Further properties: well-formed documents *)
(* ================================================================== *)

(** Well-formedness and consistency of a concrete document, by
    computation. *)

Ltac concrete_well_formed :=
  vm_compute;
  split;
  [ reflexivity
  | split;
    [ let p := fresh "p" in
      let r := fresh "r" in
      let H := fresh "H" in
      intros p r H;
      repeat (destruct p as [| p];
              [ injection H as <-; reflexivity | ]);
      destruct p; discriminate H
    | repeat constructor ] ].

Ltac concrete_consistent :=
  split; [ concrete_well_formed | vm_compute; repeat constructor ].

Lemma map_set_nth {A B : Type} (f : A -> B) (l : list A) :
  forall p x, map f (set_nth l p x) = set_nth (map f l) p (f x).
Proof.
  induction l as [| a l IH]; intros [| p] x; cbn [set_nth map]; auto.
  rewrite IH. reflexivity.
Qed.

Lemma set_nth_same {A : Type} (l : list A) :
  forall p x, nth_error l p = Some x -> set_nth l p x = l.
Proof.
  induction l as [| a l IH]; intros [| p] x H; cbn in H; try discriminate;
    cbn [set_nth].
  - inversion H. reflexivity.
  - rewrite (IH _ _ H). reflexivity.
Qed.

Lemma nth_error_set_nth {A : Type} (l : list A) :
  forall p q x,
    nth_error (set_nth l p x) q
    = if (q =? p)%nat then match nth_error l p with
                           | Some _ => Some x
                           | None => None
                           end
      else nth_error l q.
Proof.
  induction l as [| a l IH]; intros [| p] [| q] x;
    cbn [set_nth nth_error Nat.eqb]; try reflexivity.
  - destruct (q =? p)%nat; reflexivity.
  - rewrite IH. reflexivity.
Qed.

Lemma row_at_ok (E : EditorState) (p : nat) (r : EditorRow) :
  nth_error (rows E) p = Some r -> row_at p E = (Ok r, E).
Proof. intros H. unfold row_at. rewrite bind_get, H. reflexivity. Qed.

Lemma update_row_ok (E : EditorState) (p : nat) (r : EditorRow) f :
  nth_error (rows E) p = Some r ->
  update_row p f E = (Ok tt, set_rows (set_nth (rows E) p (f r)) E).
Proof. intros H. unfold update_row, modify. rewrite H. reflexivity. Qed.

Lemma row_ref_ok (E : EditorState) (i : Z) :
  0 <= i < len (rows E) -> row_ref i E = (Ok (Z.to_nat i), E).
Proof.
  intros H. unfold row_ref. rewrite bind_get. unfold lift.
  pose proof (locate_ok (rows E) i) as Hl. cbv zeta in Hl.
  replace (i <? 0) with false in Hl by (symmetry; apply Z.ltb_ge; lia).
  rewrite Hl by lia. reflexivity.
Qed.

Lemma frame_text_update_row (p : nat) f :
  (forall r, text_of (f r) = text_of r) ->
  frame document_text (update_row p f).
Proof.
  intros Hf E. unfold update_row, modify. cbn [snd].
  destruct (nth_error (rows E) p) as [r |] eqn:Hr; [| reflexivity].
  unfold document_text. cbn [rows total_rows modified set_rows].
  rewrite map_set_nth, Hf, set_nth_same; [reflexivity |].
  rewrite nth_error_map, Hr. reflexivity.
Qed.

Lemma frame_text_update_syntax (fuel : nat) :
  forall p, frame document_text (update_syntax fuel p).
Proof.
  induction fuel as [| fuel IH]; intros p; cbn [update_syntax].
  - apply frame_raise.
  - repeat first
      [ apply IH
      | apply frame_text_update_row; intros r; reflexivity
      | frame_step ].
Qed.

Lemma frame_text_row_update_syntax (p : nat) :
  frame document_text (row_update_syntax p).
Proof.
  unfold row_update_syntax. apply frame_bind; [apply frame_get |].
  intros E. apply frame_text_update_syntax.
Qed.

Lemma text_same_length (rs rs' : list EditorRow) :
  map text_of rs' = map text_of rs -> length rs' = length rs.
Proof.
  intros H. rewrite <- (length_map text_of rs'), H. apply length_map.
Qed.

Lemma text_same_nth (rs rs' : list EditorRow) (p : nat) (r' : EditorRow) :
  map text_of rs' = map text_of rs ->
  nth_error rs' p = Some r' ->
  exists r, nth_error rs p = Some r /\ text_of r = text_of r'.
Proof.
  intros H Hn.
  assert (Hm : nth_error (map text_of rs) p = Some (text_of r'))
    by (rewrite <- H, nth_error_map, Hn; reflexivity).
  rewrite nth_error_map in Hm.
  destruct (nth_error rs p) as [r |]; [| discriminate].
  exists r. split; [reflexivity |]. cbn [option_map] in Hm. congruence.
Qed.

Lemma well_formed_text (E E' : EditorState) :
  document_text E' = document_text E -> well_formed E -> well_formed E'.
Proof.
  unfold document_text. intros H (Ht & Hi & Hr). inversion H as [[Hm Htot Hmod]].
  split; [| split].
  - rewrite Htot, Ht. unfold len. rewrite (text_same_length _ _ Hm). reflexivity.
  - intros p r' Hn.
    destruct (text_same_nth _ _ _ _ Hm Hn) as (r & Hr0 & Htx).
    unfold text_of in Htx. inversion Htx. rewrite <- (Hi _ _ Hr0). congruence.
  - apply Forall_forall. intros r' Hin.
    apply In_nth_error in Hin. destruct Hin as [p Hn].
    destruct (text_same_nth _ _ _ _ Hm Hn) as (r & Hr0 & Htx).
    rewrite Forall_forall in Hr. specialize (Hr r (nth_error_In _ _ Hr0)).
    unfold rendered_ok, text_of in *. inversion Htx. congruence.
Qed.

(** With the state known to stay as it is, what [highlight_for] needs to
    return: the predecessor of the row is there and is rendered. *)
Lemma highlight_for_ok (E : EditorState) (self : EditorRow) syntax :
  well_formed E ->
  index self <= len (rows E) ->
  exists r, highlight_for self syntax E = (Ok r, E).
Proof.
  intros (Ht & Hi & Hr) Hidx. unfold highlight_for. rewrite bind_get.
  assert (Hprev : exists b,
             (if index self >? 0
              then (r <-? getitem (rows E) (index self - 1) ;; has_open_comment r)
              else Ok false) = Ok b).
  { destruct (index self >? 0) eqn:Hpos; [| eauto].
    apply Z.gtb_lt in Hpos.
    destruct (getitem_ok (rows E) (index self - 1)) as (r & Hg & Hn).
    { replace (index self - 1 <? 0) with false
        by (symmetry; apply Z.ltb_ge; lia). lia. }
    rewrite Hg. cbn [rbind]. apply has_open_comment_total.
    rewrite Forall_forall in Hr. apply Hr. eapply nth_error_In, Hn. }
  destruct Hprev as [b Hb]. rewrite Hb.
  destruct (get_syntax_highlighting_total (rendered_content self)
              (Some syntax) b) as [r Hg].
  exists r. unfold bind, lift. rewrite Hg. reflexivity.
Qed.

Lemma update_row_returns (p : nat) f (E : EditorState) :
  update_row p f E = (Ok tt, snd (update_row p f E)).
Proof. reflexivity. Qed.

Lemma update_row_other (p q : nat) f (E : EditorState) :
  q <> p ->
  nth_error (rows (snd (update_row p f E))) q = nth_error (rows E) q.
Proof.
  intros Hq. unfold update_row, modify. cbn [snd].
  destruct (nth_error (rows E) p) as [r |] eqn:Hr; [| reflexivity].
  cbn [rows set_rows]. rewrite nth_error_set_nth.
  apply Nat.eqb_neq in Hq. rewrite Hq. reflexivity.
Qed.

Lemma update_row_length (p : nat) f (E : EditorState) :
  length (rows (snd (update_row p f E))) = length (rows E).
Proof.
  unfold update_row, modify. cbn [snd].
  destruct (nth_error (rows E) p) as [r |]; [| reflexivity].
  cbn [rows set_rows]. apply set_nth_length.
Qed.

(** On a well-formed document [update_syntax] returns: the calls on the
    following rows go down the document and end at its last row.  The rows
    before the one it is called on stay as they are. *)
Lemma update_syntax_spec (fuel : nat) :
  forall p E,
    well_formed E ->
    (p < length (rows E))%nat ->
    (length (rows E) - p < fuel)%nat ->
    exists E',
      update_syntax fuel p E = (Ok tt, E')
      /\ forall q, (q < p)%nat -> nth_error (rows E') q = nth_error (rows E) q.
Proof.
  induction fuel as [| fuel IH]; intros p E Hwf Hp Hf; [lia |].
  cbn [update_syntax].
  destruct (nth_error (rows E) p) as [self |] eqn:Hself;
    [| apply nth_error_None in Hself; lia].
  rewrite (bind_ok _ _ _ _ _ (row_at_ok _ _ _ Hself)).
  rewrite (bind_ok _ _ _ _ _ (update_row_returns _ _ _)).
  set (E1 := snd (update_row p _ E)).
  assert (Ht1 : document_text E1 = document_text E)
    by (apply frame_text_update_row; intros r; reflexivity).
  assert (Hwf1 : well_formed E1) by (eapply well_formed_text; eauto).
  assert (Hlen1 : length (rows E1) = length (rows E))
    by apply update_row_length.
  assert (Hab1 : forall q, q <> p -> nth_error (rows E1) q = nth_error (rows E) q)
    by (intros q Hq; apply update_row_other; exact Hq).
  assert (Hidx : index self = Z.of_nat p) by (apply Hwf; exact Hself).
  rewrite bind_get.
  destruct (current_syntax E1) as [syn |].
  2:{ exists E1. split; [reflexivity |]. intros q Hq. apply Hab1. lia. }
  destruct (highlight_for_ok E1 self syn Hwf1) as ([h o] & Hh).
  { unfold len. lia. }
  rewrite (bind_ok _ _ _ _ _ Hh).
  rewrite (bind_ok _ _ _ _ _ (update_row_returns _ _ _)).
  set (E2 := snd (update_row p _ E1)).
  assert (Ht2 : document_text E2 = document_text E1)
    by (apply frame_text_update_row; intros r; reflexivity).
  assert (Hwf2 : well_formed E2) by (eapply well_formed_text; eauto).
  assert (Hlen2 : length (rows E2) = length (rows E))
    by (rewrite <- Hlen1; apply update_row_length).
  assert (Hab2 : forall q, q <> p -> nth_error (rows E2) q = nth_error (rows E) q).
  { intros q Hq. rewrite <- (Hab1 q Hq). apply update_row_other. exact Hq. }
  rewrite bind_get.
  destruct (negb (eqb (open_comment self) o)
            && (index self + 1 <? total_rows E2)) eqn:Hc.
  - apply andb_prop in Hc. destruct Hc as [_ Hc]. apply Z.ltb_lt in Hc.
    assert (Htot2 : total_rows E2 = len (rows E2)) by apply Hwf2.
    assert (Hq : row_ref (index self + 1) E2 = (Ok (S p), E2)).
    { rewrite row_ref_ok by (unfold len in *; lia).
      f_equal. f_equal. lia. }
    destruct (IH (S p) E2 Hwf2) as (E3 & H3 & Hab3);
      [unfold len in *; lia | lia |].
    assert (Hin : bind (row_ref (index self + 1)) (fun q => update_syntax fuel q) E2
                  = (Ok tt, E3))
      by (rewrite (bind_ok _ _ _ _ _ Hq); exact H3).
    rewrite (bind_ok _ _ _ _ _ Hin).
    rewrite update_row_returns. eexists. split; [reflexivity |].
    intros q Hlt. rewrite update_row_other by lia.
    rewrite Hab3 by lia. apply Hab2. lia.
  - unfold ret at 1. unfold bind at 1.
    rewrite update_row_returns. eexists. split; [reflexivity |].
    intros q Hlt. rewrite update_row_other by lia. apply Hab2. lia.
Qed.

Lemma row_update_syntax_spec (p : nat) (E : EditorState) :
  well_formed E ->
  (p < length (rows E))%nat ->
  exists E',
    row_update_syntax p E = (Ok tt, E')
    /\ document_text E' = document_text E
    /\ outside_document E' = outside_document E
    /\ well_formed E'
    /\ forall q, (q < p)%nat -> nth_error (rows E') q = nth_error (rows E) q.
Proof.
  intros Hwf Hp.
  pose proof (frame_text_row_update_syntax p E) as Ht.
  pose proof (frame_row_update_syntax p E) as Ho.
  unfold row_update_syntax in *. rewrite bind_get in *.
  destruct (update_syntax_spec (syntax_fuel E) p E Hwf Hp) as (E' & H & Hab).
  { unfold syntax_fuel. lia. }
  rewrite H in Ht, Ho. cbn [snd] in Ht, Ho.
  exists E'. split; [exact H |]. split; [exact Ht |]. split; [exact Ho |].
  split; [eapply well_formed_text; eauto | exact Hab].
Qed.



(** ** Inserting and deleting rows *)

Lemma range_cons (a b : Z) : a < b -> range a b = a :: range (a + 1) b.
Proof.
  intros H. unfold range.
  replace (Z.to_nat (b - a)) with (S (Z.to_nat (b - (a + 1)))) by lia.
  cbn [seq map]. rewrite <- seq_shift, map_map. f_equal; [lia |].
  apply map_ext. intros k. lia.
Qed.

Lemma set_rows_same (E : EditorState) : set_rows (rows E) E = E.
Proof. destruct E. reflexivity. Qed.

(** The loops of [insert_editor_row] and [delete_editor_row] that renumber
    the rows [mid] after the place of the change. *)
Lemma renumber_loop (f : EditorRow -> EditorRow) (mid : list EditorRow) :
  forall (pre post : list EditorRow) (E : EditorState) (b : Z),
    rows E = pre ++ mid ++ post ->
    b = len pre + len mid ->
    for_each (range (len pre) b) (fun i => q <- row_ref i ;; update_row q f) E
    = (Ok tt, set_rows (pre ++ map f mid ++ post) E).
Proof.
  induction mid as [| x mid IH]; intros pre post E b Hrows Hb.
  - replace b with (len pre) by (unfold len in *; cbn [length] in *; lia).
    rewrite range_empty. cbn [for_each map app]. unfold ret.
    cbn [app] in Hrows. rewrite <- Hrows, set_rows_same. reflexivity.
  - assert (Hlen : len (x :: mid) = 1 + len mid)
      by (unfold len; cbn [length]; lia).
    rewrite range_cons by (unfold len in *; lia).
    cbn [for_each].
    assert (Hq : row_ref (len pre) E = (Ok (length pre), E)).
    { rewrite row_ref_ok.
      - unfold len. rewrite Nat2Z.id. reflexivity.
      - rewrite Hrows. unfold len. rewrite !length_app. cbn [length]. lia. }
    assert (Hx : nth_error (rows E) (length pre) = Some x).
    { rewrite Hrows, nth_error_app2, Nat.sub_diag by lia. reflexivity. }
    assert (Hstep : bind (row_ref (len pre)) (fun q => update_row q f) E
                    = (Ok tt, set_rows (pre ++ f x :: mid ++ post) E)).
    { rewrite (bind_ok _ _ _ _ _ Hq), (update_row_ok _ _ _ _ Hx).
      rewrite Hrows. cbn [app]. rewrite set_nth_middle. reflexivity. }
    rewrite (bind_ok _ _ _ _ _ Hstep).
    pose proof (IH (pre ++ [f x]) post
                   (set_rows (pre ++ f x :: mid ++ post) E) b) as H.
    replace (len (pre ++ [f x])) with (len pre + 1) in H
      by (unfold len; rewrite length_app; cbn [length]; lia).
    rewrite H.
    + cbn [map app]. rewrite <- !app_assoc. reflexivity.
    + cbn [rows set_rows]. rewrite <- app_assoc. reflexivity.
    + lia.
Qed.


Lemma text_sized (rs rs' : list EditorRow) :
  map text_of rs' = map text_of rs -> Forall sized rs -> Forall sized rs'.
Proof.
  intros H Hs. apply Forall_forall. intros r' Hin.
  apply In_nth_error in Hin. destruct Hin as [p Hn].
  destruct (text_same_nth _ _ _ _ H Hn) as (r & Hr & Htx).
  rewrite Forall_forall in Hs. specialize (Hs r (nth_error_In _ _ Hr)).
  unfold sized, text_of in *. inversion Htx. congruence.
Qed.

(** The constructor on a well-formed document: it returns the new row and
    leaves the text of the document as it is. *)
Lemma new_EditorRow_spec (E : EditorState) (idx : Z) (c : str) :
  well_formed E ->
  0 <= idx <= len (rows E) ->
  exists r E1,
    new_EditorRow idx c E = (Ok r, E1)
    /\ text_of r = (idx, c, len c, render c, len (render c))
    /\ document_text E1 = document_text E
    /\ outside_document E1 = outside_document E.
Proof.
  intros Hwf Hidx. unfold new_EditorRow. cbv zeta. rewrite bind_get.
  destruct (current_syntax E) as [syn |].
  2:{ do 2 eexists. split; [reflexivity |]. auto. }
  match goal with
  | |- context [highlight_for ?self syn] =>
      destruct (highlight_for_ok E self syn Hwf) as ([h o] & Hh);
        [cbn [index set_highlight set_rendered]; lia |]
  end.
  rewrite (bind_ok _ _ _ _ _ Hh).
  cbn [index set_highlight set_rendered open_comment].
  destruct (negb (eqb false o) && (idx + 1 <? total_rows E)) eqn:Hc.
  - apply andb_prop in Hc. destruct Hc as [_ Hc]. apply Z.ltb_lt in Hc.
    assert (Htot : total_rows E = len (rows E)) by apply Hwf.
    assert (Hq : row_ref (idx + 1) E = (Ok (Z.to_nat (idx + 1)), E))
      by (apply row_ref_ok; lia).
    destruct (row_update_syntax_spec (Z.to_nat (idx + 1)) E Hwf)
      as (E1 & H1 & Ht1 & Ho1 & _); [unfold len in *; lia |].
    assert (Hin : bind (row_ref (idx + 1)) (fun q => row_update_syntax q) E
                  = (Ok tt, E1))
      by (rewrite (bind_ok _ _ _ _ _ Hq); exact H1).
    rewrite (bind_ok _ _ _ _ _ Hin).
    do 2 eexists. split; [reflexivity |]. auto.
  - do 2 eexists. split; [reflexivity |]. auto.
Qed.

Lemma indexed_insert (rs : list EditorRow) (a : nat) (new : EditorRow) :
  indexed rs ->
  (a <= length rs)%nat ->
  index new = Z.of_nat a ->
  indexed (firstn a rs ++ new
           :: map (fun r => set_index (index r + 1) r) (skipn a rs)).
Proof.
  intros Hi Ha Hnew p r H.
  assert (Hl : length (firstn a rs) = a) by (rewrite length_firstn; lia).
  destruct (Nat.lt_ge_cases p a) as [Hp | Hp].
  - rewrite nth_error_app1 in H by lia.
    rewrite nth_error_firstn in H.
    apply Nat.ltb_lt in Hp. rewrite Hp in H. apply Hi. exact H.
  - rewrite nth_error_app2 in H by lia. rewrite Hl in H.
    destruct (p - a)%nat as [| k] eqn:Hk; cbn [nth_error] in H.
    + inversion H. subst r. rewrite Hnew. f_equal. lia.
    + rewrite nth_error_map in H.
      rewrite nth_error_skipn in H.
      destruct (nth_error rs (a + k)) as [r0 |] eqn:Hr0; [| discriminate].
      cbn [option_map] in H. inversion H. subst r. cbn [index set_index].
      rewrite (Hi _ _ Hr0). lia.
Qed.

Lemma indexed_delete (rs : list EditorRow) (p : nat) :
  indexed rs ->
  (p <= length rs)%nat ->
  indexed (firstn p rs
           ++ map (fun r => set_index (index r - 1) r) (skipn (S p) rs)).
Proof.
  intros Hi Hp q r H.
  assert (Hl : length (firstn p rs) = p) by (rewrite length_firstn; lia).
  destruct (Nat.lt_ge_cases q p) as [Hq | Hq].
  - rewrite nth_error_app1 in H by lia.
    rewrite nth_error_firstn in H.
    apply Nat.ltb_lt in Hq. rewrite Hq in H. apply Hi. exact H.
  - rewrite nth_error_app2 in H by lia. rewrite Hl in H.
    rewrite nth_error_map, nth_error_skipn in H.
    destruct (nth_error rs (S p + (q - p))) as [r0 |] eqn:Hr0; [| discriminate].
    cbn [option_map] in H. inversion H. subst r. cbn [index set_index].
    rewrite (Hi _ _ Hr0). lia.
Qed.

(** [insert_editor_row] on a well-formed document: the rows after the
    call, in terms of the rows [rs1] the constructor left. *)
Lemma insert_editor_row_rows (position : Z) (c : str) (E : EditorState) :
  well_formed E ->
  0 <= position ->
  exists new rs1 E',
    insert_editor_row position c E
    = (Ok (Z.to_nat (Z.min position (total_rows E))), E')
    /\ text_of new = (Z.min position (total_rows E), c, len c,
                      render c, len (render c))
    /\ map text_of rs1 = map text_of (rows E)
    /\ rows E' = firstn (Z.to_nat (Z.min position (total_rows E))) rs1
                 ++ new :: map (fun r => set_index (index r + 1) r)
                               (skipn (Z.to_nat (Z.min position (total_rows E))) rs1)
    /\ total_rows E' = total_rows E + 1
    /\ modified E' = true
    /\ outside_document E' = outside_document E.
Proof.
  intros Hwf Hpos.
  assert (Htot : total_rows E = len (rows E)) by apply Hwf.
  unfold insert_editor_row. rewrite bind_get. cbv zeta.
  replace (if position >? total_rows E then total_rows E else position)
    with (Z.min position (total_rows E))
    by (destruct (position >? total_rows E) eqn:Hc;
        [apply Z.gtb_lt in Hc | rewrite Z.gtb_ltb in Hc; apply Z.ltb_ge in Hc];
        lia).
  set (pos := Z.min position (total_rows E)).
  assert (Hp : 0 <= pos <= len (rows E)) by (unfold pos, len in *; lia).
  destruct (new_EditorRow_spec E pos c Hwf Hp) as (new & E1 & Hn & Htx & Ht1 & Ho1).
  rewrite (bind_ok _ _ _ _ _ Hn), bind_get, bind_modify.
  assert (Hm1 : map text_of (rows E1) = map text_of (rows E))
    by (unfold document_text in Ht1; congruence).
  assert (Hlen1 : length (rows E1) = length (rows E))
    by (apply text_same_length; exact Hm1).
  set (a := Z.to_nat pos).
  assert (Hins : list_insert (rows E1) pos new
                 = (firstn a (rows E1) ++ [new]) ++ skipn a (rows E1) ++ []).
  { unfold list_insert, bound.
    replace (pos <? 0) with false by (symmetry; apply Z.ltb_ge; lia).
    replace (Z.min pos (len (rows E1))) with pos by (unfold len in *; lia).
    fold a. rewrite app_nil_r, <- app_assoc. reflexivity. }
  match goal with
  | |- context [for_each _ ?body] =>
      pose proof (renumber_loop (fun r => set_index (index r + 1) r)
                    (skipn a (rows E1)) (firstn a (rows E1) ++ [new]) []
                    (set_rows (list_insert (rows E1) pos new) E1)
                    (total_rows E + 1)) as Hloop
  end.
  replace (len (firstn a (rows E1) ++ [new])) with (pos + 1) in Hloop
    by (unfold len; rewrite length_app, length_firstn; cbn [length];
        unfold len in *; lia).
  assert (Hl : (pos + 1) + len (skipn a (rows E1)) = total_rows E + 1)
    by (unfold len; rewrite length_skipn; unfold a, len in *; lia).
  specialize (Hloop Hins (eq_sym Hl)).
  rewrite (bind_ok _ _ _ _ _ Hloop).
  rewrite bind_modify. unfold ret.
  replace (bound (len (rows E1)) pos) with a
    by (unfold bound;
        replace (pos <? 0) with false by (symmetry; apply Z.ltb_ge; lia);
        unfold a, len in *; lia).
  exists new, (rows E1). eexists. split; [reflexivity |].
  split; [exact Htx |]. split; [exact Hm1 |].
  cbn [rows total_rows modified set_rows set_modified set_total_rows].
  rewrite app_nil_r, <- app_assoc. cbn [app].
  split; [reflexivity |].
  unfold document_text in Ht1.
  split; [congruence |]. split; [reflexivity |].
  rewrite <- Ho1. reflexivity.
Qed.

(** [delete_editor_row] on a well-formed document. *)
Lemma delete_editor_row_rows (position : Z) (E : EditorState) :
  well_formed E ->
  0 <= position < total_rows E ->
  delete_editor_row position E
  = (Ok tt,
     set_modified true
       (set_total_rows (total_rows E - 1)
          (set_rows (firstn (Z.to_nat position) (rows E)
                     ++ map (fun r => set_index (index r - 1) r)
                            (skipn (S (Z.to_nat position)) (rows E))) E))).
Proof.
  intros Hwf Hpos.
  assert (Htot : total_rows E = len (rows E)) by apply Hwf.
  unfold delete_editor_row. rewrite bind_get.
  replace (position >=? total_rows E) with false
    by (symmetry; rewrite Z.geb_leb; apply Z.leb_gt; lia).
  set (p := Z.to_nat position).
  assert (Hdel : delitem (rows E) position
                 = Ok (firstn p (rows E) ++ skipn (S p) (rows E))).
  { unfold delitem.
    pose proof (locate_ok (rows E) position) as Hl. cbv zeta in Hl.
    replace (position <? 0) with false in Hl by (symmetry; apply Z.ltb_ge; lia).
    rewrite Hl by lia. reflexivity. }
  unfold lift at 1. unfold bind at 1. rewrite Hdel, bind_modify.
  pose proof (renumber_loop (fun r => set_index (index r - 1) r)
                (skipn (S p) (rows E)) (firstn p (rows E)) []
                (set_rows (firstn p (rows E) ++ skipn (S p) (rows E)) E)
                (total_rows E - 1)) as Hloop.
  replace (len (firstn p (rows E))) with position in Hloop
    by (unfold len; rewrite length_firstn; unfold p, len in *; lia).
  assert (Hl : position + len (skipn (S p) (rows E)) = total_rows E - 1)
    by (unfold len; rewrite length_skipn; unfold p, len in *; lia).
  specialize (Hloop ltac:(cbn [rows set_rows]; rewrite app_nil_r; reflexivity)
                    (eq_sym Hl)).
  rewrite (bind_ok _ _ _ _ _ Hloop).
  rewrite app_nil_r. reflexivity.
Qed.

Lemma Forall_firstn_skipn {A : Type} (P : A -> Prop) (n : nat) (l : list A) :
  Forall P l -> Forall P (firstn n l) /\ Forall P (skipn n l).
Proof.
  intros H. rewrite <- (firstn_skipn n l) in H. apply Forall_app in H. exact H.
Qed.

Lemma Forall_map_same {A : Type} (P : A -> Prop) (f : A -> A) (l : list A) :
  (forall x, P x -> P (f x)) -> Forall P l -> Forall P (map f l).
Proof.
  intros Hf H. induction H; cbn [map]; constructor; auto.
Qed.

Lemma well_formed_rows (E : EditorState) (rs : list EditorRow) :
  well_formed E ->
  map text_of rs = map text_of (rows E) ->
  len rs = total_rows E /\ indexed rs /\ Forall rendered_ok rs.
Proof.
  intros Hwf Hm.
  assert (H : well_formed (set_rows rs E)).
  { apply (well_formed_text E); [| exact Hwf].
    unfold document_text. cbn [rows total_rows modified set_rows].
    rewrite Hm. reflexivity. }
  destruct H as (Ht & Hi & Hr). cbn [rows total_rows set_rows] in *. auto.
Qed.

(** The rows [insert_editor_row] leaves form a well-formed document. *)
Lemma well_formed_inserted (E E' : EditorState) (rs1 : list EditorRow)
      (new : EditorRow) (a : nat) :
  well_formed E ->
  map text_of rs1 = map text_of (rows E) ->
  (a <= length rs1)%nat ->
  index new = Z.of_nat a ->
  rendered_ok new ->
  rows E' = firstn a rs1 ++ new :: map (fun r => set_index (index r + 1) r)
                                       (skipn a rs1) ->
  total_rows E' = total_rows E + 1 ->
  well_formed E'.
Proof.
  intros Hwf Hm Ha Hidx Hnew Hrows Htot.
  destruct (well_formed_rows E rs1 Hwf Hm) as (Hl & Hi & Hr).
  destruct (Forall_firstn_skipn _ a _ Hr) as [Hr1 Hr2].
  split; [| split]; rewrite Hrows.
  - rewrite Htot, <- Hl. unfold len.
    rewrite length_app, length_firstn. cbn [length].
    rewrite length_map, length_skipn. lia.
  - apply indexed_insert; assumption.
  - apply Forall_app. split; [exact Hr1 |]. constructor; [exact Hnew |].
    apply Forall_map_same; [| exact Hr2]. intros r H. exact H.
Qed.

Lemma well_formed_deleted (E E' : EditorState) (p : nat) :
  well_formed E ->
  (p < length (rows E))%nat ->
  rows E' = firstn p (rows E)
            ++ map (fun r => set_index (index r - 1) r) (skipn (S p) (rows E)) ->
  total_rows E' = total_rows E - 1 ->
  well_formed E'.
Proof.
  intros (Ht & Hi & Hr) Hp Hrows Htot.
  destruct (Forall_firstn_skipn _ p _ Hr) as [Hr1 _].
  destruct (Forall_firstn_skipn _ (S p) _ Hr) as [_ Hr2].
  split; [| split]; rewrite Hrows.
  - rewrite Htot, Ht. unfold len.
    rewrite length_app, length_firstn, length_map, length_skipn. lia.
  - apply indexed_delete; [assumption | lia].
  - apply Forall_app. split; [exact Hr1 |].
    apply Forall_map_same; [| exact Hr2]. intros r H. exact H.
Qed.

Lemma insert_editor_row_keeps (position : Z) (c : str) (E : EditorState) :
  well_formed E ->
  0 <= position ->
  exists a E', insert_editor_row position c E = (Ok a, E') /\ well_formed E'.
Proof.
  intros Hwf Hpos.
  destruct (insert_editor_row_rows position c E Hwf Hpos)
    as (new & rs1 & E' & H & Htx & Hm & Hrows & Htot & _).
  exists (Z.to_nat (Z.min position (total_rows E))), E'.
  split; [exact H |].
  destruct (well_formed_rows E rs1 Hwf Hm) as (Hl & _).
  unfold text_of in Htx. inversion Htx as [[Hidx Hc Hcs Hrc Hrs]].
  apply (well_formed_inserted E E' rs1 new
           (Z.to_nat (Z.min position (total_rows E)))); auto;
    try (unfold rendered_ok; congruence);
    rewrite ?Hidx; unfold len in *; lia.
Qed.

Lemma delete_editor_row_keeps (position : Z) (E : EditorState) :
  well_formed E ->
  0 <= position ->
  exists E', delete_editor_row position E = (Ok tt, E') /\ well_formed E'.
Proof.
  intros Hwf Hpos.
  destruct (Z.lt_ge_cases position (total_rows E)) as [Hlt | Hge].
  - rewrite delete_editor_row_rows by (auto; lia).
    eexists. split; [reflexivity |].
    assert (Htot : total_rows E = len (rows E)) by apply Hwf.
    eapply (well_formed_deleted E _ (Z.to_nat position)); eauto.
    unfold len in *. lia.
  - exists E. split; [| exact Hwf].
    unfold delete_editor_row. rewrite bind_get.
    replace (position >=? total_rows E) with true
      by (symmetry; rewrite Z.geb_leb; apply Z.leb_le; lia).
    reflexivity.
Qed.


Lemma insert_editor_row_sized (position : Z) (c : str) (E : EditorState) :
  consistent E ->
  0 <= position ->
  Forall sized (rows (snd (insert_editor_row position c E))).
Proof.
  intros [Hwf Hs] Hpos.
  destruct (insert_editor_row_rows position c E Hwf Hpos)
    as (new & rs1 & E' & H & Htx & Hm & Hrows & _).
  assert (Hsn : sized new)
    by (unfold text_of in Htx; unfold sized; congruence).
  rewrite H. cbn [snd]. rewrite Hrows.
  apply (text_sized _ _ Hm) in Hs.
  destruct (Forall_firstn_skipn
              _ (Z.to_nat (Z.min position (total_rows E))) _ Hs) as [Hs1 Hs2].
  apply Forall_app. split; [exact Hs1 |].
  constructor; [exact Hsn |].
  apply Forall_map_same; [| exact Hs2]. intros r Hr. exact Hr.
Qed.

Lemma delete_editor_row_sized (position : Z) (E : EditorState) :
  consistent E ->
  0 <= position ->
  Forall sized (rows (snd (delete_editor_row position E))).
Proof.
  intros [Hwf Hs] Hpos.
  destruct (Z.lt_ge_cases position (total_rows E)) as [Hlt | Hge].
  - rewrite delete_editor_row_rows by (auto; lia).
    cbn [snd rows set_rows set_modified set_total_rows].
    destruct (Forall_firstn_skipn _ (Z.to_nat position) _ Hs) as [Hs1 _].
    destruct (Forall_firstn_skipn _ (S (Z.to_nat position)) _ Hs) as [_ Hs2].
    apply Forall_app. split; [exact Hs1 |].
    apply Forall_map_same; [| exact Hs2]. intros r Hr. exact Hr.
  - unfold delete_editor_row. rewrite bind_get.
    replace (position >=? total_rows E) with true
      by (symmetry; rewrite Z.geb_leb; apply Z.leb_le; lia).
    exact Hs.
Qed.





(** ** What keeps a document well-formed *)

Section Keeps.

Context (P : EditorState -> Prop).

Lemma keeps_ret {A : Type} (a : A) : keeps P (ret a).
Proof. intros E H. exact H. Qed.

Lemma keeps_raise {A : Type} (e : exn) : keeps P (@raise A e).
Proof. intros E H. exact H. Qed.

Lemma keeps_lift {A : Type} (r : result A) : keeps P (lift r).
Proof. intros E H. exact H. Qed.

Lemma keeps_get : keeps P get.
Proof. intros E H. exact H. Qed.

Lemma keeps_bind {A C : Type} (m : M A) (k : A -> M C) :
  keeps P m -> (forall a, keeps P (k a)) -> keeps P (bind m k).
Proof.
  intros Hm Hk E H. unfold bind.
  specialize (Hm E H). destruct (m E) as [[a | e] E1]; cbn [snd] in *.
  - apply Hk. exact Hm.
  - exact Hm.
Qed.

Lemma keeps_bind_get {C : Type} (k : EditorState -> M C) :
  (forall E0, P E0 -> keeps P (k E0)) -> keeps P (bind get k).
Proof. intros Hk E H. rewrite bind_get. apply Hk; exact H. Qed.

Lemma keeps_try_except {A : Type} (m : M A) (handler : exn -> M A) :
  keeps P m -> (forall e, keeps P (handler e)) -> keeps P (try_except m handler).
Proof.
  intros Hm Hh E H. unfold try_except.
  specialize (Hm E H). destruct (m E) as [[a | e] E1]; cbn [snd] in *.
  - exact Hm.
  - apply Hh. exact Hm.
Qed.

Lemma keeps_for_each {A : Type} (l : list A) (body : A -> M unit) :
  (forall x, In x l -> keeps P (body x)) -> keeps P (for_each l body).
Proof.
  induction l as [| x l IH]; intros Hb; cbn [for_each].
  - apply keeps_ret.
  - apply keeps_bind.
    + apply Hb. left. reflexivity.
    + intros _. apply IH. intros y Hy. apply Hb. right. exact Hy.
Qed.

End Keeps.

Lemma well_formed_rows_and_count (E E' : EditorState) :
  rows_and_count E' = rows_and_count E -> well_formed E -> well_formed E'.
Proof.
  unfold rows_and_count, well_formed. intros H. inversion H as [[Hr Ht]].
  rewrite Hr, Ht. auto.
Qed.

Lemma keeps_frame_rows {A : Type} (m : M A) :
  frame rows_and_count m -> keeps well_formed m.
Proof. intros Hm E H. eapply well_formed_rows_and_count; [apply Hm | exact H]. Qed.

Lemma keeps_frame_text {A : Type} (m : M A) :
  frame document_text m -> keeps well_formed m.
Proof. intros Hm E H. eapply well_formed_text; [apply Hm | exact H]. Qed.

Lemma keeps_update_row (p : nat) (f : EditorRow -> EditorRow) :
  (forall r, index (f r) = index r) ->
  (forall r, rendered_ok r -> rendered_ok (f r)) ->
  keeps well_formed (update_row p f).
Proof.
  intros Hi Hr E (Ht & Hx & Hro). unfold update_row, modify. cbn [snd].
  destruct (nth_error (rows E) p) as [r |] eqn:Hp; [| repeat split; auto].
  split; [| split]; cbn [rows total_rows set_rows].
  - rewrite Ht. unfold len. rewrite set_nth_length. reflexivity.
  - intros q r' Hq. rewrite nth_error_set_nth, Hp in Hq.
    destruct (Nat.eqb_spec q p) as [-> | Hne].
    + inversion Hq. rewrite Hi. apply Hx. exact Hp.
    + apply Hx. exact Hq.
  - apply set_nth_Forall; [exact Hro |].
    apply Hr. rewrite Forall_forall in Hro. apply Hro.
    eapply nth_error_In, Hp.
Qed.

Create HintDb keeps discriminated.

Lemma keeps_row_at p : keeps well_formed (row_at p).
Proof. apply keeps_frame_rows, frame_row_at. Qed.

Lemma keeps_row_ref i : keeps well_formed (row_ref i).
Proof. apply keeps_frame_rows, frame_row_ref. Qed.

Lemma keeps_row_update_syntax p : keeps well_formed (row_update_syntax p).
Proof. apply keeps_frame_text, frame_text_row_update_syntax. Qed.

Lemma keeps_row_update_rendered p : keeps well_formed (row_update_rendered p).
Proof.
  unfold row_update_rendered. apply keeps_bind.
  - apply keeps_update_row; intros r; [reflexivity |].
    intros _. reflexivity.
  - intros _. apply keeps_row_update_syntax.
Qed.

Lemma keeps_new_EditorRow idx c : keeps well_formed (new_EditorRow idx c).
Proof.
  apply keeps_frame_text. unfold new_EditorRow. cbv zeta.
  repeat first
    [ apply frame_text_row_update_syntax
    | frame_step ].
Qed.

Lemma keeps_insert_editor_row position c :
  0 <= position -> keeps well_formed (insert_editor_row position c).
Proof.
  intros Hpos E H.
  destruct (insert_editor_row_keeps position c E H Hpos) as (a & E' & Hr & Hwf).
  rewrite Hr. exact Hwf.
Qed.

Lemma keeps_delete_editor_row position :
  0 <= position -> keeps well_formed (delete_editor_row position).
Proof.
  intros Hpos E H.
  destruct (delete_editor_row_keeps position E H Hpos) as (E' & Hr & Hwf).
  rewrite Hr. exact Hwf.
Qed.

#[export] Hint Resolve keeps_row_at keeps_row_ref keeps_row_update_syntax
  keeps_row_update_rendered keeps_new_EditorRow : keeps.

(** One step through a command: the parts that do not touch the rows
    are framed, insertions and deletions of rows leave their position to
    be shown not negative. *)
Ltac keeps_step :=
  first
    [ solve [auto with keeps]
    | match goal with
      | |- keeps _ (bind get _) => apply keeps_bind_get; intros ? ?
      | |- keeps _ (bind _ _) => apply keeps_bind; [ | intros ? ]
      | |- keeps _ (ret _) => apply keeps_ret
      | |- keeps _ (raise _) => apply keeps_raise
      | |- keeps _ (lift _) => apply keeps_lift
      | |- keeps _ get => apply keeps_get
      | |- keeps _ (modify _) =>
          apply keeps_frame_rows, frame_modify; solve [frame_fields]
      | |- keeps _ (update_row _ _) =>
          apply keeps_update_row; intros ?; solve [reflexivity | auto]
      | |- keeps _ (insert_editor_row _ _) => apply keeps_insert_editor_row
      | |- keeps _ (delete_editor_row _) => apply keeps_delete_editor_row
      | |- keeps _ (for_each _ _) => apply keeps_for_each; intros ? ?
      | |- keeps _ (try_except _ _) => apply keeps_try_except; [ | intros ? ]
      | |- keeps _ (if ?b then _ else _) => destruct b eqn:?
      | |- keeps _ (match ?x with _ => _ end) => destruct x eqn:?
      end ].

Ltac keeps_tac := repeat keeps_step.

Lemma keeps_row_insert_char p position ch :
  keeps well_formed (row_insert_char p position ch).
Proof. unfold row_insert_char. cbv zeta. keeps_tac. Qed.

Lemma keeps_row_append_string p string :
  keeps well_formed (row_append_string p string).
Proof. unfold row_append_string. keeps_tac. Qed.

Lemma keeps_row_delete_char p position :
  keeps well_formed (row_delete_char p position).
Proof. unfold row_delete_char. keeps_tac. Qed.

Lemma keeps_set_status_message message :
  keeps well_formed (set_status_message message).
Proof. unfold set_status_message. keeps_tac. Qed.

Lemma keeps_clear_mark : keeps well_formed clear_mark.
Proof. unfold clear_mark. keeps_tac. Qed.

Lemma keeps_place_cursor y x : keeps well_formed (place_cursor y x).
Proof. unfold place_cursor. keeps_tac. Qed.

Lemma keeps_save_undo_state : keeps well_formed save_undo_state.
Proof.
  unfold save_undo_state, push_undo. cbv zeta.
  apply keeps_frame_rows, frame_modify. frame_fields.
Qed.

#[export] Hint Resolve keeps_row_insert_char keeps_row_append_string
  keeps_row_delete_char keeps_set_status_message keeps_clear_mark
  keeps_place_cursor keeps_save_undo_state : keeps.

Lemma well_formed_count (E : EditorState) : well_formed E -> 0 <= total_rows E.
Proof. intros (Ht & _). rewrite Ht. unfold len. lia. Qed.

Lemma bind_cases {A C : Type} (m : M A) (k : A -> M C) (E : EditorState)
      (P : EditorState -> Prop) :
  (forall e E1, m E = (Raise e, E1) -> P E1) ->
  (forall a E1, m E = (Ok a, E1) -> P (snd (k a E1))) ->
  P (snd (bind m k E)).
Proof.
  intros Hr Ho. unfold bind. destruct (m E) as [[a | e] E1] eqn:Hm; cbn [snd].
  - apply Ho with (a := a). reflexivity.
  - apply Hr with (e := e). reflexivity.
Qed.

(** From a state to the commands that follow: what is known of the state
    read so far stays in the context. *)
Ltac keeps_from H :=
  match goal with
  | |- well_formed (snd (?m ?E)) =>
      let K := fresh "K" in
      enough (K : keeps well_formed m) by (apply K; exact H)
  end.

Ltac count_tac :=
  repeat match goal with
         | H : well_formed _ |- _ => apply well_formed_count in H
         end;
  lia.

Lemma keeps_reset :
  keeps well_formed (modify (fun E => set_total_rows 0 (set_rows [] E))).
Proof.
  intros E _. unfold modify. cbn [snd].
  split; [reflexivity | split; [| constructor]].
  intros p r H. destruct p; discriminate.
Qed.

#[export] Hint Resolve keeps_reset : keeps.

Lemma push_undo_cursor (E : EditorState) :
  rows_and_count (push_undo E) = rows_and_count E
  /\ row_offset (push_undo E) = row_offset E
  /\ cursor_y (push_undo E) = cursor_y E
  /\ mark (push_undo E) = mark E.
Proof.
  unfold push_undo. cbv zeta.
  destruct (len _ >? 50); repeat split; reflexivity.
Qed.

Lemma insert_char_keeps ch : keeps well_formed (insert_char ch).
Proof. unfold insert_char. cbv zeta. keeps_tac; count_tac. Qed.

Lemma insert_newline_keeps (E : EditorState) :
  well_formed E ->
  0 <= row_offset E + cursor_y E ->
  well_formed (snd (insert_newline E)).
Proof.
  intros Hwf Hrow. unfold insert_newline, save_undo_state.
  rewrite bind_modify, bind_get. cbv zeta.
  destruct (push_undo_cursor E) as (Hd & Hro & Hcy & _).
  rewrite Hro, Hcy.
  assert (Hwf0 : well_formed (push_undo E))
    by (eapply well_formed_rows_and_count; eauto).
  keeps_from Hwf0. keeps_tac; lia.
Qed.

Lemma delete_char_keeps (E : EditorState) :
  well_formed E ->
  0 <= row_offset E + cursor_y E ->
  well_formed (snd (delete_char E)).
Proof.
  intros Hwf Hrow. unfold delete_char, save_undo_state.
  rewrite bind_modify, bind_get. cbv zeta.
  destruct (push_undo_cursor E) as (Hd & Hro & Hcy & _).
  rewrite Hro, Hcy.
  assert (Hwf0 : well_formed (push_undo E))
    by (eapply well_formed_rows_and_count; eauto).
  keeps_from Hwf0. keeps_tac; lia.
Qed.

Lemma restore_keeps (entry : snapshot) (E : EditorState) :
  well_formed (snd (restore entry E)).
Proof.
  destruct entry as [[[[rows_copy cx] cy] co] ro].
  unfold restore. rewrite bind_modify.
  assert (H0 : well_formed (set_total_rows 0 (set_rows [] E))).
  { split; [reflexivity | split; [| constructor]].
    intros p r H. destruct p; discriminate. }
  keeps_from H0. keeps_tac; count_tac.
Qed.

Lemma undo_keeps : keeps well_formed undo.
Proof.
  intros E Hwf. unfold undo. rewrite bind_get.
  destruct (pop (undo_stack E)) as [[entry below] |].
  - rewrite !bind_modify. apply bind_cases.
    + intros e E1 H. pose proof (restore_keeps entry) as K.
      match type of H with ?m ?E0 = _ => specialize (K E0) end.
      rewrite H in K. exact K.
    + intros a E1 H. pose proof (restore_keeps entry) as K.
      match type of H with ?m ?E0 = _ => specialize (K E0) end.
      rewrite H in K. apply keeps_set_status_message. exact K.
  - apply keeps_set_status_message. exact Hwf.
Qed.

Lemma redo_keeps : keeps well_formed redo.
Proof.
  intros E Hwf. unfold redo. rewrite bind_get.
  destruct (pop (redo_stack E)) as [[entry below] |].
  - rewrite !bind_modify. apply bind_cases.
    + intros e E1 H. pose proof (restore_keeps entry) as K.
      match type of H with ?m ?E0 = _ => specialize (K E0) end.
      rewrite H in K. exact K.
    + intros a E1 H. pose proof (restore_keeps entry) as K.
      match type of H with ?m ?E0 = _ => specialize (K E0) end.
      rewrite H in K. apply keeps_set_status_message. exact K.
  - apply keeps_set_status_message. exact Hwf.
Qed.

Lemma move_cursor_keeps key : keeps well_formed (move_cursor key).
Proof. unfold move_cursor, row_or_none. cbv zeta. keeps_tac. Qed.

Lemma set_mark_keeps : keeps well_formed set_mark.
Proof. unfold set_mark. keeps_tac. Qed.

Lemma copy_selection_keeps : keeps well_formed copy_selection.
Proof. unfold copy_selection. keeps_tac. Qed.

Lemma open_keeps name name_answer discard_answer fs :
  keeps well_formed (open_file_terminal name name_answer discard_answer fs).
Proof.
  unfold open_file_terminal, open_named, read_file, load_line,
    select_syntax_highlight, _prompt_user_cli.
  cbv zeta. keeps_tac; count_tac.
Qed.

Lemma rehighlight_keeps : keeps well_formed rehighlight.
Proof.
  unfold rehighlight. keeps_tac. Qed.

#[export] Hint Resolve rehighlight_keeps : keeps.

Lemma save_keeps save_as name_answer w :
  keeps well_formed (save_file_terminal save_as name_answer w).
Proof.
  unfold save_file_terminal, select_syntax_highlight, _prompt_user_cli.
  cbv zeta. keeps_tac.
Qed.

Lemma paste_lines_keeps (lines : list str) :
  forall file_row, 0 <= file_row -> keeps well_formed (paste_lines file_row lines).
Proof.
  induction lines as [| line lines IH]; intros file_row H; cbn [paste_lines].
  - apply keeps_ret.
  - cbv zeta. apply keeps_bind.
    + apply keeps_insert_editor_row. lia.
    + intros _. apply IH. lia.
Qed.

Lemma paste_keeps (E : EditorState) :
  well_formed E ->
  0 <= row_offset E + cursor_y E ->
  well_formed (snd (paste_clipboard E)).
Proof.
  intros Hwf Hrow. unfold paste_clipboard. rewrite bind_get. cbv zeta.
  destruct (negb (nonempty (clipboard E))).
  - apply keeps_set_status_message. exact Hwf.
  - keeps_from Hwf.
    repeat first [ apply paste_lines_keeps | keeps_step ]; try lia; count_tac.
Qed.

Lemma in_range_down (a b y : Z) : In y (range_down a b) -> b < y <= a.
Proof.
  unfold range_down. intros H. apply in_map_iff in H.
  destruct H as (k & Hk & Hin). apply in_seq in Hin. lia.
Qed.

Lemma selection_bounds_start (E : EditorState) (mark_x mark_y : Z)
      (start_y end_y start_x end_x : Z) :
  selection_bounds E mark_x mark_y = (start_y, end_y, start_x, end_x) ->
  start_y = Z.min mark_y (row_offset E + cursor_y E).
Proof.
  unfold selection_bounds. cbv zeta.
  destruct (Z.min mark_y (row_offset E + cursor_y E) =? mark_y);
    intros H; inversion H; reflexivity.
Qed.

Lemma cut_keeps (E : EditorState) :
  well_formed E ->
  in_document E ->
  well_formed (snd (cut_selection E)).
Proof.
  intros Hwf [Hrow Hmark]. unfold cut_selection.
  assert (Hf : frame besides_clipboard copy_selection)
    by (unfold copy_selection, set_status_message; frame_tac).
  pose proof (copy_selection_keeps E Hwf) as Hwf1.
  specialize (Hf E).
  apply bind_cases; intros x E1 H; rewrite H in Hwf1, Hf; cbn [snd] in Hwf1, Hf;
    [exact Hwf1 |].
  unfold besides_clipboard in Hf.
  inversion Hf as [[Hcx Hcy Hro Hco Hsr Hsc Htr Hrows Hmod Hfn Hsyn Hu Hr Hmk]].
  rewrite bind_get.
  destruct (nonempty (clipboard E1)); [| exact Hwf1].
  unfold save_undo_state. rewrite bind_modify, bind_get.
  destruct (push_undo_cursor E1) as (Hd & Hro0 & Hcy0 & Hmk0).
  assert (Hwf0 : well_formed (push_undo E1))
    by (eapply well_formed_rows_and_count; eauto).
  rewrite Hmk0, Hmk.
  destruct (mark E) as [[mark_x mark_y] |]; [| exact Hwf0].
  destruct (selection_bounds (push_undo E1) mark_x mark_y)
    as [[[start_y end_y] start_x] end_x] eqn:Hsb.
  apply selection_bounds_start in Hsb. rewrite Hro0, Hcy0, Hro, Hcy in Hsb.
  cbv zeta.
  keeps_from Hwf0. keeps_tac.
  match goal with
  | H : In _ (range_down _ _) |- _ => apply in_range_down in H
  end.
  lia.
Qed.

(** X22.  Every command keeps the document well-formed, whether it returns
    or raises, when the cursor and the mark are on rows that are not
    negative: afterwards [total_rows] is again the number of rows, every
    row's [index] its place in the document and every [rendered_size] the
    length of the rendered text. *)
Theorem commands_keep_document_well_formed (c : command) (E : EditorState) :
  well_formed E ->
  in_document E ->
  well_formed (snd (run c E)).
Proof.
  intros Hwf Hin. destruct c; cbn [run].
  - apply insert_char_keeps. exact Hwf.
  - apply insert_newline_keeps; [exact Hwf | apply Hin].
  - apply delete_char_keeps; [exact Hwf | apply Hin].
  - apply move_cursor_keeps. exact Hwf.
  - apply set_mark_keeps. exact Hwf.
  - apply copy_selection_keeps. exact Hwf.
  - apply cut_keeps; assumption.
  - apply paste_keeps; [exact Hwf | apply Hin].
  - apply undo_keeps. exact Hwf.
  - apply redo_keeps. exact Hwf.
  - apply open_keeps. exact Hwf.
  - apply keeps_bind; [apply save_keeps | intros ?; apply keeps_ret | exact Hwf].
Qed.

Lemma commands_keep_document_well_formed_witness :
  well_formed (snd (run InsertNewline opened_typed)).
Proof.
  apply (commands_keep_document_well_formed InsertNewline opened_typed).
  - concrete_well_formed.
  - vm_compute. split; [discriminate | exact I].
Defined.

(** ** What keeps [content_size] right *)

Lemma keeps_bind_lift (P : EditorState -> Prop) {A C : Type}
      (r : result A) (k : A -> M C) :
  (forall a, r = Ok a -> keeps P (k a)) -> keeps P (bind (lift r) k).
Proof.
  intros Hk E H. unfold bind, lift. destruct r as [a | e]; cbn [snd].
  - apply (Hk a); [reflexivity | exact H].
  - exact H.
Qed.

Lemma consistent_rows_and_count (E E' : EditorState) :
  rows_and_count E' = rows_and_count E -> consistent E -> consistent E'.
Proof.
  intros H [Hwf Hs]. split.
  - eapply well_formed_rows_and_count; eauto.
  - unfold rows_and_count in H. inversion H as [[Hr Ht]]. rewrite Hr. exact Hs.
Qed.

Lemma consistent_text (E E' : EditorState) :
  document_text E' = document_text E -> consistent E -> consistent E'.
Proof.
  intros H [Hwf Hs]. split.
  - eapply well_formed_text; eauto.
  - unfold document_text in H. inversion H as [[Hm Ht Hmod]].
    eapply text_sized; eauto.
Qed.

Lemma consistent_frame_rows {A : Type} (m : M A) :
  frame rows_and_count m -> keeps consistent m.
Proof. intros Hm E H. eapply consistent_rows_and_count; [apply Hm | exact H]. Qed.

Lemma consistent_frame_text {A : Type} (m : M A) :
  frame document_text m -> keeps consistent m.
Proof. intros Hm E H. eapply consistent_text; [apply Hm | exact H]. Qed.

Lemma consistent_update_row (p : nat) (f : EditorRow -> EditorRow) :
  (forall r, index (f r) = index r) ->
  (forall r, rendered_ok r -> rendered_ok (f r)) ->
  (forall r, sized r -> sized (f r)) ->
  keeps consistent (update_row p f).
Proof.
  intros Hi Hr Hs E [Hwf Hsz]. split.
  - apply keeps_update_row; assumption.
  - unfold update_row, modify. cbn [snd].
    destruct (nth_error (rows E) p) as [r |] eqn:Hp; [| exact Hsz].
    cbn [rows set_rows]. apply set_nth_Forall; [exact Hsz |].
    apply Hs. rewrite Forall_forall in Hsz. apply Hsz.
    eapply nth_error_In, Hp.
Qed.

Lemma consistent_row_at p : keeps consistent (row_at p).
Proof. apply consistent_frame_rows, frame_row_at. Qed.

Lemma consistent_row_ref i : keeps consistent (row_ref i).
Proof. apply consistent_frame_rows, frame_row_ref. Qed.

Lemma consistent_row_update_syntax p : keeps consistent (row_update_syntax p).
Proof. apply consistent_frame_text, frame_text_row_update_syntax. Qed.

Lemma consistent_row_update_rendered p :
  keeps consistent (row_update_rendered p).
Proof.
  unfold row_update_rendered. apply keeps_bind.
  - apply consistent_update_row; intros r; try reflexivity; intros H; exact H.
  - intros _. apply consistent_row_update_syntax.
Qed.

Lemma consistent_insert_editor_row position c :
  0 <= position -> keeps consistent (insert_editor_row position c).
Proof.
  intros Hpos E H. split.
  - apply keeps_insert_editor_row; [exact Hpos | apply H].
  - apply insert_editor_row_sized; assumption.
Qed.

Lemma consistent_delete_editor_row position :
  0 <= position -> keeps consistent (delete_editor_row position).
Proof.
  intros Hpos E H. split.
  - apply keeps_delete_editor_row; [exact Hpos | apply H].
  - apply delete_editor_row_sized; assumption.
Qed.

Lemma consistent_reset :
  keeps consistent (modify (fun E => set_total_rows 0 (set_rows [] E))).
Proof.
  intros E [Hwf _]. split; [apply keeps_reset; exact Hwf | constructor].
Qed.

#[export] Hint Resolve consistent_row_at consistent_row_ref
  consistent_row_update_syntax consistent_row_update_rendered
  consistent_reset : keeps.

Lemma slice_split_length {A : Type} (l : list A) (j : Z) :
  (length (slice_to l j) + length (slice_from l j) = length l)%nat.
Proof.
  unfold slice_to, slice_from.
  rewrite <- length_app, firstn_skipn. reflexivity.
Qed.

Ltac sizes_step :=
  first
    [ solve [auto with keeps]
    | match goal with
      | |- keeps _ (bind get _) => apply keeps_bind_get; intros ? ?
      | |- keeps _ (bind (lift _) _) => apply keeps_bind_lift; intros ? ?
      | |- keeps _ (bind _ _) => apply keeps_bind; [ | intros ? ]
      | |- keeps _ (ret _) => apply keeps_ret
      | |- keeps _ (raise _) => apply keeps_raise
      | |- keeps _ (lift _) => apply keeps_lift
      | |- keeps _ get => apply keeps_get
      | |- keeps _ (modify _) =>
          apply consistent_frame_rows, frame_modify; solve [frame_fields]
      | |- keeps _ (insert_editor_row _ _) => apply consistent_insert_editor_row
      | |- keeps _ (delete_editor_row _) => apply consistent_delete_editor_row
      | |- keeps _ (for_each _ _) => apply keeps_for_each; intros ? ?
      | |- keeps _ (try_except _ _) => apply keeps_try_except; [ | intros ? ]
      | |- keeps _ (if ?b then _ else _) => destruct b eqn:?
      | |- keeps _ (match ?x with _ => _ end) => destruct x eqn:?
      end ].

Ltac sizes_tac := repeat sizes_step.

Lemma consistent_row_insert_char p position (ch : ascii) :
  keeps consistent (row_insert_char p position [ch]).
Proof.
  unfold row_insert_char. cbv zeta.
  apply keeps_bind; [apply consistent_row_at | intros self].
  apply keeps_bind; [| intros _; apply consistent_row_update_rendered].
  apply consistent_update_row; intros r; try reflexivity;
    [intros H; exact H |].
  unfold sized. cbn [content content_size set_content set_content_size].
  intros H. rewrite H. unfold len. rewrite !length_app. cbn [length].
  match goal with
  | |- context [slice_to (content r) ?j] =>
      pose proof (slice_split_length (content r) j)
  end.
  lia.
Qed.

Lemma consistent_row_append_string p string :
  keeps consistent (row_append_string p string).
Proof.
  unfold row_append_string.
  apply keeps_bind; [| intros _; apply consistent_row_update_rendered].
  apply consistent_update_row; intros r; try reflexivity;
    [intros H; exact H |].
  unfold sized. cbn [content content_size set_content set_content_size].
  intros H. rewrite H. unfold len. rewrite length_app. lia.
Qed.

(** Deleting a character needs the position to be in the row it is
    deleted from: the row is read before it is assigned. *)
Lemma consistent_row_delete_char p position :
  0 <= position -> keeps consistent (row_delete_char p position).
Proof.
  intros Hpos E HP. unfold row_delete_char.
  destruct (nth_error (rows E) p) as [self |] eqn:Hself.
  2:{ cbv [row_at bind get]. rewrite Hself. exact HP. }
  rewrite (bind_ok _ _ _ _ _ (row_at_ok _ _ _ Hself)).
  destruct (position >=? content_size self) eqn:Hc; [exact HP |].
  rewrite Z.geb_leb in Hc. apply Z.leb_gt in Hc.
  apply bind_cases; intros x E1 H;
    rewrite (update_row_ok _ _ _ _ Hself) in H; inversion H; subst E1.
  assert (Hs : sized self).
  { destruct HP as [_ Hs]. rewrite Forall_forall in Hs. apply Hs.
    eapply nth_error_In, Hself. }
  apply consistent_row_update_rendered. split.
  - pose proof (keeps_update_row p
                  (fun self =>
                     set_content_size (content_size self - 1)
                       (set_content
                          (slice_to (content self) position
                           ++ slice_from (content self) (position + 1)) self))
                  ltac:(reflexivity) ltac:(intros r Hr; exact Hr)
                  E (proj1 HP)) as K.
    rewrite (update_row_ok _ _ _ _ Hself) in K. exact K.
  - cbn [rows set_rows]. apply set_nth_Forall; [apply HP |].
    unfold sized in *.
    cbn [content content_size set_content set_content_size].
    unfold len, slice_to, slice_from, bound.
    rewrite length_app, length_firstn, length_skipn.
    replace (position <? 0) with false by (symmetry; apply Z.ltb_ge; lia).
    replace (position + 1 <? 0) with false by (symmetry; apply Z.ltb_ge; lia).
    unfold len in *. lia.
Qed.

Lemma get_content_col_loop_from (cs : str) :
  forall size r k rd j,
    get_content_col_loop cs size r k rd = Ok j -> k <= j.
Proof.
  induction cs as [| ch cs IH]; intros size r k rd j; cbn [get_content_col_loop].
  - destruct ((k <? size) && (rd <? r)); intros H; inversion H; lia.
  - destruct ((k <? size) && (rd <? r)); [| intros H; inversion H; lia].
    destruct (Ascii.eqb ch tab).
    + destruct (rd + (8 - rd mod 8) >? r).
      * intros H; inversion H; lia.
      * intros H. apply IH in H. lia.
    + intros H. apply IH in H. lia.
Qed.

Lemma get_content_col_nonneg (row : EditorRow) (c k : Z) :
  get_content_col row c = Ok k -> 0 <= k.
Proof. unfold get_content_col. apply get_content_col_loop_from. Qed.

Lemma consistent_set_status_message message :
  keeps consistent (set_status_message message).
Proof. unfold set_status_message. sizes_tac. Qed.

Lemma consistent_clear_mark : keeps consistent clear_mark.
Proof. unfold clear_mark. sizes_tac. Qed.

Lemma consistent_save_undo_state : keeps consistent save_undo_state.
Proof.
  unfold save_undo_state, push_undo. cbv zeta.
  apply consistent_frame_rows, frame_modify. frame_fields.
Qed.

#[export] Hint Resolve consistent_row_insert_char consistent_row_append_string
  consistent_set_status_message consistent_clear_mark
  consistent_save_undo_state : keeps.

Ltac sizes_side :=
  repeat match goal with
         | H : consistent _ |- _ => destruct H as [H _]
         | H : well_formed _ |- _ => apply well_formed_count in H
         | H : get_content_col _ _ = Ok _ |- _ => apply get_content_col_nonneg in H
         end;
  lia.

Lemma insert_char_sizes ch : keeps consistent (insert_char ch).
Proof. unfold insert_char. cbv zeta. sizes_tac; sizes_side. Qed.

Lemma delete_char_sizes (E : EditorState) :
  consistent E ->
  0 <= row_offset E + cursor_y E ->
  consistent (snd (delete_char E)).
Proof.
  intros HP Hrow. unfold delete_char, save_undo_state.
  rewrite bind_modify, bind_get. cbv zeta.
  destruct (push_undo_cursor E) as (Hd & Hro & Hcy & _).
  rewrite Hro, Hcy.
  assert (HP0 : consistent (push_undo E))
    by (eapply consistent_rows_and_count; eauto).
  match goal with
  | |- consistent (snd (?m ?E0)) =>
      enough (K : keeps consistent m) by (apply K; exact HP0)
  end.
  repeat first [ apply consistent_row_delete_char | sizes_step ]; sizes_side.
Qed.

Lemma restore_sizes (entry : snapshot) (E : EditorState) :
  consistent (snd (restore entry E)).
Proof.
  destruct entry as [[[[rows_copy cx] cy] co] ro].
  unfold restore. rewrite bind_modify.
  assert (H0 : consistent (set_total_rows 0 (set_rows [] E))).
  { split; [| constructor].
    split; [reflexivity | split; [| constructor]].
    intros p r H. destruct p; discriminate. }
  match goal with
  | |- consistent (snd (?m ?E0)) =>
      enough (K : keeps consistent m) by (apply K; exact H0)
  end.
  sizes_tac; sizes_side.
Qed.

Lemma undo_sizes (E : EditorState) :
  undo_stack E <> [] -> consistent (snd (undo E)).
Proof.
  intros Hne. unfold undo. rewrite bind_get.
  destruct (pop (undo_stack E)) as [[entry below] |] eqn:Hpop.
  - rewrite !bind_modify. apply bind_cases; intros x E1 H;
      pose proof (restore_sizes entry) as K;
      match type of H with ?m ?E0 = _ => specialize (K E0) end;
      rewrite H in K; [exact K |].
    apply consistent_set_status_message. exact K.
  - apply pop_none in Hpop. contradiction.
Qed.

Lemma redo_sizes (E : EditorState) :
  redo_stack E <> [] -> consistent (snd (redo E)).
Proof.
  intros Hne. unfold redo. rewrite bind_get.
  destruct (pop (redo_stack E)) as [[entry below] |] eqn:Hpop.
  - rewrite !bind_modify. apply bind_cases; intros x E1 H;
      pose proof (restore_sizes entry) as K;
      match type of H with ?m ?E0 = _ => specialize (K E0) end;
      rewrite H in K; [exact K |].
    apply consistent_set_status_message. exact K.
  - apply pop_none in Hpop. contradiction.
Qed.

Lemma undo_keeps_sizes : keeps consistent undo.
Proof.
  intros E HP. destruct (undo_stack E) as [| s st] eqn:Hst.
  - rewrite undo_nothing by exact Hst.
    apply (consistent_set_status_message (lit "Nothing to undo") E HP).
  - apply undo_sizes. rewrite Hst. discriminate.
Qed.

Lemma redo_keeps_sizes : keeps consistent redo.
Proof.
  intros E HP. destruct (redo_stack E) as [| s st] eqn:Hst.
  - rewrite redo_nothing by exact Hst.
    apply (consistent_set_status_message (lit "Nothing to redo") E HP).
  - apply redo_sizes. rewrite Hst. discriminate.
Qed.

Lemma move_cursor_sizes key : keeps consistent (move_cursor key).
Proof. unfold move_cursor, row_or_none. cbv zeta. sizes_tac. Qed.

Lemma set_mark_sizes : keeps consistent set_mark.
Proof. unfold set_mark. sizes_tac. Qed.

Lemma copy_selection_sizes : keeps consistent copy_selection.
Proof. unfold copy_selection. sizes_tac. Qed.

Lemma open_sizes name name_answer discard_answer fs :
  keeps consistent (open_file_terminal name name_answer discard_answer fs).
Proof.
  unfold open_file_terminal, open_named, read_file, load_line,
    select_syntax_highlight, _prompt_user_cli.
  cbv zeta. sizes_tac; sizes_side.
Qed.

Lemma save_sizes save_as name_answer w :
  keeps consistent (save_file_terminal save_as name_answer w).
Proof.
  unfold save_file_terminal, select_syntax_highlight, _prompt_user_cli,
    rehighlight.
  cbv zeta. sizes_tac.
Qed.

(** X23.  Every command but the three that assign a row's content
    (splitting a line, cutting, pasting) keeps the document consistent,
    whether it returns or raises, when the cursor is on a row that is not
    negative: the document stays well-formed and every row's
    [content_size] stays the length of its content. *)
Theorem commands_keep_content_size (c : command) (E : EditorState) :
  assigns_content c = false ->
  consistent E ->
  0 <= row_offset E + cursor_y E ->
  consistent (snd (run c E)).
Proof.
  intros Hc HP Hrow. destruct c; cbn [run]; try discriminate Hc.
  - apply insert_char_sizes. exact HP.
  - apply delete_char_sizes; assumption.
  - apply move_cursor_sizes. exact HP.
  - apply set_mark_sizes. exact HP.
  - apply copy_selection_sizes. exact HP.
  - apply undo_keeps_sizes. exact HP.
  - apply redo_keeps_sizes. exact HP.
  - apply open_sizes. exact HP.
  - apply keeps_bind; [apply save_sizes | intros ?; apply keeps_ret | exact HP].
Qed.

Lemma commands_keep_content_size_witness :
  consistent (snd (run DeleteChar opened_typed)).
Proof.
  apply (commands_keep_content_size DeleteChar opened_typed).
  - reflexivity.
  - concrete_consistent.
  - vm_compute. discriminate.
Defined.

(** X24.  An undo or a redo that finds an entry rebuilds the document from
    the contents it stored: whatever the state before (also one that is
    not well-formed, or with a stale [content_size]), the command returns,
    the document is consistent afterwards, and rows and cursor are those of
    the entry. *)
Theorem undo_redo_rebuild_document (c : command) (E : EditorState)
        (entry : snapshot) (below : list snapshot) :
  c = Undo \/ c = Redo ->
  pop (source_stack c E) = Some (entry, below) ->
  exists E',
    run c E = (Ok tt, E')
    /\ consistent E'
    /\ current_state E' = entry.
Proof.
  intros [-> | ->] Hpop; cbn [run source_stack] in *.
  - destruct (undo_spec E entry below Hpop) as (E' & H & Hs & _).
    exists E'. split; [exact H |]. split; [| exact Hs].
    replace E' with (snd (undo E)) by (rewrite H; reflexivity).
    apply undo_sizes. apply pop_some in Hpop. rewrite Hpop.
    intros Hnil. apply app_eq_nil in Hnil. destruct Hnil; discriminate.
  - destruct (redo_spec E entry below Hpop) as (E' & H & Hs & _).
    exists E'. split; [exact H |]. split; [| exact Hs].
    replace E' with (snd (redo E)) by (rewrite H; reflexivity).
    apply redo_sizes. apply pop_some in Hpop. rewrite Hpop.
    intros Hnil. apply app_eq_nil in Hnil. destruct Hnil; discriminate.
Qed.

Lemma undo_redo_rebuild_document_witness :
  exists E',
    run Undo split_line = (Ok tt, E')
    /\ consistent E'
    /\ current_state E' = ([lit "ab"], 1, 0, 0, 0).
Proof.
  apply (undo_redo_rebuild_document Undo split_line ([lit "ab"], 1, 0, 0, 0)
           [([], 0, 0, 0, 0); ([lit "a"], 1, 0, 0, 0)]).
  - left. reflexivity.
  - vm_compute. reflexivity.
Defined.

(** ** What typing does to the text *)























(* ================================================================== *)
(** * Further properties: the key loop *)
(* ================================================================== *)

Lemma code_byte (b : ascii) : 0 <= code b < 256.
Proof.
  unfold code. pose proof (nat_ascii_bounded b) as H. lia.
Qed.

Lemma chr_code (b : ascii) : chr (code b) = b.
Proof. unfold chr, code. rewrite Nat2Z.id. apply ascii_nat_embedding. Qed.

Lemma read_key_byte (b : ascii) (seq : list ascii) :
  code b <> KEY_ACTION.ESC -> read_key (Some b) seq = code b.
Proof.
  intros H. unfold read_key. cbv zeta.
  apply Z.eqb_neq in H. rewrite H. reflexivity.
Qed.

Lemma read_key_range (first : option ascii) (seq : list ascii) :
  0 <= read_key first seq < 256 \/ 1000 <= read_key first seq <= 1008.
Proof.
  unfold read_key. cbv zeta.
  destruct first as [b |]; [| left; cbv; split; [discriminate | reflexivity]].
  pose proof (code_byte b) as Hb.
  repeat match goal with
         | |- context [if ?c then _ else _] => destruct c
         | |- context [match ?l with [] => _ | _ :: _ => _ end] => destruct l
         end;
    first [ left; exact Hb
          | left; cbv; split; [discriminate | reflexivity]
          | right; cbv; split; discriminate ].
Qed.

(** X29.  What the key loop types.  Every key [read_key] returns is below
    256 or one of the nine codes from 1000 to 1008, so that [chr] in the
    typing branch of the loop only meets byte values; and a byte from 32
    to 255 other than 127 types itself: the turn is [insert_char] of that
    byte, and the quit counter is 3 again. *)
Theorem printable_bytes_type_themselves (quit_times : Z) (i : input) :
  (0 <= read_key (first_read i) (escape_read i) < 256
   \/ 1000 <= read_key (first_read i) (escape_read i) <= 1008)
  /\ forall b E,
       first_read i = Some b ->
       32 <= code b ->
       code b <> 127 ->
       terminal_process_keypress quit_times i E
       = (insert_char b ;; ret (Continue 3)) E.
Proof.
  split; [apply read_key_range |].
  intros b E Hf H32 H127. unfold terminal_process_keypress. cbv zeta.
  rewrite Hf, read_key_byte by (unfold KEY_ACTION.ESC; lia).
  pose proof (code_byte b) as Hb.
  unfold KEY_ACTION.ENTER, KEY_ACTION.CTRL_Q, KEY_ACTION.CTRL_S,
    KEY_ACTION.CTRL_A, KEY_ACTION.CTRL_O, KEY_ACTION.CTRL_Z,
    KEY_ACTION.CTRL_R, KEY_ACTION.CTRL_B, KEY_ACTION.CTRL_C,
    KEY_ACTION.CTRL_X, KEY_ACTION.CTRL_V, KEY_ACTION.BACKSPACE,
    KEY_ACTION.CTRL_H, KEY_ACTION.DEL_KEY, KEY_ACTION.ARROW_UP,
    KEY_ACTION.ARROW_DOWN, KEY_ACTION.ARROW_LEFT, KEY_ACTION.ARROW_RIGHT,
    KEY_ACTION.PAGE_UP, KEY_ACTION.PAGE_DOWN, KEY_ACTION.ESC,
    KEY_ACTION.CTRL_L.
  repeat match goal with
         | |- context [code b =? ?k] =>
             replace (code b =? k) with false
               by (symmetry; apply Z.eqb_neq; lia)
         end.
  replace (code b <? 1000) with true by (symmetry; apply Z.ltb_lt; lia).
  replace (code b >=? 32) with true
    by (symmetry; rewrite Z.geb_leb; apply Z.leb_le; lia).
  cbn [orb andb negb]. rewrite chr_code. reflexivity.
Qed.

Lemma read_key_ctrl_q (seq : list ascii) :
  read_key (Some ctrl_q) seq = KEY_ACTION.CTRL_Q.
Proof. reflexivity. Qed.

Lemma then_continue {A : Type} (m : M A) (c l : loop) (E E' : EditorState) :
  (m ;; ret c) E = (Ok l, E') -> l = c.
Proof.
  unfold bind, ret. destruct (m E) as [[a | e] E1]; intros H; inversion H.
  reflexivity.
Qed.

(** X30.  Leaving with Ctrl-Q.  On an unmodified document, or with the
    counter used up, Ctrl-Q exits and changes nothing.  On a modified
    document with the counter above 0 it only warns: the counter goes down
    by one and nothing but the status message changes.  Every turn for
    another key that returns puts the counter back to 3.  So, from the
    counter's start value 3, a modified document is left by the fourth
    Ctrl-Q in a row, and not before. *)
Theorem quit_needs_four_presses (i : input) (E : EditorState) :
  first_read i = Some ctrl_q ->
  (forall q, modified E = false \/ q <= 0 ->
             terminal_process_keypress q i E = (Ok Exit, E))
  /\ (forall q, modified E = true -> 0 < q ->
                terminal_process_keypress q i E
                = (Ok (Continue (q - 1)), set_status quit_warning E))
  /\ (forall q j l E',
        first_read j <> Some ctrl_q ->
        terminal_process_keypress q j E = (Ok l, E') ->
        l = Continue 3)
  /\ (modified E = true ->
      key_loop (Continue 3) [i; i; i] E
      = (Ok (Continue 0), set_status quit_warning E)
      /\ key_loop (Continue 3) [i; i; i; i] E
         = (Ok Exit, set_status quit_warning E)).
Proof.
  intros Hi.
  assert (Hexit : forall q E0, modified E0 = false \/ q <= 0 ->
                    terminal_process_keypress q i E0 = (Ok Exit, E0)).
  { intros q E0 H. unfold terminal_process_keypress. cbv zeta.
    rewrite Hi, read_key_ctrl_q. cbn [Z.eqb KEY_ACTION.CTRL_Q KEY_ACTION.ENTER
                                      Pos.eqb].
    rewrite bind_get.
    destruct H as [H | H].
    - rewrite H. reflexivity.
    - replace (q >? 0) with false
        by (symmetry; rewrite Z.gtb_ltb; apply Z.ltb_ge; lia).
      rewrite andb_false_r. reflexivity. }
  assert (Hwarn : forall q E0, modified E0 = true -> 0 < q ->
                    terminal_process_keypress q i E0
                    = (Ok (Continue (q - 1)), set_status quit_warning E0)).
  { intros q E0 Hm Hq. unfold terminal_process_keypress. cbv zeta.
    rewrite Hi, read_key_ctrl_q. cbn [Z.eqb KEY_ACTION.CTRL_Q KEY_ACTION.ENTER
                                      Pos.eqb].
    rewrite bind_get, Hm.
    replace (q >? 0) with true
      by (symmetry; rewrite Z.gtb_ltb; apply Z.ltb_lt; lia).
    reflexivity. }
  split; [intros q; apply Hexit |].
  split; [intros q; apply Hwarn |].
  split.
  - intros q j l E' Hj. unfold terminal_process_keypress. cbv zeta.
    assert (Hk : read_key (first_read j) (escape_read j) <> KEY_ACTION.CTRL_Q).
    { unfold read_key. cbv zeta. destruct (first_read j) as [b |];
        [| discriminate].
      assert (Hb : code b <> 17).
      { intros Hc. apply Hj. f_equal.
        rewrite <- (chr_code b), Hc. reflexivity. }
      repeat match goal with
             | |- context [if ?c then _ else _] => destruct c
             | |- context [match ?l with [] => _ | _ :: _ => _ end] => destruct l
             end;
        first [ exact Hb | discriminate ]. }
    apply Z.eqb_neq in Hk. rewrite Hk.
    repeat match goal with
           | |- context [if ?c then _ else _] => destruct c
           end;
      first [ apply then_continue
            | intros H; inversion H; reflexivity ].
  - intros Hm. cbn [key_loop].
    assert (Hm1 : modified (set_status quit_warning E) = true) by exact Hm.
    split.
    + rewrite (bind_ok _ _ _ _ _ (Hwarn 3 E Hm ltac:(lia))). cbv beta iota.
      rewrite (bind_ok _ _ _ _ _ (Hwarn (3 - 1) _ Hm1 ltac:(lia))).
      cbv beta iota.
      rewrite (bind_ok _ _ _ _ _ (Hwarn (3 - 1 - 1) _ Hm1 ltac:(lia))).
      reflexivity.
    + rewrite (bind_ok _ _ _ _ _ (Hwarn 3 E Hm ltac:(lia))). cbv beta iota.
      rewrite (bind_ok _ _ _ _ _ (Hwarn (3 - 1) _ Hm1 ltac:(lia))).
      cbv beta iota.
      rewrite (bind_ok _ _ _ _ _ (Hwarn (3 - 1 - 1) _ Hm1 ltac:(lia))).
      cbv beta iota.
      rewrite (bind_ok _ _ _ _ _
                 (Hexit (3 - 1 - 1 - 1) _ ltac:(right; lia))).
      reflexivity.
Qed.

Lemma quit_needs_four_presses_witness :
  (forall q, modified opened_typed = false \/ q <= 0 ->
             terminal_process_keypress q ctrl_q_pressed opened_typed
             = (Ok Exit, opened_typed))
  /\ (forall q, modified opened_typed = true -> 0 < q ->
                terminal_process_keypress q ctrl_q_pressed opened_typed
                = (Ok (Continue (q - 1)), set_status quit_warning opened_typed))
  /\ (forall q j l E',
        first_read j <> Some ctrl_q ->
        terminal_process_keypress q j opened_typed = (Ok l, E') ->
        l = Continue 3)
  /\ (modified opened_typed = true ->
      key_loop (Continue 3) [ctrl_q_pressed; ctrl_q_pressed; ctrl_q_pressed]
               opened_typed
      = (Ok (Continue 0), set_status quit_warning opened_typed)
      /\ key_loop (Continue 3)
                  [ctrl_q_pressed; ctrl_q_pressed; ctrl_q_pressed;
                   ctrl_q_pressed] opened_typed
         = (Ok Exit, set_status quit_warning opened_typed)).
Proof.
  apply (quit_needs_four_presses ctrl_q_pressed opened_typed).
  reflexivity.
Defined.
